(** * Trend analyzer of daily_stock_analysis: a shallow embedding

    This development embeds [src/src/stock_analyzer.py] (class
    [StockTrendAnalyzer] and the dataclass [TrendAnalysisResult]) and proves
    or refutes statements of the specification about it.

    Conventions of the embedding.

    - Python and numpy floating-point numbers are modelled by [fval]: the
      finite values are exact rationals ([Q]); the special values [+inf],
      [-inf] and [NaN] are explicit, with the IEEE rules for the operations
      that produce or consume them (division by zero, comparisons with NaN).
      Rounding of finite results and the sign of zero are not modelled.
    - Python integers are [Z].  Their true division [a / b] is the exact
      quotient: the OverflowError that Python raises when the quotient is
      beyond the float range is not modelled, and the statements that range
      over the weights of the aggregation bound them by
      [weights_in_float_range], within which that error cannot occur.
    - Operations that raise in Python (an index out of range, the division of
      two Python numbers by zero) live in the error monad [M].
    - A pandas DataFrame is a record of columns ([DataFrame]); the caller's
      frame is a list of [Bar]s.
    - The dataclass [TrendAnalysisResult] is a record whose fields are grouped
      the way the comment headers of the dataclass group them.
    - Text built by literals and f-strings is a list of [piece]s: the literal
      fragments and the interpolated numbers with their format.
    - numpy's square root, used by the rolling standard deviation, is a
      parameter [sqrt] of the functions that need it. *)

From Stdlib Require Import String ZArith QArith Qround Qabs List Bool Lia Lqa Arith.
Import ListNotations.

Local Open Scope Z_scope.

(* ================================================================== *)
(** ** Numbers *)

Inductive fval : Type :=
| Fin (q : Q)
| PInf
| NInf
| NaN.

Definition Qltb (x y : Q) : bool := negb (Qle_bool y x).

Definition fneg (x : fval) : fval :=
  match x with
  | Fin q => Fin (- q)
  | PInf => NInf
  | NInf => PInf
  | NaN => NaN
  end.

Definition fadd (x y : fval) : fval :=
  match x, y with
  | NaN, _ | _, NaN => NaN
  | Fin a, Fin b => Fin (a + b)
  | PInf, NInf | NInf, PInf => NaN
  | PInf, _ | _, PInf => PInf
  | NInf, _ | _, NInf => NInf
  end.

Definition fsub (x y : fval) : fval := fadd x (fneg y).

Definition fmul (x y : fval) : fval :=
  match x, y with
  | NaN, _ | _, NaN => NaN
  | Fin a, Fin b => Fin (a * b)
  | Fin a, PInf | PInf, Fin a =>
      if Qeq_bool a 0 then NaN else if Qltb 0 a then PInf else NInf
  | Fin a, NInf | NInf, Fin a =>
      if Qeq_bool a 0 then NaN else if Qltb 0 a then NInf else PInf
  | PInf, PInf | NInf, NInf => PInf
  | PInf, NInf | NInf, PInf => NInf
  end.

(** numpy's division: a zero divisor gives an infinity or NaN. *)
Definition fdiv (x y : fval) : fval :=
  match x, y with
  | NaN, _ | _, NaN => NaN
  | Fin a, Fin b =>
      if Qeq_bool b 0
      then (if Qeq_bool a 0 then NaN else if Qltb 0 a then PInf else NInf)
      else Fin (a / b)
  | Fin _, PInf | Fin _, NInf => Fin 0
  | PInf, Fin b => if Qltb b 0 then NInf else PInf
  | NInf, Fin b => if Qltb b 0 then PInf else NInf
  | PInf, PInf | PInf, NInf | NInf, PInf | NInf, NInf => NaN
  end.

Definition fabs (x : fval) : fval :=
  match x with
  | Fin q => Fin (Qabs q)
  | PInf | NInf => PInf
  | NaN => NaN
  end.

(** Comparisons: every comparison with NaN is false, except [!=]. *)
Definition flt (x y : fval) : bool :=
  match x, y with
  | NaN, _ | _, NaN => false
  | Fin a, Fin b => Qltb a b
  | NInf, NInf => false
  | NInf, _ => true
  | PInf, _ => false
  | Fin _, PInf => true
  | Fin _, NInf => false
  end.

Definition feq (x y : fval) : bool :=
  match x, y with
  | Fin a, Fin b => Qeq_bool a b
  | PInf, PInf | NInf, NInf => true
  | _, _ => false
  end.

Definition fle (x y : fval) : bool := flt x y || feq x y.
Definition fgt (x y : fval) : bool := flt y x.
Definition fge (x y : fval) : bool := fle y x.
Definition fne (x y : fval) : bool := negb (feq x y).

Definition isnan (x : fval) : bool :=
  match x with NaN => true | _ => false end.

Definition fz (z : Z) : fval := Fin (inject_Z z).

(** Python's builtin [min(a, b)] and [max(a, b)]: the first argument unless
    the second is strictly smaller (larger). *)
Definition py_min (a b : fval) : fval := if flt b a then b else a.
Definition py_max (a b : fval) : fval := if fgt b a then b else a.

(** Python's [round(x)] of a finite float: to the nearest integer, a tie to
    the even one. *)
Definition py_round (x : Q) : Z :=
  let f := Qfloor x in
  match Qcompare (x - inject_Z f) (1 # 2) with
  | Lt => f
  | Gt => f + 1
  | Eq => if Z.even f then f else f + 1
  end.

(** Equality of model values up to the representation of rationals. *)
Definition feqv (x y : fval) : Prop :=
  match x, y with
  | Fin a, Fin b => (a == b)%Q
  | PInf, PInf | NInf, NInf | NaN, NaN => True
  | _, _ => False
  end.

Infix "=f=" := feqv (at level 70, no associativity).

(* ================================================================== *)
(** ** Exceptions *)

Inductive exn : Type :=
| IndexError
| ZeroDivisionError
| ValueError
| OverflowError.

Inductive M (A : Type) : Type :=
| Ok (a : A)
| Raise (e : exn).

Arguments Ok {A} a.
Arguments Raise {A} e.

Definition bind {A B : Type} (m : M A) (k : A -> M B) : M B :=
  match m with
  | Ok a => k a
  | Raise e => Raise e
  end.

Notation "x <- m ;; k" := (bind m (fun x => k))
  (at level 61, m at next level, right associativity).

(** [a / b] on Python numbers raises when [b] is zero. *)
Definition py_truediv (x y : fval) : M fval :=
  match y with
  | Fin b => if Qeq_bool b 0 then Raise ZeroDivisionError else Ok (fdiv x y)
  | _ => Ok (fdiv x y)
  end.

(** [a / b] on Python ints, as the exact quotient.  Python converts the
    quotient to a float and raises OverflowError when it is beyond the float
    range; that conversion is not part of this function: the statements
    that range over the weights keep the quotients of the aggregation within
    the float range (see [weights_in_float_range]). *)
Definition int_truediv (a b : Z) : M Q :=
  if b =? 0 then Raise ZeroDivisionError else Ok (inject_Z a / inject_Z b)%Q.

(** [round] of a Python float. *)
Definition py_round_f (x : fval) : M Z :=
  match x with
  | Fin q => Ok (py_round q)
  | NaN => Raise ValueError
  | PInf | NInf => Raise OverflowError
  end.

(** [seq[i]] for a Python index [i], negative indices counting from the
    end. *)
Definition py_index (len : nat) (i : Z) : M nat :=
  let n := Z.of_nat len in
  if (0 <=? i) && (i <? n) then Ok (Z.to_nat i)
  else if (i <? 0) && (- n <=? i) then Ok (Z.to_nat (n + i))
  else Raise IndexError.

Definition getitem {A : Type} (l : list A) (i : Z) (d : A) : M A :=
  p <- py_index (length l) i ;; Ok (nth p l d).

(* ================================================================== *)
(** ** Text *)

Inductive piece : Type :=
| Str (s : string)
| Num (format : string) (x : fval).

Definition text : Type := list piece.

Definition lit (s : string) : text := [Str s].

(* ================================================================== *)
(** ** The enumerations

    Each Python [Enum] is a module holding the type [t] of its members, the
    member's [value] and the equality test on members. *)

Class EnumEq (A : Type) := {
  eqb : A -> A -> bool;
  eqb_spec : forall a b, eqb a b = true <-> a = b
}.

Module TrendStatus.
Inductive t : Type :=
| STRONG_BULL | BULL | WEAK_BULL | CONSOLIDATION | WEAK_BEAR | BEAR | STRONG_BEAR.
Definition tag (s : t) : nat :=
  match s with
  | STRONG_BULL => 0 | BULL => 1 | WEAK_BULL => 2 | CONSOLIDATION => 3
  | WEAK_BEAR => 4 | BEAR => 5 | STRONG_BEAR => 6
  end.
Definition value (s : t) : string :=
  match s with
  | STRONG_BULL => "强势多头" | BULL => "多头排列" | WEAK_BULL => "弱势多头"
  | CONSOLIDATION => "盘整" | WEAK_BEAR => "弱势空头" | BEAR => "空头排列"
  | STRONG_BEAR => "强势空头"
  end.
End TrendStatus.

Module VolumeStatus.
Inductive t : Type :=
| HEAVY_VOLUME_UP | HEAVY_VOLUME_DOWN | SHRINK_VOLUME_UP | SHRINK_VOLUME_DOWN
| NORMAL.
Definition tag (s : t) : nat :=
  match s with
  | HEAVY_VOLUME_UP => 0 | HEAVY_VOLUME_DOWN => 1 | SHRINK_VOLUME_UP => 2
  | SHRINK_VOLUME_DOWN => 3 | NORMAL => 4
  end.
Definition value (s : t) : string :=
  match s with
  | HEAVY_VOLUME_UP => "放量上涨" | HEAVY_VOLUME_DOWN => "放量下跌"
  | SHRINK_VOLUME_UP => "缩量上涨" | SHRINK_VOLUME_DOWN => "缩量回调"
  | NORMAL => "量能正常"
  end.
End VolumeStatus.

Module BuySignal.
Inductive t : Type :=
| STRONG_BUY | BUY | HOLD | WAIT | SELL | STRONG_SELL.
Definition value (s : t) : string :=
  match s with
  | STRONG_BUY => "强烈买入" | BUY => "买入" | HOLD => "持有" | WAIT => "观望"
  | SELL => "卖出" | STRONG_SELL => "强烈卖出"
  end.
End BuySignal.

Module MACDStatus.
Inductive t : Type :=
| GOLDEN_CROSS_ZERO | GOLDEN_CROSS | BULLISH | CROSSING_UP | CROSSING_DOWN
| BEARISH | DEATH_CROSS.
Definition tag (s : t) : nat :=
  match s with
  | GOLDEN_CROSS_ZERO => 0 | GOLDEN_CROSS => 1 | BULLISH => 2 | CROSSING_UP => 3
  | CROSSING_DOWN => 4 | BEARISH => 5 | DEATH_CROSS => 6
  end.
Definition value (s : t) : string :=
  match s with
  | GOLDEN_CROSS_ZERO => "零轴上金叉" | GOLDEN_CROSS => "金叉" | BULLISH => "多头"
  | CROSSING_UP => "上穿零轴" | CROSSING_DOWN => "下穿零轴" | BEARISH => "空头"
  | DEATH_CROSS => "死叉"
  end.
End MACDStatus.

Module RSIStatus.
Inductive t : Type :=
| OVERBOUGHT | STRONG_BUY | NEUTRAL | WEAK | OVERSOLD.
Definition tag (s : t) : nat :=
  match s with
  | OVERBOUGHT => 0 | STRONG_BUY => 1 | NEUTRAL => 2 | WEAK => 3 | OVERSOLD => 4
  end.
Definition value (s : t) : string :=
  match s with
  | OVERBOUGHT => "超买" | STRONG_BUY => "强势买入" | NEUTRAL => "中性"
  | WEAK => "弱势" | OVERSOLD => "超卖"
  end.
End RSIStatus.

Module KDJStatus.
Inductive t : Type :=
| GOLDEN_CROSS | DEATH_CROSS | OVERBOUGHT | OVERSOLD | BULLISH | BEARISH | NEUTRAL.
Definition tag (s : t) : nat :=
  match s with
  | GOLDEN_CROSS => 0 | DEATH_CROSS => 1 | OVERBOUGHT => 2 | OVERSOLD => 3
  | BULLISH => 4 | BEARISH => 5 | NEUTRAL => 6
  end.
Definition value (s : t) : string :=
  match s with
  | GOLDEN_CROSS => "金叉" | DEATH_CROSS => "死叉" | OVERBOUGHT => "超买"
  | OVERSOLD => "超卖" | BULLISH => "多头" | BEARISH => "空头" | NEUTRAL => "中性"
  end.
End KDJStatus.

Module BOLLStatus.
Inductive t : Type :=
| UPPER_BREAK | LOWER_BREAK | UPPER_NEAR | LOWER_NEAR | MID_SUPPORT
| MID_RESISTANCE | NORMAL.
Definition tag (s : t) : nat :=
  match s with
  | UPPER_BREAK => 0 | LOWER_BREAK => 1 | UPPER_NEAR => 2 | LOWER_NEAR => 3
  | MID_SUPPORT => 4 | MID_RESISTANCE => 5 | NORMAL => 6
  end.
Definition value (s : t) : string :=
  match s with
  | UPPER_BREAK => "突破上轨" | LOWER_BREAK => "跌破下轨" | UPPER_NEAR => "接近上轨"
  | LOWER_NEAR => "接近下轨" | MID_SUPPORT => "中轨支撑" | MID_RESISTANCE => "中轨压力"
  | NORMAL => "通道内"
  end.
End BOLLStatus.

#[export, refine] Instance TrendStatus_eq : EnumEq TrendStatus.t :=
  {| eqb a b := Nat.eqb (TrendStatus.tag a) (TrendStatus.tag b) |}.
Proof. intros [] []; simpl; split; congruence. Defined.

#[export, refine] Instance VolumeStatus_eq : EnumEq VolumeStatus.t :=
  {| eqb a b := Nat.eqb (VolumeStatus.tag a) (VolumeStatus.tag b) |}.
Proof. intros [] []; simpl; split; congruence. Defined.

#[export, refine] Instance MACDStatus_eq : EnumEq MACDStatus.t :=
  {| eqb a b := Nat.eqb (MACDStatus.tag a) (MACDStatus.tag b) |}.
Proof. intros [] []; simpl; split; congruence. Defined.

#[export, refine] Instance RSIStatus_eq : EnumEq RSIStatus.t :=
  {| eqb a b := Nat.eqb (RSIStatus.tag a) (RSIStatus.tag b) |}.
Proof. intros [] []; simpl; split; congruence. Defined.

#[export, refine] Instance KDJStatus_eq : EnumEq KDJStatus.t :=
  {| eqb a b := Nat.eqb (KDJStatus.tag a) (KDJStatus.tag b) |}.
Proof. intros [] []; simpl; split; congruence. Defined.

#[export, refine] Instance BOLLStatus_eq : EnumEq BOLLStatus.t :=
  {| eqb a b := Nat.eqb (BOLLStatus.tag a) (BOLLStatus.tag b) |}.
Proof. intros [] []; simpl; split; congruence. Defined.

(** [x in [a, b, ...]] on enumeration members. *)
Definition member {A : Type} `{EnumEq A} (x : A) (l : list A) : bool :=
  existsb (eqb x) l.

(** [d.get(k, default)] on a dictionary written as the list of its items. *)
Fixpoint dict_get {K V : Type} `{EnumEq K} (d : list (K * V)) (k : K) (default : V) : V :=
  match d with
  | [] => default
  | (k', v) :: d' => if eqb k k' then v else dict_get d' k default
  end.

(* ================================================================== *)
(** ** The result record (dataclass [TrendAnalysisResult]) *)

Record TrendInfo : Type := mkTrendInfo {
  trend_status : TrendStatus.t;
  ma_alignment : text;
  trend_strength : fval
}.

Record MAInfo : Type := mkMAInfo {
  ma5 : fval;
  ma10 : fval;
  ma20 : fval;
  ma60 : fval;
  current_price : fval
}.

Record BiasInfo : Type := mkBiasInfo {
  bias_ma5 : fval;
  bias_ma10 : fval;
  bias_ma20 : fval
}.

Record VolumeInfo : Type := mkVolumeInfo {
  volume_status : VolumeStatus.t;
  volume_ratio_5d : fval;
  volume_trend : text
}.

Record SupportInfo : Type := mkSupportInfo {
  support_ma5 : bool;
  support_ma10 : bool;
  resistance_levels : list fval;
  support_levels : list fval
}.

Record MACDInfo : Type := mkMACDInfo {
  macd_dif : fval;
  macd_dea : fval;
  macd_bar : fval;
  macd_status : MACDStatus.t;
  macd_signal : text
}.

Record RSIInfo : Type := mkRSIInfo {
  rsi_6 : fval;
  rsi_12 : fval;
  rsi_24 : fval;
  rsi_status : RSIStatus.t;
  rsi_signal : text
}.

Record KDJInfo : Type := mkKDJInfo {
  kdj_k : fval;
  kdj_d : fval;
  kdj_j : fval;
  kdj_status : KDJStatus.t;
  kdj_signal : text
}.

Record BOLLInfo : Type := mkBOLLInfo {
  boll_upper : fval;
  boll_mid : fval;
  boll_lower : fval;
  boll_position : fval;
  boll_status : BOLLStatus.t;
  boll_signal : text
}.

Record OBVInfo : Type := mkOBVInfo {
  obv : fval;
  obv_trend : text
}.

Record SignalInfo : Type := mkSignalInfo {
  buy_signal : BuySignal.t;
  signal_score : Z;
  signal_reasons : list text;
  risk_factors : list text
}.

Record TrendAnalysisResult : Type := mkResult {
  code : string;
  r_trend : TrendInfo;
  r_ma : MAInfo;
  r_bias : BiasInfo;
  r_volume : VolumeInfo;
  r_support : SupportInfo;
  r_macd : MACDInfo;
  r_rsi : RSIInfo;
  r_kdj : KDJInfo;
  r_boll : BOLLInfo;
  r_obv : OBVInfo;
  r_signal : SignalInfo
}.

(** The field defaults of the dataclass: [TrendAnalysisResult(code=code)]. *)
Definition new_result (code : string) : TrendAnalysisResult :=
  {| code := code;
     r_trend := mkTrendInfo TrendStatus.CONSOLIDATION [] (fz 0);
     r_ma := mkMAInfo (fz 0) (fz 0) (fz 0) (fz 0) (fz 0);
     r_bias := mkBiasInfo (fz 0) (fz 0) (fz 0);
     r_volume := mkVolumeInfo VolumeStatus.NORMAL (fz 0) [];
     r_support := mkSupportInfo false false [] [];
     r_macd := mkMACDInfo (fz 0) (fz 0) (fz 0) MACDStatus.BULLISH [];
     r_rsi := mkRSIInfo (fz 0) (fz 0) (fz 0) RSIStatus.NEUTRAL [];
     r_kdj := mkKDJInfo (fz 0) (fz 0) (fz 0) KDJStatus.NEUTRAL [];
     r_boll := mkBOLLInfo (fz 0) (fz 0) (fz 0) (fz 0) BOLLStatus.NORMAL [];
     r_obv := mkOBVInfo (fz 0) [];
     r_signal := mkSignalInfo BuySignal.WAIT 0 [] [] |}.

(** Assignment to the fields of one group. *)
Definition with_trend (x : TrendInfo) (r : TrendAnalysisResult) :=
  mkResult (code r) x (r_ma r) (r_bias r) (r_volume r) (r_support r) (r_macd r)
           (r_rsi r) (r_kdj r) (r_boll r) (r_obv r) (r_signal r).
Definition with_ma (x : MAInfo) (r : TrendAnalysisResult) :=
  mkResult (code r) (r_trend r) x (r_bias r) (r_volume r) (r_support r) (r_macd r)
           (r_rsi r) (r_kdj r) (r_boll r) (r_obv r) (r_signal r).
Definition with_bias (x : BiasInfo) (r : TrendAnalysisResult) :=
  mkResult (code r) (r_trend r) (r_ma r) x (r_volume r) (r_support r) (r_macd r)
           (r_rsi r) (r_kdj r) (r_boll r) (r_obv r) (r_signal r).
Definition with_volume (x : VolumeInfo) (r : TrendAnalysisResult) :=
  mkResult (code r) (r_trend r) (r_ma r) (r_bias r) x (r_support r) (r_macd r)
           (r_rsi r) (r_kdj r) (r_boll r) (r_obv r) (r_signal r).
Definition with_support (x : SupportInfo) (r : TrendAnalysisResult) :=
  mkResult (code r) (r_trend r) (r_ma r) (r_bias r) (r_volume r) x (r_macd r)
           (r_rsi r) (r_kdj r) (r_boll r) (r_obv r) (r_signal r).
Definition with_macd (x : MACDInfo) (r : TrendAnalysisResult) :=
  mkResult (code r) (r_trend r) (r_ma r) (r_bias r) (r_volume r) (r_support r) x
           (r_rsi r) (r_kdj r) (r_boll r) (r_obv r) (r_signal r).
Definition with_rsi (x : RSIInfo) (r : TrendAnalysisResult) :=
  mkResult (code r) (r_trend r) (r_ma r) (r_bias r) (r_volume r) (r_support r)
           (r_macd r) x (r_kdj r) (r_boll r) (r_obv r) (r_signal r).
Definition with_kdj (x : KDJInfo) (r : TrendAnalysisResult) :=
  mkResult (code r) (r_trend r) (r_ma r) (r_bias r) (r_volume r) (r_support r)
           (r_macd r) (r_rsi r) x (r_boll r) (r_obv r) (r_signal r).
Definition with_boll (x : BOLLInfo) (r : TrendAnalysisResult) :=
  mkResult (code r) (r_trend r) (r_ma r) (r_bias r) (r_volume r) (r_support r)
           (r_macd r) (r_rsi r) (r_kdj r) x (r_obv r) (r_signal r).
Definition with_obv (x : OBVInfo) (r : TrendAnalysisResult) :=
  mkResult (code r) (r_trend r) (r_ma r) (r_bias r) (r_volume r) (r_support r)
           (r_macd r) (r_rsi r) (r_kdj r) (r_boll r) x (r_signal r).
Definition with_signal (x : SignalInfo) (r : TrendAnalysisResult) :=
  mkResult (code r) (r_trend r) (r_ma r) (r_bias r) (r_volume r) (r_support r)
           (r_macd r) (r_rsi r) (r_kdj r) (r_boll r) (r_obv r) x.

(* ================================================================== *)
(** ** The analyzer: configuration *)

(** Class attributes of [StockTrendAnalyzer]. *)
Definition BIAS_THRESHOLD : fval := Fin 5.
Definition VOLUME_SHRINK_RATIO : fval := Fin (7 # 10).
Definition VOLUME_HEAVY_RATIO : fval := Fin (3 # 2).
Definition MA_SUPPORT_TOLERANCE : fval := Fin (2 # 100).
Definition MACD_FAST : nat := 12.
Definition MACD_SLOW : nat := 26.
Definition MACD_SIGNAL : nat := 9.
Definition RSI_SHORT : nat := 6.
Definition RSI_MID : nat := 12.
Definition RSI_LONG : nat := 24.
Definition RSI_OVERBOUGHT : fval := Fin 70.
Definition RSI_OVERSOLD : fval := Fin 30.
Definition KDJ_N : nat := 9.
Definition KDJ_M1 : nat := 3.
Definition KDJ_M2 : nat := 3.
Definition BOLL_PERIOD : nat := 20.
Definition BOLL_STD : Q := 2.

Definition DEFAULT_WEIGHTS : list Z := [28; 18; 12; 8; 12; 7; 8; 7].

(** The instance state: [self._weights]. *)
Record StockTrendAnalyzer : Type := mkAnalyzer { _weights : list Z }.

Definition sum (l : list Z) : Z := fold_left Z.add l 0.

(** [StockTrendAnalyzer.__init__(score_weights)] *)
Definition __init__ (score_weights : option (list Z)) : StockTrendAnalyzer :=
  let raw := match score_weights with Some l => l | None => DEFAULT_WEIGHTS end in
  if negb (Nat.eqb (List.length raw) 8) || negb (sum raw =? 100)
  then mkAnalyzer DEFAULT_WEIGHTS
  else mkAnalyzer raw.

(* ================================================================== *)
(** ** The analyzer: signal aggregation ([_generate_signal]) *)

Definition trend_scores : list (TrendStatus.t * Z) :=
  [ (TrendStatus.STRONG_BULL, 28); (TrendStatus.BULL, 24); (TrendStatus.WEAK_BULL, 16);
    (TrendStatus.CONSOLIDATION, 10); (TrendStatus.WEAK_BEAR, 6); (TrendStatus.BEAR, 3);
    (TrendStatus.STRONG_BEAR, 0) ].

Definition volume_scores : list (VolumeStatus.t * Z) :=
  [ (VolumeStatus.SHRINK_VOLUME_DOWN, 12); (VolumeStatus.HEAVY_VOLUME_UP, 10);
    (VolumeStatus.NORMAL, 8); (VolumeStatus.SHRINK_VOLUME_UP, 5);
    (VolumeStatus.HEAVY_VOLUME_DOWN, 0) ].

Definition macd_scores : list (MACDStatus.t * Z) :=
  [ (MACDStatus.GOLDEN_CROSS_ZERO, 12); (MACDStatus.GOLDEN_CROSS, 10);
    (MACDStatus.CROSSING_UP, 8); (MACDStatus.BULLISH, 6); (MACDStatus.BEARISH, 1);
    (MACDStatus.CROSSING_DOWN, 0); (MACDStatus.DEATH_CROSS, 0) ].

Definition rsi_scores : list (RSIStatus.t * Z) :=
  [ (RSIStatus.OVERSOLD, 7); (RSIStatus.STRONG_BUY, 6); (RSIStatus.NEUTRAL, 4);
    (RSIStatus.WEAK, 2); (RSIStatus.OVERBOUGHT, 0) ].

Definition kdj_scores : list (KDJStatus.t * Z) :=
  [ (KDJStatus.GOLDEN_CROSS, 8); (KDJStatus.OVERSOLD, 7); (KDJStatus.BULLISH, 5);
    (KDJStatus.NEUTRAL, 3); (KDJStatus.BEARISH, 1); (KDJStatus.DEATH_CROSS, 0);
    (KDJStatus.OVERBOUGHT, 0) ].

Definition boll_scores : list (BOLLStatus.t * Z) :=
  [ (BOLLStatus.LOWER_BREAK, 7); (BOLLStatus.LOWER_NEAR, 6); (BOLLStatus.MID_SUPPORT, 5);
    (BOLLStatus.NORMAL, 4); (BOLLStatus.UPPER_NEAR, 2); (BOLLStatus.MID_RESISTANCE, 1);
    (BOLLStatus.UPPER_BREAK, 1) ].

(** The fallbacks of the [.get] lookups. *)
Definition trend_fallback : Z := 12.
Definition volume_fallback : Z := 8.
Definition macd_fallback : Z := 5.
Definition rsi_fallback : Z := 4.
Definition kdj_fallback : Z := 3.
Definition boll_fallback : Z := 4.

(** [round(raw * w[i] / d[i]) if d[i] else 0].  The division is
    [int_truediv], the exact quotient: Python's OverflowError for a quotient
    beyond the float range is outside this model (see
    [weights_in_float_range]). *)
Definition scaled (raw : Z) (w d : list Z) (i : Z) : M Z :=
  di <- getitem d i 0 ;;
  if di =? 0 then Ok 0
  else
    wi <- getitem w i 0 ;;
    di' <- getitem d i 0 ;;
    q <- int_truediv (raw * wi) di' ;;
    py_round_f (Fin q).

(** The bias section: the raw score and the line appended to the reasons
    ([inl]) or to the risks ([inr]). *)
Definition bias_section (bias : fval) : Z * (text + text) :=
  if flt bias (fz 0) then
    if fgt bias (fz (-3)) then
      (18, inl [Str "✅ 价格略低于MA5("; Num ".1f" bias; Str "%)，回踩买点"])
    else if fgt bias (fz (-5)) then
      (14, inl [Str "✅ 价格回踩MA5("; Num ".1f" bias; Str "%)，观察支撑"])
    else
      (8, inr [Str "⚠️ 乖离率过大("; Num ".1f" bias; Str "%)，可能破位"])
  else if flt bias (fz 2) then
    (16, inl [Str "✅ 价格贴近MA5("; Num ".1f" bias; Str "%)，介入好时机"])
  else if flt bias BIAS_THRESHOLD then
    (12, inl [Str "⚡ 价格略高于MA5("; Num ".1f" bias; Str "%)，可小仓介入"])
  else
    (3, inr [Str "❌ 乖离率过高("; Num ".1f" bias; Str "%>5%)，严禁追高！"]).

(** The final [if]/[elif] chain of [_generate_signal]. *)
Definition decide_buy_signal (score : Z) (trend : TrendStatus.t) : BuySignal.t :=
  if (75 <=? score) && member trend [TrendStatus.STRONG_BULL; TrendStatus.BULL] then
    BuySignal.STRONG_BUY
  else if (60 <=? score)
          && member trend [TrendStatus.STRONG_BULL; TrendStatus.BULL; TrendStatus.WEAK_BULL] then
    BuySignal.BUY
  else if 45 <=? score then BuySignal.HOLD
  else if 30 <=? score then BuySignal.WAIT
  else if member trend [TrendStatus.BEAR; TrendStatus.STRONG_BEAR] then
    BuySignal.STRONG_SELL
  else BuySignal.SELL.

(** The eight scaled sub-scores, in the order of the weights. *)
Record SubScores : Type := mkSubScores {
  trend_score : Z;
  bias_score : Z;
  vol_score : Z;
  support_score : Z;
  macd_score : Z;
  rsi_score : Z;
  kdj_score : Z;
  boll_score : Z
}.

Definition total (s : SubScores) : Z :=
  trend_score s + bias_score s + vol_score s + support_score s
  + macd_score s + rsi_score s + kdj_score s + boll_score s.

Definition trend_raw (result : TrendAnalysisResult) : Z :=
  dict_get trend_scores (trend_status (r_trend result)) trend_fallback.
Definition bias_raw (result : TrendAnalysisResult) : Z :=
  fst (bias_section (bias_ma5 (r_bias result))).
Definition vol_raw (result : TrendAnalysisResult) : Z :=
  dict_get volume_scores (volume_status (r_volume result)) volume_fallback.
Definition support_raw (result : TrendAnalysisResult) : Z :=
  (if support_ma5 (r_support result) then 4 else 0)
  + (if support_ma10 (r_support result) then 4 else 0).
Definition macd_raw (result : TrendAnalysisResult) : Z :=
  dict_get macd_scores (macd_status (r_macd result)) macd_fallback.
Definition rsi_raw (result : TrendAnalysisResult) : Z :=
  dict_get rsi_scores (rsi_status (r_rsi result)) rsi_fallback.
Definition kdj_raw (result : TrendAnalysisResult) : Z :=
  dict_get kdj_scores (kdj_status (r_kdj result)) kdj_fallback.
Definition boll_raw (result : TrendAnalysisResult) : Z :=
  dict_get boll_scores (boll_status (r_boll result)) boll_fallback.

(** The numeric part of [_generate_signal]: the sub-scores in the order the
    source computes them.  (The source interleaves it with the textual part
    below; neither reads what the other writes.) *)
Definition sub_scores (self : StockTrendAnalyzer) (result : TrendAnalysisResult)
  : M SubScores :=
  let w := _weights self in
  let d := DEFAULT_WEIGHTS in
  s0 <- scaled (trend_raw result) w d 0 ;;
  s1 <- scaled (bias_raw result) w d 1 ;;
  s2 <- scaled (vol_raw result) w d 2 ;;
  s3 <- scaled (support_raw result) w d 3 ;;
  s4 <- scaled (macd_raw result) w d 4 ;;
  s5 <- scaled (rsi_raw result) w d 5 ;;
  s6 <- scaled (kdj_raw result) w d 6 ;;
  s7 <- scaled (boll_raw result) w d 7 ;;
  Ok (mkSubScores s0 s1 s2 s3 s4 s5 s6 s7).

(** The textual part of [_generate_signal]: the lists [reasons] and [risks],
    appended to in the order of the source. *)
Definition reasons_and_risks (result : TrendAnalysisResult) : list text * list text :=
  let reasons : list text := [] in
  let risks : list text := [] in
  let ts := trend_status (r_trend result) in
  let '(reasons, risks) :=
    if member ts [TrendStatus.STRONG_BULL; TrendStatus.BULL] then
      (reasons ++ [[Str "✅ "; Str (TrendStatus.value ts); Str "，顺势做多"]], risks)
    else if member ts [TrendStatus.BEAR; TrendStatus.STRONG_BEAR] then
      (reasons, risks ++ [[Str "⚠️ "; Str (TrendStatus.value ts); Str "，不宜做多"]])
    else (reasons, risks) in
  let '(reasons, risks) :=
    match snd (bias_section (bias_ma5 (r_bias result))) with
    | inl t => (reasons ++ [t], risks)
    | inr t => (reasons, risks ++ [t])
    end in
  let vs := volume_status (r_volume result) in
  let '(reasons, risks) :=
    if eqb vs VolumeStatus.SHRINK_VOLUME_DOWN then
      (reasons ++ [lit "✅ 缩量回调，主力洗盘"], risks)
    else if eqb vs VolumeStatus.HEAVY_VOLUME_DOWN then
      (reasons, risks ++ [lit "⚠️ 放量下跌，注意风险"])
    else (reasons, risks) in
  let reasons :=
    if support_ma5 (r_support result) then reasons ++ [lit "✅ MA5支撑有效"] else reasons in
  let reasons :=
    if support_ma10 (r_support result) then reasons ++ [lit "✅ MA10支撑有效"] else reasons in
  let ms := macd_status (r_macd result) in
  let '(reasons, risks) :=
    if member ms [MACDStatus.GOLDEN_CROSS_ZERO; MACDStatus.GOLDEN_CROSS] then
      (reasons ++ [Str "✅ " :: macd_signal (r_macd result)], risks)
    else if member ms [MACDStatus.DEATH_CROSS; MACDStatus.CROSSING_DOWN] then
      (reasons, risks ++ [Str "⚠️ " :: macd_signal (r_macd result)])
    else (reasons ++ [macd_signal (r_macd result)], risks) in
  let rs := rsi_status (r_rsi result) in
  let '(reasons, risks) :=
    if member rs [RSIStatus.OVERSOLD; RSIStatus.STRONG_BUY] then
      (reasons ++ [Str "✅ " :: rsi_signal (r_rsi result)], risks)
    else if eqb rs RSIStatus.OVERBOUGHT then
      (reasons, risks ++ [Str "⚠️ " :: rsi_signal (r_rsi result)])
    else (reasons ++ [rsi_signal (r_rsi result)], risks) in
  let ks := kdj_status (r_kdj result) in
  let '(reasons, risks) :=
    if member ks [KDJStatus.GOLDEN_CROSS; KDJStatus.OVERSOLD] then
      (reasons ++ [Str "✅ " :: kdj_signal (r_kdj result)], risks)
    else if member ks [KDJStatus.DEATH_CROSS; KDJStatus.OVERBOUGHT] then
      (reasons, risks ++ [Str "⚠️ " :: kdj_signal (r_kdj result)])
    else (reasons, risks) in
  let bs := boll_status (r_boll result) in
  let reasons :=
    if member bs [BOLLStatus.LOWER_BREAK; BOLLStatus.LOWER_NEAR; BOLLStatus.MID_SUPPORT] then
      reasons ++ [Str "✅ " :: boll_signal (r_boll result)]
    else reasons in
  (reasons, risks).

(** [StockTrendAnalyzer._generate_signal(result)] *)
Definition _generate_signal (self : StockTrendAnalyzer) (result : TrendAnalysisResult)
  : M TrendAnalysisResult :=
  s <- sub_scores self result ;;
  let '(reasons, risks) := reasons_and_risks result in
  let score := total s in
  Ok (with_signal
        (mkSignalInfo (decide_buy_signal score (trend_status (r_trend result)))
                      score reasons risks)
        result).

(* ================================================================== *)
(** ** Series and frames *)

(** One row of the caller's frame. *)
Record Bar : Type := mkBar {
  date : Z;
  open : Q;
  high : Q;
  low : Q;
  close : Q;
  volume : Q
}.

(** The frame once the calculators have added their columns.  Every column
    has one cell per row. *)
Record DataFrame : Type := mkDataFrame {
  rows : list Bar;
  MA5 : list fval;
  MA10 : list fval;
  MA20 : list fval;
  MA60 : list fval;
  MACD_DIF : list fval;
  MACD_DEA : list fval;
  MACD_BAR : list fval;
  RSI_6 : list fval;
  RSI_12 : list fval;
  RSI_24 : list fval;
  KDJ_K : list fval;
  KDJ_D : list fval;
  KDJ_J : list fval;
  BOLL_MID : list fval;
  BOLL_UPPER : list fval;
  BOLL_LOWER : list fval;
  OBV : list fval
}.

(** [len(df)] *)
Definition len (df : DataFrame) : nat := List.length (rows df).

(** The input columns as Series of floats. *)
Definition col (f : Bar -> Q) (bars : list Bar) : list fval :=
  map (fun b => Fin (f b)) bars.

(** [df.iloc[i]]: the position of the row, or [IndexError]. *)
Definition iloc (df : DataFrame) (i : Z) : M nat := py_index (len df) i.

(** [row['NAME']] for the row at position [p]. *)
Definition cell (c : list fval) (p : nat) : fval := nth p c NaN.

(** [df.sort_values('date').reset_index(drop=True)]: the rows in ascending
    order of [date] (rows of equal date keep their order). *)
Fixpoint insert_by_date (b : Bar) (l : list Bar) : list Bar :=
  match l with
  | [] => [b]
  | x :: l' => if date b <? date x then b :: l else x :: insert_by_date b l'
  end.

Definition sort_values_date (l : list Bar) : list Bar :=
  fold_left (fun acc b => insert_by_date b acc) l [].

(* ------------------------------------------------------------------ *)
(** *** pandas and numpy operations on Series *)

Definition fsum (l : list fval) : fval := fold_left fadd l (fz 0).

(** [Series.mean()] of a window without missing values. *)
Definition fmean (l : list fval) : fval :=
  match l with
  | [] => NaN
  | _ => fdiv (fsum l) (fz (Z.of_nat (List.length l)))
  end.

Definition fmin2 (a b : fval) : fval :=
  if isnan a || isnan b then NaN else if flt b a then b else a.
Definition fmax2 (a b : fval) : fval :=
  if isnan a || isnan b then NaN else if flt a b then b else a.

Definition fminimum (l : list fval) : fval :=
  match l with [] => NaN | x :: l' => fold_left fmin2 l' x end.
Definition fmaximum (l : list fval) : fval :=
  match l with [] => NaN | x :: l' => fold_left fmax2 l' x end.

Section Sqrt.

(** numpy's square root on non-negative finite numbers. *)
Variable sqrt : Q -> Q.

Definition fsqrt (x : fval) : fval :=
  match x with
  | Fin q => if Qltb q 0 then NaN else Fin (sqrt q)
  | PInf => PInf
  | NInf | NaN => NaN
  end.

(** The sample standard deviation (ddof = 1) of a window. *)
Definition fstd (l : list fval) : fval :=
  let m := fmean l in
  let n := List.length l in
  fsqrt (fdiv (fsum (map (fun x => fmul (fsub x m) (fsub x m)) l))
              (fz (Z.of_nat n - 1))).

End Sqrt.

(** The [n] cells that end at position [i]. *)
Definition window (n : nat) (l : list fval) (i : nat) : list fval :=
  firstn n (skipn (i + 1 - n) l).

(** [s.rolling(window=n).AGG()]: NaN until [n] cells are there. *)
Definition rolling (n : nat) (agg : list fval -> fval) (l : list fval) : list fval :=
  map (fun i => if (n <=? i + 1)%nat then agg (window n l i) else NaN)
      (seq 0 (List.length l)).

(** [s.diff()] *)
Fixpoint diff_from (prev : fval) (l : list fval) : list fval :=
  match l with
  | [] => []
  | x :: l' => fsub x prev :: diff_from x l'
  end.

Definition diff (l : list fval) : list fval :=
  match l with
  | [] => []
  | x :: l' => NaN :: diff_from x l'
  end.

(** [s.where(cond, other)] with the condition computed cell by cell. *)
Definition where_ (cond : fval -> bool) (other : fval) (l : list fval) : list fval :=
  map (fun x => if cond x then x else other) l.

Definition fillna (v : fval) (l : list fval) : list fval :=
  map (fun x => if isnan x then v else x) l.

(** [s.replace(0, np.nan)] *)
Definition replace_zero_nan (l : list fval) : list fval :=
  map (fun x => if feq x (fz 0) then NaN else x) l.

Definition map2 (f : fval -> fval -> fval) (a b : list fval) : list fval :=
  map (fun p => f (fst p) (snd p)) (combine a b).

(** [s.ewm(alpha=a, adjust=False).mean()] on a Series without missing
    values: the first cell seeds the recursion. *)
Fixpoint ewm_from (a : fval) (prev : fval) (l : list fval) : list fval :=
  match l with
  | [] => []
  | x :: l' =>
      let y := fadd (fmul (fsub (fz 1) a) prev) (fmul a x) in
      y :: ewm_from a y l'
  end.

Definition ewm_mean (a : fval) (l : list fval) : list fval :=
  match l with
  | [] => []
  | x :: l' => x :: ewm_from a x l'
  end.

(** [span=s] is [alpha = 2 / (s + 1)]. *)
Definition span_alpha (s : nat) : fval := Fin (2 / inject_Z (Z.of_nat s + 1)).

(** [np.sign] *)
Definition fsign (x : fval) : fval :=
  match x with
  | Fin q => if Qltb 0 q then fz 1 else if Qltb q 0 then fz (-1) else fz 0
  | PInf => fz 1
  | NInf => fz (-1)
  | NaN => NaN
  end.

(** [s.cumsum()] on a Series without missing values. *)
Fixpoint cumsum_from (acc : fval) (l : list fval) : list fval :=
  match l with
  | [] => []
  | x :: l' => let s := fadd acc x in s :: cumsum_from s l'
  end.

Definition cumsum (l : list fval) : list fval :=
  match l with
  | [] => []
  | x :: l' => x :: cumsum_from x l'
  end.

(** [s.iloc[a:b]] for negative [a] and [b] given as distances from the end. *)
Definition tail_slice (from_end to_end : nat) (l : list fval) : list fval :=
  let n := List.length l in
  firstn ((n - to_end) - (n - from_end)) (skipn (n - from_end) l).

(* ------------------------------------------------------------------ *)
(** *** The calculators *)

(** [_calculate_mas]: the columns MA5, MA10, MA20, MA60. *)
Definition _calculate_mas (bars : list Bar)
  : list fval * list fval * list fval * list fval :=
  let c := col close bars in
  let m5 := rolling 5 fmean c in
  let m10 := rolling 10 fmean c in
  let m20 := rolling 20 fmean c in
  let m60 := if (60 <=? List.length bars)%nat then rolling 60 fmean c else m20 in
  (m5, m10, m20, m60).

(** [_calculate_macd]: the columns MACD_DIF, MACD_DEA, MACD_BAR. *)
Definition _calculate_macd (bars : list Bar) : list fval * list fval * list fval :=
  let c := col close bars in
  let ema_fast := ewm_mean (span_alpha MACD_FAST) c in
  let ema_slow := ewm_mean (span_alpha MACD_SLOW) c in
  let dif := map2 fsub ema_fast ema_slow in
  let dea := ewm_mean (span_alpha MACD_SIGNAL) dif in
  let bar := map (fun x => fmul x (fz 2)) (map2 fsub dif dea) in
  (dif, dea, bar).

(** The intermediate Series of [_calculate_rsi] for one period. *)
Definition rsi_gain (bars : list Bar) : list fval :=
  where_ (fun x => fgt x (fz 0)) (fz 0) (diff (col close bars)).
Definition rsi_loss (bars : list Bar) : list fval :=
  map fneg (where_ (fun x => flt x (fz 0)) (fz 0) (diff (col close bars))).
Definition rsi_avg_gain (period : nat) (bars : list Bar) : list fval :=
  rolling period fmean (rsi_gain bars).
Definition rsi_avg_loss (period : nat) (bars : list Bar) : list fval :=
  rolling period fmean (rsi_loss bars).

(** The body of the loop of [_calculate_rsi]: the column RSI_[period]. *)
Definition rsi_column (period : nat) (bars : list Bar) : list fval :=
  let avg_gain := rsi_avg_gain period bars in
  let avg_loss := rsi_avg_loss period bars in
  let rs := map2 fdiv avg_gain avg_loss in
  let rsi := map (fun x => fsub (fz 100) (fdiv (fz 100) (fadd (fz 1) x))) rs in
  fillna (fz 50) rsi.

(** [_calculate_rsi]: the columns RSI_6, RSI_12, RSI_24. *)
Definition _calculate_rsi (bars : list Bar) : list fval * list fval * list fval :=
  (rsi_column RSI_SHORT bars, rsi_column RSI_MID bars, rsi_column RSI_LONG bars).

(** [_calculate_kdj]: the columns KDJ_K, KDJ_D, KDJ_J. *)
Definition _calculate_kdj (bars : list Bar) : list fval * list fval * list fval :=
  let n := KDJ_N in
  let low_n := rolling n fminimum (col low bars) in
  let high_n := rolling n fmaximum (col high bars) in
  let rsv :=
    map (fun x => fmul x (fz 100))
        (map2 fdiv (map2 fsub (col close bars) low_n)
                   (replace_zero_nan (map2 fsub high_n low_n))) in
  let rsv := fillna (fz 50) rsv in
  let k := ewm_mean (Fin (1 / inject_Z (Z.of_nat KDJ_M1))) rsv in
  let d := ewm_mean (Fin (1 / inject_Z (Z.of_nat KDJ_M2))) k in
  let j := map2 fsub (map (fmul (fz 3)) k) (map (fmul (fz 2)) d) in
  (k, d, j).

(** [_calculate_boll]: the columns BOLL_MID, BOLL_UPPER, BOLL_LOWER. *)
Definition _calculate_boll (sqrt : Q -> Q) (bars : list Bar)
  : list fval * list fval * list fval :=
  let period := BOLL_PERIOD in
  let std_mult := Fin BOLL_STD in
  let mid := rolling period fmean (col close bars) in
  let std := fillna (fz 0) (rolling period (fstd sqrt) (col close bars)) in
  let upper := map2 fadd mid (map (fmul std_mult) std) in
  let lower := map2 fsub mid (map (fmul std_mult) std) in
  (mid, upper, lower).

(** [_calculate_obv]: the column OBV (the frame always has a volume
    column). *)
Definition _calculate_obv (bars : list Bar) : list fval :=
  let delta := diff (col close bars) in
  let direction := map fsign delta in
  let direction := match direction with [] => [] | _ :: t => fz 0 :: t end in
  cumsum (map2 fmul direction (col volume bars)).

(** The calculators applied one after the other, as [analyze] does. *)
Definition calculate (sqrt : Q -> Q) (bars : list Bar) : DataFrame :=
  let '(m5, m10, m20, m60) := _calculate_mas bars in
  let '(dif, dea, bar) := _calculate_macd bars in
  let '(r6, r12, r24) := _calculate_rsi bars in
  let '(k, d, j) := _calculate_kdj bars in
  let '(mid, upper, lower) := _calculate_boll sqrt bars in
  let o := _calculate_obv bars in
  mkDataFrame bars m5 m10 m20 m60 dif dea bar r6 r12 r24 k d j mid upper lower o.

(* ================================================================== *)
(** ** The analyzer: classifiers *)

(** [x / y * 100] on Python floats. *)
Definition py_pct (x y : fval) : M fval :=
  q <- py_truediv x y ;; Ok (fmul q (fz 100)).

(** [_analyze_trend] *)
Definition _analyze_trend (df : DataFrame) (result : TrendAnalysisResult)
  : M TrendAnalysisResult :=
  let ma5 := ma5 (r_ma result) in
  let ma10 := ma10 (r_ma result) in
  let ma20 := ma20 (r_ma result) in
  if fgt ma5 ma10 && fgt ma10 ma20 then
    prev <- (if (5 <=? len df)%nat then iloc df (-5) else iloc df (-1)) ;;
    let prev_spread :=
      if fgt (cell (MA20 df) prev) (fz 0)
      then fmul (fdiv (fsub (cell (MA5 df) prev) (cell (MA20 df) prev))
                      (cell (MA20 df) prev)) (fz 100)
      else fz 0 in
    curr_spread <- (if fgt ma20 (fz 0) then py_pct (fsub ma5 ma20) ma20 else Ok (fz 0)) ;;
    if fgt curr_spread prev_spread && fgt curr_spread (fz 5) then
      Ok (with_trend (mkTrendInfo TrendStatus.STRONG_BULL
                        (lit "强势多头排列，均线发散上行") (fz 90)) result)
    else
      Ok (with_trend (mkTrendInfo TrendStatus.BULL
                        (lit "多头排列 MA5>MA10>MA20") (fz 75)) result)
  else if fgt ma5 ma10 && fle ma10 ma20 then
    Ok (with_trend (mkTrendInfo TrendStatus.WEAK_BULL
                      (lit "弱势多头，MA5>MA10 但 MA10≤MA20") (fz 55)) result)
  else if flt ma5 ma10 && flt ma10 ma20 then
    prev <- (if (5 <=? len df)%nat then iloc df (-5) else iloc df (-1)) ;;
    let prev_spread :=
      if fgt (cell (MA5 df) prev) (fz 0)
      then fmul (fdiv (fsub (cell (MA20 df) prev) (cell (MA5 df) prev))
                      (cell (MA5 df) prev)) (fz 100)
      else fz 0 in
    curr_spread <- (if fgt ma5 (fz 0) then py_pct (fsub ma20 ma5) ma5 else Ok (fz 0)) ;;
    if fgt curr_spread prev_spread && fgt curr_spread (fz 5) then
      Ok (with_trend (mkTrendInfo TrendStatus.STRONG_BEAR
                        (lit "强势空头排列，均线发散下行") (fz 10)) result)
    else
      Ok (with_trend (mkTrendInfo TrendStatus.BEAR
                        (lit "空头排列 MA5<MA10<MA20") (fz 25)) result)
  else if flt ma5 ma10 && fge ma10 ma20 then
    Ok (with_trend (mkTrendInfo TrendStatus.WEAK_BEAR
                      (lit "弱势空头，MA5<MA10 但 MA10≥MA20") (fz 40)) result)
  else
    Ok (with_trend (mkTrendInfo TrendStatus.CONSOLIDATION
                      (lit "均线缠绕，趋势不明") (fz 50)) result).

(** [_calculate_bias] *)
Definition _calculate_bias (result : TrendAnalysisResult) : M TrendAnalysisResult :=
  let price := current_price (r_ma result) in
  let m := r_ma result in
  b5 <- (if fgt (ma5 m) (fz 0) then py_pct (fsub price (ma5 m)) (ma5 m)
         else Ok (bias_ma5 (r_bias result))) ;;
  b10 <- (if fgt (ma10 m) (fz 0) then py_pct (fsub price (ma10 m)) (ma10 m)
          else Ok (bias_ma10 (r_bias result))) ;;
  b20 <- (if fgt (ma20 m) (fz 0) then py_pct (fsub price (ma20 m)) (ma20 m)
          else Ok (bias_ma20 (r_bias result))) ;;
  Ok (with_bias (mkBiasInfo b5 b10 b20) result).

(** [_analyze_volume] *)
Definition _analyze_volume (df : DataFrame) (result : TrendAnalysisResult)
  : M TrendAnalysisResult :=
  if (len df <? 5)%nat then Ok result
  else
    latest <- iloc df (-1) ;;
    let vol := col volume (rows df) in
    let cl := col close (rows df) in
    let vol_5d_avg := fmean (tail_slice 6 1 vol) in
    let volume_ratio_5d :=
      if fgt vol_5d_avg (fz 0) then fdiv (cell vol latest) vol_5d_avg
      else volume_ratio_5d (r_volume result) in
    prev <- iloc df (-2) ;;
    let prev_close := cell cl prev in
    let price_change := fmul (fdiv (fsub (cell cl latest) prev_close) prev_close) (fz 100) in
    if fge volume_ratio_5d VOLUME_HEAVY_RATIO then
      if fgt price_change (fz 0) then
        Ok (with_volume (mkVolumeInfo VolumeStatus.HEAVY_VOLUME_UP volume_ratio_5d
                           (lit "放量上涨，多头力量强劲")) result)
      else
        Ok (with_volume (mkVolumeInfo VolumeStatus.HEAVY_VOLUME_DOWN volume_ratio_5d
                           (lit "放量下跌，注意风险")) result)
    else if fle volume_ratio_5d VOLUME_SHRINK_RATIO then
      if fgt price_change (fz 0) then
        Ok (with_volume (mkVolumeInfo VolumeStatus.SHRINK_VOLUME_UP volume_ratio_5d
                           (lit "缩量上涨，上攻动能不足")) result)
      else
        Ok (with_volume (mkVolumeInfo VolumeStatus.SHRINK_VOLUME_DOWN volume_ratio_5d
                           (lit "缩量回调，洗盘特征明显（好）")) result)
    else
      Ok (with_volume (mkVolumeInfo VolumeStatus.NORMAL volume_ratio_5d
                         (lit "量能正常")) result).

(** [x in levels] on a list of floats. *)
Definition fmember (x : fval) (levels : list fval) : bool := existsb (feq x) levels.

(** [_analyze_support_resistance] *)
Definition _analyze_support_resistance (df : DataFrame) (result : TrendAnalysisResult)
  : M TrendAnalysisResult :=
  let price := current_price (r_ma result) in
  let m := r_ma result in
  let s := r_support result in
  s <- (if fgt (ma5 m) (fz 0) then
          ma5_distance <- py_truediv (fabs (fsub price (ma5 m))) (ma5 m) ;;
          if fle ma5_distance MA_SUPPORT_TOLERANCE && fge price (ma5 m) then
            Ok (mkSupportInfo true (support_ma10 s) (resistance_levels s)
                  (support_levels s ++ [ma5 m]))
          else Ok s
        else Ok s) ;;
  s <- (if fgt (ma10 m) (fz 0) then
          ma10_distance <- py_truediv (fabs (fsub price (ma10 m))) (ma10 m) ;;
          if fle ma10_distance MA_SUPPORT_TOLERANCE && fge price (ma10 m) then
            Ok (mkSupportInfo (support_ma5 s) true (resistance_levels s)
                  (if negb (fmember (ma10 m) (support_levels s))
                   then support_levels s ++ [ma10 m]
                   else support_levels s))
          else Ok s
        else Ok s) ;;
  let s :=
    if fgt (ma20 m) (fz 0) && fge price (ma20 m) then
      mkSupportInfo (support_ma5 s) (support_ma10 s) (resistance_levels s)
        (support_levels s ++ [ma20 m])
    else s in
  let s :=
    if (20 <=? len df)%nat then
      let recent_high := fmaximum (tail_slice 20 0 (col high (rows df))) in
      if fgt recent_high price then
        mkSupportInfo (support_ma5 s) (support_ma10 s) (resistance_levels s ++ [recent_high])
          (support_levels s)
      else s
    else s in
  Ok (with_support s result).

(** [_analyze_macd] *)
Definition _analyze_macd (df : DataFrame) (result : TrendAnalysisResult)
  : M TrendAnalysisResult :=
  if (len df <? MACD_SLOW)%nat then
    let m := r_macd result in
    Ok (with_macd (mkMACDInfo (macd_dif m) (macd_dea m) (macd_bar m) (macd_status m)
                     (lit "数据不足")) result)
  else
    latest <- iloc df (-1) ;;
    prev <- iloc df (-2) ;;
    let macd_dif := cell (MACD_DIF df) latest in
    let macd_dea := cell (MACD_DEA df) latest in
    let macd_bar := cell (MACD_BAR df) latest in
    let prev_dif_dea := fsub (cell (MACD_DIF df) prev) (cell (MACD_DEA df) prev) in
    let curr_dif_dea := fsub macd_dif macd_dea in
    let is_golden_cross := fle prev_dif_dea (fz 0) && fgt curr_dif_dea (fz 0) in
    let is_death_cross := fge prev_dif_dea (fz 0) && flt curr_dif_dea (fz 0) in
    let prev_zero := cell (MACD_DIF df) prev in
    let curr_zero := macd_dif in
    let is_crossing_up := fle prev_zero (fz 0) && fgt curr_zero (fz 0) in
    let is_crossing_down := fge prev_zero (fz 0) && flt curr_zero (fz 0) in
    let set st sig := Ok (with_macd (mkMACDInfo macd_dif macd_dea macd_bar st sig) result) in
    if is_golden_cross && fgt curr_zero (fz 0) then
      set MACDStatus.GOLDEN_CROSS_ZERO (lit "⭐ 零轴上金叉，强烈买入信号！")
    else if is_crossing_up then
      set MACDStatus.CROSSING_UP (lit "⚡ DIF上穿零轴，趋势转强")
    else if is_golden_cross then
      set MACDStatus.GOLDEN_CROSS (lit "✅ 金叉，趋势向上")
    else if is_death_cross then
      set MACDStatus.DEATH_CROSS (lit "❌ 死叉，趋势向下")
    else if is_crossing_down then
      set MACDStatus.CROSSING_DOWN (lit "⚠️ DIF下穿零轴，趋势转弱")
    else if fgt macd_dif (fz 0) && fgt macd_dea (fz 0) then
      set MACDStatus.BULLISH (lit "✓ 多头排列，持续上涨")
    else if flt macd_dif (fz 0) && flt macd_dea (fz 0) then
      set MACDStatus.BEARISH (lit "⚠ 空头排列，持续下跌")
    else
      set MACDStatus.BULLISH (lit " MACD 中性区域").

(** [_analyze_rsi] *)
Definition _analyze_rsi (df : DataFrame) (result : TrendAnalysisResult)
  : M TrendAnalysisResult :=
  if (len df <? RSI_LONG)%nat then
    let m := r_rsi result in
    Ok (with_rsi (mkRSIInfo (rsi_6 m) (rsi_12 m) (rsi_24 m) (rsi_status m)
                    (lit "数据不足")) result)
  else
    latest <- iloc df (-1) ;;
    let rsi_6 := cell (RSI_6 df) latest in
    let rsi_12 := cell (RSI_12 df) latest in
    let rsi_24 := cell (RSI_24 df) latest in
    let rsi_mid := rsi_12 in
    let set st sig := Ok (with_rsi (mkRSIInfo rsi_6 rsi_12 rsi_24 st sig) result) in
    if fgt rsi_mid RSI_OVERBOUGHT then
      set RSIStatus.OVERBOUGHT
          [Str "⚠️ RSI超买("; Num ".1f" rsi_mid; Str ">70)，短期回调风险高"]
    else if fgt rsi_mid (fz 60) then
      set RSIStatus.STRONG_BUY
          [Str "✅ RSI强势("; Num ".1f" rsi_mid; Str ")，多头力量充足"]
    else if fge rsi_mid (fz 40) then
      set RSIStatus.NEUTRAL
          [Str " RSI中性("; Num ".1f" rsi_mid; Str ")，震荡整理中"]
    else if fge rsi_mid RSI_OVERSOLD then
      set RSIStatus.WEAK
          [Str "⚡ RSI弱势("; Num ".1f" rsi_mid; Str ")，关注反弹"]
    else
      set RSIStatus.OVERSOLD
          [Str "⭐ RSI超卖("; Num ".1f" rsi_mid; Str "<30)，反弹机会大"].

(** [_analyze_kdj] (the frame always has the column KDJ_K) *)
Definition _analyze_kdj (df : DataFrame) (result : TrendAnalysisResult)
  : M TrendAnalysisResult :=
  if (len df <? KDJ_N)%nat then
    let m := r_kdj result in
    Ok (with_kdj (mkKDJInfo (kdj_k m) (kdj_d m) (kdj_j m) (kdj_status m)
                    (lit "数据不足")) result)
  else
    latest <- iloc df (-1) ;;
    prev <- iloc df (-2) ;;
    let kdj_k := cell (KDJ_K df) latest in
    let kdj_d := cell (KDJ_D df) latest in
    let kdj_j := cell (KDJ_J df) latest in
    let prev_k_d := fsub (cell (KDJ_K df) prev) (cell (KDJ_D df) prev) in
    let curr_k_d := fsub kdj_k kdj_d in
    let is_golden := fle prev_k_d (fz 0) && fgt curr_k_d (fz 0) in
    let is_death := fge prev_k_d (fz 0) && flt curr_k_d (fz 0) in
    let set st sig := Ok (with_kdj (mkKDJInfo kdj_k kdj_d kdj_j st sig) result) in
    let kdj_values :=
      [Str "(K="; Num ".1f" kdj_k; Str ",D="; Num ".1f" kdj_d; Str ",J=";
       Num ".1f" kdj_j; Str ")"] in
    if fgt kdj_j (fz 100) || (fgt kdj_k (fz 80) && fgt kdj_d (fz 80)) then
      set KDJStatus.OVERBOUGHT (Str "⚠️ KDJ超买" :: kdj_values)
    else if flt kdj_j (fz 0) || (flt kdj_k (fz 20) && flt kdj_d (fz 20)) then
      set KDJStatus.OVERSOLD (Str "⭐ KDJ超卖" :: kdj_values)
    else if is_golden && flt kdj_k (fz 30) then
      set KDJStatus.GOLDEN_CROSS (lit "✅ 低位金叉(K上穿D)，买入信号")
    else if is_golden then
      set KDJStatus.GOLDEN_CROSS (lit "✅ KDJ金叉(K上穿D)")
    else if is_death then
      set KDJStatus.DEATH_CROSS (lit "❌ KDJ死叉(K下穿D)")
    else if fgt curr_k_d (fz 0) then
      set KDJStatus.BULLISH (lit "✓ K>D，偏多")
    else if flt curr_k_d (fz 0) then
      set KDJStatus.BEARISH (lit "⚠ K<D，偏空")
    else
      set KDJStatus.NEUTRAL
          [Str " KDJ中性(K="; Num ".1f" kdj_k; Str ",D="; Num ".1f" kdj_d; Str ")"].

(** The Bollinger state of a price against the three bands: the
    [if]/[elif] chain of [_analyze_boll]. *)
Definition boll_state (price upper mid lower : fval) : BOLLStatus.t * text :=
  let tol := Fin (2 # 100) in
  if fge price (fmul upper (fsub (fz 1) tol)) then
    (BOLLStatus.UPPER_BREAK, lit "⚡ 突破上轨，强势(警惕回调)")
  else if fle price (fmul lower (fadd (fz 1) tol)) then
    (BOLLStatus.LOWER_BREAK, lit "⭐ 跌破下轨，超卖(关注反弹)")
  else if fge price (fmul upper (fsub (fz 1) (fmul tol (fz 2)))) then
    (BOLLStatus.UPPER_NEAR, lit " 接近上轨，偏强")
  else if fle price (fmul lower (fadd (fz 1) (fmul tol (fz 2)))) then
    (BOLLStatus.LOWER_NEAR, lit " 接近下轨，潜在买点")
  else if fge price mid && flt price upper then
    (BOLLStatus.MID_SUPPORT, lit "✓ 中轨上方，获支撑")
  else if flt price mid && fgt price lower then
    (BOLLStatus.MID_RESISTANCE, lit "⚠ 中轨下方，受压制")
  else
    (BOLLStatus.NORMAL, lit " 通道内正常").

(** [_analyze_boll], with the OBV summary at its end (the frame always has
    the columns BOLL_MID and OBV). *)
Definition _analyze_boll (df : DataFrame) (result : TrendAnalysisResult)
  : M TrendAnalysisResult :=
  if (len df <? BOLL_PERIOD)%nat then
    let m := r_boll result in
    Ok (with_boll (mkBOLLInfo (boll_upper m) (boll_mid m) (boll_lower m) (boll_position m)
                     (boll_status m) (lit "数据不足")) result)
  else
    latest <- iloc df (-1) ;;
    let price := current_price (r_ma result) in
    let boll_upper := cell (BOLL_UPPER df) latest in
    let boll_mid := cell (BOLL_MID df) latest in
    let boll_lower := cell (BOLL_LOWER df) latest in
    let band_width := fsub boll_upper boll_lower in
    boll_position <-
      (if fgt band_width (fz 0) then
         half <- py_truediv band_width (fz 2) ;;
         p <- py_truediv (fsub price boll_mid) half ;;
         Ok (py_max (fz (-1)) (py_min (fz 1) p))
       else Ok (boll_position (r_boll result))) ;;
    let '(st, sig) := boll_state price boll_upper boll_mid boll_lower in
    let result :=
      with_boll (mkBOLLInfo boll_upper boll_mid boll_lower boll_position st sig) result in
    if (5 <=? len df)%nat then
      let obv_curr := cell (OBV df) latest in
      p6 <- iloc df (-6) ;;
      let obv_5d := cell (OBV df) p6 in
      if fne obv_5d (fz 0) then
        obv_chg <- py_pct (fsub obv_curr obv_5d) (fabs obv_5d) ;;
        let obv_trend :=
          if fgt (fabs obv_chg) (fz 1)
          then [Str "OBV 5日变化 "; Num "+.1f" obv_chg; Str "%"]
          else lit "OBV 平稳" in
        Ok (with_obv (mkOBVInfo obv_curr obv_trend) result)
      else
        Ok (with_obv (mkOBVInfo obv_curr (obv_trend (r_obv result))) result)
    else Ok result.

(* ================================================================== *)
(** ** The analyzer: [analyze] *)

(** [StockTrendAnalyzer.analyze(df, code)], with [None] for a missing
    frame. *)
Definition analyze (sqrt : Q -> Q) (self : StockTrendAnalyzer)
    (df : option (list Bar)) (code : string) : M TrendAnalysisResult :=
  let result := new_result code in
  match df with
  | None =>
      Ok (with_signal
            (mkSignalInfo (buy_signal (r_signal result)) (signal_score (r_signal result))
               (signal_reasons (r_signal result))
               (risk_factors (r_signal result) ++ [lit "数据不足，无法完成分析"]))
            result)
  | Some bars =>
      if (List.length bars <? 20)%nat then
        Ok (with_signal
              (mkSignalInfo (buy_signal (r_signal result)) (signal_score (r_signal result))
                 (signal_reasons (r_signal result))
                 (risk_factors (r_signal result) ++ [lit "数据不足，无法完成分析"]))
              result)
      else
        let bars := sort_values_date bars in
        let df := calculate sqrt bars in
        latest <- iloc df (-1) ;;
        let result :=
          with_ma (mkMAInfo (cell (MA5 df) latest) (cell (MA10 df) latest)
                     (cell (MA20 df) latest) (cell (MA60 df) latest)
                     (cell (col close (rows df)) latest)) result in
        result <- _analyze_trend df result ;;
        result <- _calculate_bias result ;;
        result <- _analyze_volume df result ;;
        result <- _analyze_support_resistance df result ;;
        result <- _analyze_macd df result ;;
        result <- _analyze_rsi df result ;;
        result <- _analyze_kdj df result ;;
        result <- _analyze_boll df result ;;
        _generate_signal self result
  end.

(** [analyze_stock(df, code)] *)
Definition analyze_stock (sqrt : Q -> Q) (df : option (list Bar)) (code : string)
  : M TrendAnalysisResult :=
  analyze sqrt (__init__ None) df code.

(* ================================================================== *)
(** ** Names for the statements *)

(** The frame [analyze] works on: sorted, with the calculators' columns. *)
Definition frame_of (sqrt : Q -> Q) (bars : list Bar) : DataFrame :=
  calculate sqrt (sort_values_date bars).

(** The result after [analyze] has stored the latest price and averages. *)
Definition first_result (df : DataFrame) (code : string) : TrendAnalysisResult :=
  let latest := (len df - Z.to_nat (- -1))%nat in
  with_ma (mkMAInfo (cell (MA5 df) latest) (cell (MA10 df) latest)
             (cell (MA20 df) latest) (cell (MA60 df) latest)
             (cell (col close (rows df)) latest)) (new_result code).

(** The stages of [analyze] on a frame: each stage returns the result so far
    with its own group of fields assigned. *)
Definition stages (df : DataFrame) (self : StockTrendAnalyzer) (code : string)
    (t : TrendInfo) (b : BiasInfo) (v : VolumeInfo) (s : SupportInfo)
    (m : MACDInfo) (rs : RSIInfo) (k : KDJInfo) (bo : BOLLInfo) (o : OBVInfo)
    (sg : SignalInfo) : Prop :=
  let r0 := first_result df code in
  let r1 := with_trend t r0 in
  let r2 := with_bias b r1 in
  let r3 := with_volume v r2 in
  let r4 := with_support s r3 in
  let r5 := with_macd m r4 in
  let r6 := with_rsi rs r5 in
  let r7 := with_kdj k r6 in
  let r8 := with_obv o (with_boll bo r7) in
  _analyze_trend df r0 = Ok r1
  /\ _calculate_bias r1 = Ok r2
  /\ _analyze_volume df r2 = Ok r3
  /\ _analyze_support_resistance df r3 = Ok r4
  /\ _analyze_macd df r4 = Ok r5
  /\ _analyze_rsi df r5 = Ok r6
  /\ _analyze_kdj df r6 = Ok r7
  /\ _analyze_boll df r7 = Ok r8
  /\ _generate_signal self r8 = Ok (with_signal sg r8).

(** The result record assembled from its groups. *)
Definition assemble (df : DataFrame) (code : string)
    (t : TrendInfo) (b : BiasInfo) (v : VolumeInfo) (s : SupportInfo)
    (m : MACDInfo) (rs : RSIInfo) (k : KDJInfo) (bo : BOLLInfo) (o : OBVInfo)
    (sg : SignalInfo) : TrendAnalysisResult :=
  mkResult code t (r_ma (first_result df code)) b v s m rs k bo o sg.

(** A weight vector as the specification's data model has it: eight
    non-negative integers of sum 100. *)
Definition valid_weights (w : list Z) : Prop :=
  List.length w = 8%nat /\ Forall (fun x => 0 <= x) w /\ sum w = 100.

(** The largest finite float, [sys.float_info.max]; it is an integer. *)
Definition FLOAT_MAX : Z := 2 ^ 1024 - 2 ^ 971.

(** An analyzer whose weights are within the float range.  Every raw score
    of the aggregation lies between 0 and its default weight [d[i]], so the
    quotient [raw * w[i] / d[i]] is at most [w[i]] in magnitude: with such
    weights no division of [_generate_signal] leaves the float range, and
    the OverflowError of Python's [int / int] cannot occur. *)
Definition weights_in_float_range (self : StockTrendAnalyzer) : Prop :=
  Forall (fun x => Z.abs x <= FLOAT_MAX) (_weights self).

(** [df is None or df.empty or len(df) < 20], the test of the early return
    of [analyze]. *)
Definition returns_early (df : option (list Bar)) : bool :=
  match df with
  | None => true
  | Some bars => (List.length bars =? 0)%nat || (List.length bars <? 20)%nat
  end.

(** A computable instance of the square-root parameter, exact on the squares
    of rationals (elsewhere it rounds the root of numerator times
    denominator down). *)
Definition sqrt_floor (q : Q) : Q :=
  let r := Qred q in
  inject_Z (Z.sqrt (Qnum r * Zpos (Qden r))) / inject_Z (Zpos (Qden r)).

(** Example series: one bar a day, open = high = low = close, from a list of
    closing prices and a constant volume. *)
Definition bars_of_closes (v : Q) (closes : list Z) : list Bar :=
  map (fun p => let c := inject_Z (snd p) in mkBar (Z.of_nat (fst p)) c c c c v)
      (combine (seq 0 (List.length closes)) closes).

(** Twenty bars rising by one a day from 100 to 119. *)
Definition rising20 : list Bar :=
  bars_of_closes 1000 (map Z.of_nat (seq 100 20)).

(** The recommendation rule in the words of the specification. *)
Definition is_bull_or_strong_bull (t : TrendStatus.t) : bool :=
  match t with TrendStatus.STRONG_BULL | TrendStatus.BULL => true | _ => false end.
Definition is_any_bull_grade (t : TrendStatus.t) : bool :=
  match t with
  | TrendStatus.STRONG_BULL | TrendStatus.BULL | TrendStatus.WEAK_BULL => true
  | _ => false
  end.
Definition is_bear_or_strong_bear (t : TrendStatus.t) : bool :=
  match t with TrendStatus.BEAR | TrendStatus.STRONG_BEAR => true | _ => false end.

Definition recommendation_rule (score : Z) (trend : TrendStatus.t) : BuySignal.t :=
  if Z_ge_dec score 75 then
    if is_bull_or_strong_bull trend then BuySignal.STRONG_BUY
    else if is_any_bull_grade trend then BuySignal.BUY
    else BuySignal.HOLD
  else if Z_ge_dec score 60 then
    if is_any_bull_grade trend then BuySignal.BUY else BuySignal.HOLD
  else if Z_ge_dec score 45 then BuySignal.HOLD
  else if Z_ge_dec score 30 then BuySignal.WAIT
  else if is_bear_or_strong_bear trend then BuySignal.STRONG_SELL
  else BuySignal.SELL.

(** "Evaluated in order, first match wins": a list of conditions with their
    outcomes, and the outcome when no condition holds. *)
Fixpoint first_match {A : Type} (rules : list (bool * A)) (otherwise : A) : A :=
  match rules with
  | [] => otherwise
  | (c, a) :: rest => if c then a else first_match rest otherwise
  end.

(** The eight MACD states of the specification.  The source has seven labels:
    the neutral state carries the label [BULLISH] and its own signal text. *)
Inductive MACDState : Type :=
| GoldenCrossAboveZero | CrossingUpThroughZero | GoldenCross | DeathCross
| CrossingDownThroughZero | Bullish | Bearish | Neutral.

Definition macd_state_fields (s : MACDState) : MACDStatus.t * text :=
  match s with
  | GoldenCrossAboveZero =>
      (MACDStatus.GOLDEN_CROSS_ZERO, lit "⭐ 零轴上金叉，强烈买入信号！")
  | CrossingUpThroughZero => (MACDStatus.CROSSING_UP, lit "⚡ DIF上穿零轴，趋势转强")
  | GoldenCross => (MACDStatus.GOLDEN_CROSS, lit "✅ 金叉，趋势向上")
  | DeathCross => (MACDStatus.DEATH_CROSS, lit "❌ 死叉，趋势向下")
  | CrossingDownThroughZero => (MACDStatus.CROSSING_DOWN, lit "⚠️ DIF下穿零轴，趋势转弱")
  | Bullish => (MACDStatus.BULLISH, lit "✓ 多头排列，持续上涨")
  | Bearish => (MACDStatus.BEARISH, lit "⚠ 空头排列，持续下跌")
  | Neutral => (MACDStatus.BULLISH, lit " MACD 中性区域")
  end.

(** Crossovers between the previous bar and the latest bar. *)
Definition golden_cross (prev_dif prev_dea dif dea : fval) : bool :=
  fle (fsub prev_dif prev_dea) (fz 0) && fgt (fsub dif dea) (fz 0).
Definition death_cross (prev_dif prev_dea dif dea : fval) : bool :=
  fge (fsub prev_dif prev_dea) (fz 0) && flt (fsub dif dea) (fz 0).
Definition crossing_up (prev_dif dif : fval) : bool :=
  fle prev_dif (fz 0) && fgt dif (fz 0).
Definition crossing_down (prev_dif dif : fval) : bool :=
  fge prev_dif (fz 0) && flt dif (fz 0).

(** The MACD priority list in the words of the specification: the first
    state is the golden cross with DIF at or above zero. *)
Definition macd_state_as_stated (prev_dif prev_dea dif dea : fval) : MACDState :=
  first_match
    [ (golden_cross prev_dif prev_dea dif dea && fge dif (fz 0), GoldenCrossAboveZero);
      (crossing_up prev_dif dif, CrossingUpThroughZero);
      (golden_cross prev_dif prev_dea dif dea, GoldenCross);
      (death_cross prev_dif prev_dea dif dea, DeathCross);
      (crossing_down prev_dif dif, CrossingDownThroughZero);
      (fgt dif (fz 0) && fgt dea (fz 0), Bullish);
      (flt dif (fz 0) && flt dea (fz 0), Bearish) ]
    Neutral.

(** The same list with the first state as the source has it: the golden
    cross with DIF strictly above zero. *)
Definition macd_state_above_zero (prev_dif prev_dea dif dea : fval) : MACDState :=
  first_match
    [ (golden_cross prev_dif prev_dea dif dea && fgt dif (fz 0), GoldenCrossAboveZero);
      (crossing_up prev_dif dif, CrossingUpThroughZero);
      (golden_cross prev_dif prev_dea dif dea, GoldenCross);
      (death_cross prev_dif prev_dea dif dea, DeathCross);
      (crossing_down prev_dif dif, CrossingDownThroughZero);
      (fgt dif (fz 0) && fgt dea (fz 0), Bullish);
      (flt dif (fz 0) && flt dea (fz 0), Bearish) ]
    Neutral.

(** A frame with other MACD columns. *)
Definition set_macd_columns (dif dea : list fval) (df : DataFrame) : DataFrame :=
  mkDataFrame (rows df) (MA5 df) (MA10 df) (MA20 df) (MA60 df)
    dif dea (map (fun x => fmul x (fz 2)) (map2 fsub dif dea))
    (RSI_6 df) (RSI_12 df) (RSI_24 df) (KDJ_K df) (KDJ_D df) (KDJ_J df)
    (BOLL_MID df) (BOLL_UPPER df) (BOLL_LOWER df) (OBV df).

(** A frame of 26 rows whose last two rows have (DIF, DEA) = (-2, -1) and
    (0, -1). *)
Definition macd_boundary_frame : DataFrame :=
  set_macd_columns (repeat (fz 0) 24 ++ [fz (-2); fz 0])
                   (repeat (fz 0) 24 ++ [fz (-1); fz (-1)])
                   (frame_of sqrt_floor (bars_of_closes 1000 (repeat 1000 26))).

(** In exact arithmetic the closes 1000 (24 times), 649, 1271 end with
    DIF = 0 and DEA < 0 after DIF < DEA. *)
Definition macd_boundary_bars : list Bar :=
  bars_of_closes 1000 (repeat 1000 24 ++ [649; 1271]).

(** The percentage spread [(MA5 - MA20) / MA20 * 100] of the row at
    position [p]. *)
Definition spread_at (df : DataFrame) (p : nat) : fval :=
  fmul (fdiv (fsub (cell (MA5 df) p) (cell (MA20 df) p)) (cell (MA20 df) p)) (fz 100).

(** Nineteen closes of 100, then 140, 150, 130, 100, 100, 100. *)
Definition trend_bars : list Bar :=
  bars_of_closes 1000 (repeat 100 19 ++ [140; 150; 130; 100; 100; 100]).

(** The Bollinger priority list in the words of the specification. *)
Definition boll_state_as_stated (price upper mid lower : fval) : BOLLStatus.t :=
  let tol := Fin (2 # 100) in
  first_match
    [ (fge price (fmul upper (fsub (fz 1) tol)), BOLLStatus.UPPER_BREAK);
      (fge price (fmul upper (fsub (fz 1) (fmul tol (fz 2)))), BOLLStatus.UPPER_NEAR);
      (fle price (fmul lower (fadd (fz 1) tol)), BOLLStatus.LOWER_BREAK);
      (fle price (fmul lower (fadd (fz 1) (fmul tol (fz 2)))), BOLLStatus.LOWER_NEAR);
      (fge price mid && flt price upper, BOLLStatus.MID_SUPPORT);
      (flt price mid && fgt price lower, BOLLStatus.MID_RESISTANCE) ]
    BOLLStatus.NORMAL.

(** The list in the order of the source: both breaks before both
    approaches. *)
Definition boll_state_breaks_first (price upper mid lower : fval) : BOLLStatus.t :=
  let tol := Fin (2 # 100) in
  first_match
    [ (fge price (fmul upper (fsub (fz 1) tol)), BOLLStatus.UPPER_BREAK);
      (fle price (fmul lower (fadd (fz 1) tol)), BOLLStatus.LOWER_BREAK);
      (fge price (fmul upper (fsub (fz 1) (fmul tol (fz 2)))), BOLLStatus.UPPER_NEAR);
      (fle price (fmul lower (fadd (fz 1) (fmul tol (fz 2)))), BOLLStatus.LOWER_NEAR);
      (fge price mid && flt price upper, BOLLStatus.MID_SUPPORT);
      (flt price mid && fgt price lower, BOLLStatus.MID_RESISTANCE) ]
    BOLLStatus.NORMAL.

(** Twenty closes of mean 300 and sample standard deviation 2, the last one
    295: the bands are 304, 300 and 296. *)
Definition boll_bars : list Bar :=
  bars_of_closes 1000
    ([305; 303; 297] ++ repeat 301 4 ++ repeat 299 4 ++ repeat 300 8 ++ [295]).

(** The signal text of a skipped classifier. *)
Definition insufficient_data : text := lit "数据不足".

(** The value of the neutral members ([RSIStatus.NEUTRAL],
    [KDJStatus.NEUTRAL]). *)
Definition neutral_value : string := "中性".

(** Bars with the same open, high, low, close and volume. *)
Definition identical_bars (o h l c v : Q) (bars : list Bar) : Prop :=
  Forall (fun b => open b = o /\ high b = h /\ low b = l /\ close b = c /\ volume b = v)
         bars.

(** Twenty bars at 10 with volume [v]. *)
Definition flat20 (v : Q) : list Bar := bars_of_closes v (repeat 10 20).

(** The outcome the flat-market scenario describes for bars at price [c]. *)
Definition flat_outcome (c : Q) (r : TrendAnalysisResult) : Prop :=
  volume_status (r_volume r) = VolumeStatus.NORMAL
  /\ ma5 (r_ma r) =f= Fin c /\ ma10 (r_ma r) =f= Fin c /\ ma20 (r_ma r) =f= Fin c
  /\ bias_ma5 (r_bias r) =f= fz 0 /\ bias_ma10 (r_bias r) =f= fz 0
  /\ bias_ma20 (r_bias r) =f= fz 0
  /\ fsub (boll_upper (r_boll r)) (boll_lower (r_boll r)) =f= fz 0
  /\ boll_position (r_boll r) = fz 0.

(* ================================================================== *)
(** ** Predicates on model values *)

(** A finite, non-negative value. *)
Definition fin_nonneg (x : fval) : Prop :=
  match x with Fin q => (0 <= q)%Q | _ => False end.

(** A finite value or NaN (no infinity). *)
Definition finite_or_nan (x : fval) : Prop :=
  match x with Fin _ | NaN => True | _ => False end.

(** A finite value equal to [c] as a rational. *)
Definition is_fin (x : fval) (c : Q) : Prop :=
  exists a, x = Fin a /\ (a == c)%Q.

(* ================================================================== *)
(** ** Statements of the specification that the source does not satisfy as
    they are worded *)

(** C1 as stated: whatever the series, every weight vector of eight
    entries summing to 100 gives a composite score within [0, 100]. *)
Definition C1_as_stated : Prop :=
  forall (sqrt : Q -> Q) (w : list Z) (df : option (list Bar)) (code : string)
         (r : TrendAnalysisResult),
    List.length w = 8%nat -> sum w = 100 ->
    analyze sqrt (__init__ (Some w)) df code = Ok r ->
    0 <= signal_score (r_signal r) <= 100.

(** C2 as stated: the recommendation of every analysis result is the
    top-down rule applied to its composite score and its trend label. *)
Definition C2_as_stated : Prop :=
  forall (sqrt : Q -> Q) (score_weights : option (list Z)) (df : option (list Bar))
         (code : string) (r : TrendAnalysisResult),
    analyze sqrt (__init__ score_weights) df code = Ok r ->
    buy_signal (r_signal r)
    = recommendation_rule (signal_score (r_signal r)) (trend_status (r_trend r)).

(** C3 as stated: a vector that is not eight non-negative numbers of sum 100
    is replaced by the default weights. *)
Definition C3_as_stated : Prop :=
  forall w : list Z, ~ valid_weights w -> __init__ (Some w) = __init__ None.

(** C4 as stated: wherever the trailing average loss of a window is zero the
    RSI of that window is 50. *)
Definition C4_as_stated : Prop :=
  forall (period : nat) (bars : list Bar) (i : nat),
    In period [RSI_SHORT; RSI_MID; RSI_LONG] ->
    (i < List.length bars)%nat ->
    cell (rsi_avg_loss period bars) i =f= fz 0 ->
    cell (rsi_column period bars) i =f= fz 50.

(** C5 as stated: the state stored by [_analyze_macd] is the first match of
    the list that starts with "golden cross with DIF at or above zero". *)
Definition C5_as_stated : Prop :=
  forall (df : DataFrame) (result r : TrendAnalysisResult),
    (26 <= len df)%nat ->
    _analyze_macd df result = Ok r ->
    let latest := (len df - 1)%nat in
    let prev := (len df - 2)%nat in
    (macd_status (r_macd r), macd_signal (r_macd r))
    = macd_state_fields
        (macd_state_as_stated (cell (MACD_DIF df) prev) (cell (MACD_DEA df) prev)
           (cell (MACD_DIF df) latest) (cell (MACD_DEA df) latest)).

(** C6 as stated: with MA5 > MA10 > MA20 the label is strong bull exactly
    when the spread five rows before the latest row is below the latest
    spread and the latest spread is above 5. *)
Definition C6_as_stated : Prop :=
  forall (sqrt : Q -> Q) (self : StockTrendAnalyzer) (bars : list Bar) (code : string)
         (r : TrendAnalysisResult),
    analyze sqrt self (Some bars) code = Ok r ->
    let df := frame_of sqrt bars in
    let latest := (len df - 1)%nat in
    fgt (ma5 (r_ma r)) (ma10 (r_ma r)) && fgt (ma10 (r_ma r)) (ma20 (r_ma r)) = true ->
    trend_status (r_trend r)
    = if flt (spread_at df (latest - 5)) (spread_at df latest)
         && fgt (spread_at df latest) (fz 5)
      then TrendStatus.STRONG_BULL else TrendStatus.BULL.

(** C7 as stated: the Bollinger label of an analysis is the first match of
    the list: breaking upper, near upper, breaking lower, near lower,
    above-mid, below-mid, normal. *)
Definition C7_as_stated : Prop :=
  forall (sqrt : Q -> Q) (self : StockTrendAnalyzer) (bars : list Bar) (code : string)
         (r : TrendAnalysisResult),
    (20 <= List.length bars)%nat ->
    analyze sqrt self (Some bars) code = Ok r ->
    boll_status (r_boll r)
    = boll_state_as_stated (current_price (r_ma r)) (boll_upper (r_boll r))
        (boll_mid (r_boll r)) (boll_lower (r_boll r)).

(** C8 as stated, for MACD: on 20 to 25 bars the signal text is the
    "insufficient data" message and the label is a neutral member. *)
Definition C8_as_stated : Prop :=
  forall (sqrt : Q -> Q) (score_weights : option (list Z)) (bars : list Bar)
         (code : string) (r : TrendAnalysisResult),
    (20 <= List.length bars < 26)%nat ->
    analyze sqrt (__init__ score_weights) (Some bars) code = Ok r ->
    macd_signal (r_macd r) = insufficient_data
    /\ MACDStatus.value (macd_status (r_macd r)) = neutral_value.

(** C9 as stated: for twenty identical bars (positive price, non-negative
    volume) the analysis returns and has the flat-market outcome. *)
Definition C9_as_stated : Prop :=
  forall (sqrt : Q -> Q) (score_weights : option (list Z)) (bars : list Bar)
         (code : string) (o h l c v : Q),
    (forall x, x == 0 -> sqrt x == 0)%Q ->
    List.length bars = 20%nat ->
    identical_bars o h l c v bars ->
    (0 < c)%Q -> (0 <= v)%Q ->
    exists r, analyze sqrt (__init__ score_weights) (Some bars) code = Ok r
              /\ flat_outcome c r.

(* ================================================================== *)
(** ** Tactics *)

(** Case analysis on every condition of a chain of [if]s. *)
Ltac split_ifs :=
  repeat match goal with
         | |- context [if ?c then _ else _] => destruct c eqn:?
         end.


From Stdlib Require Import Sorting.Sorted Sorting.Permutation.

(* ================================================================== *)
(** ** Names for further statements *)

(** The trend strength the source stores with each label. *)
Definition strength_of (s : TrendStatus.t) : fval :=
  match s with
  | TrendStatus.STRONG_BULL => fz 90
  | TrendStatus.BULL => fz 75
  | TrendStatus.WEAK_BULL => fz 55
  | TrendStatus.CONSOLIDATION => fz 50
  | TrendStatus.WEAK_BEAR => fz 40
  | TrendStatus.BEAR => fz 25
  | TrendStatus.STRONG_BEAR => fz 10
  end.

(** A finite value between two integers. *)
Definition fin_between (lo hi : Z) (x : fval) : Prop :=
  match x with
  | Fin q => (inject_Z lo <= q /\ q <= inject_Z hi)%Q
  | _ => False
  end.

(** The sum and the arithmetic mean of rationals. *)
Definition Qsum (l : list Q) : Q := fold_right Qplus 0%Q l.
Definition Qmean (l : list Q) : Q := (Qsum l / inject_Z (Z.of_nat (List.length l)))%Q.

(** The last [n] elements of a list (all of it when it is shorter). *)
Definition last_n {A : Type} (n : nat) (l : list A) : list A :=
  skipn (List.length l - n) l.

(** The closing prices in ascending order of date. *)
Definition closes (bars : list Bar) : list Q := map close (sort_values_date bars).

(** Undefined, or finite and not negative. *)
Definition nan_or_nonneg (x : fval) : Prop :=
  match x with
  | NaN => True
  | Fin q => (0 <= q)%Q
  | _ => False
  end.

(** A finite value (neither an infinity nor NaN). *)
Definition finite (x : fval) : Prop :=
  match x with Fin _ => True | _ => False end.

(** The Series [rsv] of [_calculate_kdj] after [fillna(50)]. *)
Definition kdj_rsv (bars : list Bar) : list fval :=
  let low_n := rolling KDJ_N fminimum (col low bars) in
  let high_n := rolling KDJ_N fmaximum (col high bars) in
  fillna (fz 50)
    (map (fun x => fmul x (fz 100))
       (map2 fdiv (map2 fsub (col close bars) low_n)
          (replace_zero_nan (map2 fsub high_n low_n)))).

(** A bar whose close lies between its low and its high. *)
Definition close_within_range (b : Bar) : Prop :=
  (low b <= close b /\ close b <= high b)%Q.

(** The sample variance (divisor [n - 1]) of rationals. *)
Definition Qvariance (l : list Q) : Q :=
  (Qsum (map (fun x => (x - Qmean l) * (x - Qmean l)) l)
   / inject_Z (Z.of_nat (List.length l - 1)))%Q.

(** Rows in ascending order of date. *)
Definition date_le (a b : Bar) : Prop := date a <= date b.

(** A bar without range: high, low and close at [c], volume [v]. *)
Definition flat_bar (c v : Q) (b : Bar) : Prop :=
  high b = c /\ low b = c /\ close b = c /\ volume b = v.

(** Closes that rise (fall) from each bar to the next. *)
Fixpoint rising_from (prev : Q) (l : list Q) : Prop :=
  match l with
  | [] => True
  | x :: l' => (prev < x)%Q /\ rising_from x l'
  end.

Definition rising (l : list Q) : Prop :=
  match l with [] => True | x :: l' => rising_from x l' end.

Fixpoint falling_from (prev : Q) (l : list Q) : Prop :=
  match l with
  | [] => True
  | x :: l' => (x < prev)%Q /\ falling_from x l'
  end.

Definition falling (l : list Q) : Prop :=
  match l with [] => True | x :: l' => falling_from x l' end.

(** A finite positive value. *)
Definition fin_pos (x : fval) : Prop :=
  match x with Fin q => (0 < q)%Q | _ => False end.

(** Twenty-four bars rising by one a day from 100 to 123, and falling by one
    a day from 123 to 100. *)
Definition rising24 : list Bar :=
  bars_of_closes 1000 (map Z.of_nat (seq 100 24)).
Definition falling24 : list Bar :=
  bars_of_closes 1000 (rev (map Z.of_nat (seq 100 24))).

(** The label [_analyze_rsi] gives to a value of RSI(12). *)
Definition rsi_label (rsi_mid : fval) : RSIStatus.t :=
  if fgt rsi_mid RSI_OVERBOUGHT then RSIStatus.OVERBOUGHT
  else if fgt rsi_mid (fz 60) then RSIStatus.STRONG_BUY
  else if fge rsi_mid (fz 40) then RSIStatus.NEUTRAL
  else if fge rsi_mid RSI_OVERSOLD then RSIStatus.WEAK
  else RSIStatus.OVERSOLD.

(** On-balance volume as the docstring of [_calculate_obv] defines it: from
    one bar to the next the volume is added when the close rose, subtracted
    when it fell, and left out when it did not move. *)
Fixpoint obv_from (prev acc : Q) (l : list Bar) : Q :=
  match l with
  | [] => acc
  | b :: l' =>
      obv_from (close b)
        (if Qltb prev (close b) then acc + volume b
         else if Qltb (close b) prev then acc - volume b
         else acc)%Q
        l'
  end.

Definition obv_by_docstring (bars : list Bar) : Q :=
  match bars with
  | [] => 0%Q
  | b :: l => obv_from (close b) 0%Q l
  end.

(** The five values before the last one. *)
Definition five_before_last (l : list Q) : list Q := firstn 5 (last_n 6 l).

(* ================================================================== *)
(** ** [TrendAnalysisResult.to_dict] *)

(** The values of the exported dictionary. *)
Inductive pyval : Type :=
| VStr (s : string)
| VText (t : text)
| VFloat (x : fval)
| VInt (z : Z)
| VBool (b : bool)
| VList (l : list text).

(** [to_dict(self)]: the dictionary literal as the list of its items, in
    the order of the source. *)
Definition to_dict (self : TrendAnalysisResult) : list (string * pyval) :=
  [ ("code", VStr (code self));
    ("trend_status", VStr (TrendStatus.value (trend_status (r_trend self))));
    ("ma_alignment", VText (ma_alignment (r_trend self)));
    ("trend_strength", VFloat (trend_strength (r_trend self)));
    ("ma5", VFloat (ma5 (r_ma self)));
    ("ma10", VFloat (ma10 (r_ma self)));
    ("ma20", VFloat (ma20 (r_ma self)));
    ("ma60", VFloat (ma60 (r_ma self)));
    ("current_price", VFloat (current_price (r_ma self)));
    ("bias_ma5", VFloat (bias_ma5 (r_bias self)));
    ("bias_ma10", VFloat (bias_ma10 (r_bias self)));
    ("bias_ma20", VFloat (bias_ma20 (r_bias self)));
    ("volume_status", VStr (VolumeStatus.value (volume_status (r_volume self))));
    ("volume_ratio_5d", VFloat (volume_ratio_5d (r_volume self)));
    ("volume_trend", VText (volume_trend (r_volume self)));
    ("support_ma5", VBool (support_ma5 (r_support self)));
    ("support_ma10", VBool (support_ma10 (r_support self)));
    ("buy_signal", VStr (BuySignal.value (buy_signal (r_signal self))));
    ("signal_score", VInt (signal_score (r_signal self)));
    ("signal_reasons", VList (signal_reasons (r_signal self)));
    ("risk_factors", VList (risk_factors (r_signal self)));
    ("macd_dif", VFloat (macd_dif (r_macd self)));
    ("macd_dea", VFloat (macd_dea (r_macd self)));
    ("macd_bar", VFloat (macd_bar (r_macd self)));
    ("macd_status", VStr (MACDStatus.value (macd_status (r_macd self))));
    ("macd_signal", VText (macd_signal (r_macd self)));
    ("rsi_6", VFloat (rsi_6 (r_rsi self)));
    ("rsi_12", VFloat (rsi_12 (r_rsi self)));
    ("rsi_24", VFloat (rsi_24 (r_rsi self)));
    ("rsi_status", VStr (RSIStatus.value (rsi_status (r_rsi self))));
    ("rsi_signal", VText (rsi_signal (r_rsi self)));
    ("kdj_k", VFloat (kdj_k (r_kdj self)));
    ("kdj_d", VFloat (kdj_d (r_kdj self)));
    ("kdj_j", VFloat (kdj_j (r_kdj self)));
    ("kdj_status", VStr (KDJStatus.value (kdj_status (r_kdj self))));
    ("kdj_signal", VText (kdj_signal (r_kdj self)));
    ("boll_upper", VFloat (boll_upper (r_boll self)));
    ("boll_mid", VFloat (boll_mid (r_boll self)));
    ("boll_lower", VFloat (boll_lower (r_boll self)));
    ("boll_position", VFloat (boll_position (r_boll self)));
    ("boll_status", VStr (BOLLStatus.value (boll_status (r_boll self))));
    ("boll_signal", VText (boll_signal (r_boll self)));
    ("obv", VFloat (obv (r_obv self)));
    ("obv_trend", VText (obv_trend (r_obv self))) ]%string.

(** The result without its lists of support and resistance levels. *)
Definition without_levels (r : TrendAnalysisResult) : TrendAnalysisResult :=
  with_support
    (mkSupportInfo (support_ma5 (r_support r)) (support_ma10 (r_support r)) [] []) r.



(* ================================================================== *)
(** * Properties *)

(** ** Numbers *)

Lemma Qltb_lt (x y : Q) : Qltb x y = true <-> (x < y)%Q.
Proof.
  unfold Qltb. rewrite negb_true_iff. split; intro H.
  - apply Qnot_le_lt. intro Hle. apply Qle_bool_iff in Hle. congruence.
  - destruct (Qle_bool y x) eqn:E; [|reflexivity].
    apply Qle_bool_iff in E. exfalso. apply (Qlt_not_le _ _ H E).
Qed.

Lemma Qltb_ge (x y : Q) : Qltb x y = false <-> (y <= x)%Q.
Proof.
  unfold Qltb. rewrite negb_false_iff. apply Qle_bool_iff.
Qed.

Lemma py_round_nonneg (x : Q) : (0 <= x)%Q -> 0 <= py_round x.
Proof.
  intro H. unfold py_round.
  assert (Hf : 0 <= Qfloor x).
  { rewrite <- (Qfloor_Z 0). apply Qfloor_resp_le. exact H. }
  destruct (Qcompare _ _); [destruct (Z.even _)|..]; lia.
Qed.

Lemma py_round_le (x : Q) (m : Z) : (x <= inject_Z m)%Q -> py_round x <= m.
Proof.
  intro H. unfold py_round.
  assert (Hf : Qfloor x <= m).
  { rewrite <- (Qfloor_Z m). apply Qfloor_resp_le. exact H. }
  assert (Hup : (inject_Z (Qfloor x) < x)%Q -> Qfloor x + 1 <= m).
  { intro Hlt. assert (Hq : (inject_Z (Qfloor x) < inject_Z m)%Q)
      by (eapply Qlt_le_trans; eassumption).
    rewrite <- Zlt_Qlt in Hq. lia. }
  destruct (Qcompare_spec (x - inject_Z (Qfloor x)) (1 # 2)) as [E|E|E].
  - destruct (Z.even _); [lia|]. apply Hup. lra.
  - lia.
  - apply Hup. lra.
Qed.

(** ** The aggregation *)

Lemma trend_raw_bounds (r : TrendAnalysisResult) : 0 <= trend_raw r <= 28.
Proof. unfold trend_raw. destruct (trend_status (r_trend r)); cbn; lia. Qed.

Lemma bias_raw_bounds (r : TrendAnalysisResult) : 0 <= bias_raw r <= 18.
Proof.
  unfold bias_raw, bias_section.
  repeat match goal with |- context [if ?c then _ else _] => destruct c end; cbn; lia.
Qed.

Lemma vol_raw_bounds (r : TrendAnalysisResult) : 0 <= vol_raw r <= 12.
Proof. unfold vol_raw. destruct (volume_status (r_volume r)); cbn; lia. Qed.

Lemma support_raw_bounds (r : TrendAnalysisResult) : 0 <= support_raw r <= 8.
Proof.
  unfold support_raw.
  destruct (support_ma5 (r_support r)), (support_ma10 (r_support r)); lia.
Qed.

Lemma macd_raw_bounds (r : TrendAnalysisResult) : 0 <= macd_raw r <= 12.
Proof. unfold macd_raw. destruct (macd_status (r_macd r)); cbn; lia. Qed.

Lemma rsi_raw_bounds (r : TrendAnalysisResult) : 0 <= rsi_raw r <= 7.
Proof. unfold rsi_raw. destruct (rsi_status (r_rsi r)); cbn; lia. Qed.

Lemma kdj_raw_bounds (r : TrendAnalysisResult) : 0 <= kdj_raw r <= 8.
Proof. unfold kdj_raw. destruct (kdj_status (r_kdj r)); cbn; lia. Qed.

Lemma boll_raw_bounds (r : TrendAnalysisResult) : 0 <= boll_raw r <= 7.
Proof. unfold boll_raw. destruct (boll_status (r_boll r)); cbn; lia. Qed.

(** A sub-score whose raw score is within its default weight stays within
    the configured weight. *)
Lemma round_scaled_bounds (raw w d : Z) :
  0 < d -> 0 <= raw <= d -> 0 <= w ->
  0 <= py_round (inject_Z (raw * w) / inject_Z d) <= w.
Proof.
  intros Hd Hraw Hw.
  assert (Hdq : (0 < inject_Z d)%Q).
  { change (inject_Z 0 < inject_Z d)%Q. rewrite <- Zlt_Qlt. exact Hd. }
  split.
  - apply py_round_nonneg. apply Qle_shift_div_l; [exact Hdq|].
    rewrite Qmult_0_l. change (inject_Z 0 <= inject_Z (raw * w))%Q.
    rewrite <- Zle_Qle. nia.
  - apply py_round_le. apply Qle_shift_div_r; [exact Hdq|].
    rewrite <- inject_Z_mult, <- Zle_Qle. nia.
Qed.

Lemma init_valid (w : list Z) :
  List.length w = 8%nat -> sum w = 100 -> __init__ (Some w) = mkAnalyzer w.
Proof.
  intros Hl Hs. unfold __init__. rewrite Hl, Hs. reflexivity.
Qed.

Lemma scaled_nth (raw : Z) (w : list Z) (i : Z) :
  List.length w = 8%nat -> 0 <= i < 8 ->
  scaled raw w DEFAULT_WEIGHTS i
  = Ok (py_round (inject_Z (raw * nth (Z.to_nat i) w 0)
                  / inject_Z (nth (Z.to_nat i) DEFAULT_WEIGHTS 0))).
Proof.
  intros Hl Hi.
  do 8 (destruct w as [|? w]; [discriminate Hl|]).
  destruct w; [|discriminate Hl].
  assert (E : i = 0 \/ i = 1 \/ i = 2 \/ i = 3 \/ i = 4 \/ i = 5 \/ i = 6 \/ i = 7) by lia.
  repeat (destruct E as [E|E]; [subst i; reflexivity|]).
  subst i; reflexivity.
Qed.

(** The sub-scores of a configuration of eight weights. *)
Lemma sub_scores_eq (w : list Z) (r : TrendAnalysisResult) :
  List.length w = 8%nat ->
  sub_scores (mkAnalyzer w) r
  = Ok (mkSubScores
          (py_round (inject_Z (trend_raw r * nth 0 w 0) / inject_Z 28))
          (py_round (inject_Z (bias_raw r * nth 1 w 0) / inject_Z 18))
          (py_round (inject_Z (vol_raw r * nth 2 w 0) / inject_Z 12))
          (py_round (inject_Z (support_raw r * nth 3 w 0) / inject_Z 8))
          (py_round (inject_Z (macd_raw r * nth 4 w 0) / inject_Z 12))
          (py_round (inject_Z (rsi_raw r * nth 5 w 0) / inject_Z 7))
          (py_round (inject_Z (kdj_raw r * nth 6 w 0) / inject_Z 8))
          (py_round (inject_Z (boll_raw r * nth 7 w 0) / inject_Z 7))).
Proof.
  intro Hl. unfold sub_scores. cbn [_weights].
  rewrite !scaled_nth by (try exact Hl; lia).
  reflexivity.
Qed.

Lemma sum_eight (w : list Z) :
  List.length w = 8%nat ->
  sum w = nth 0 w 0 + nth 1 w 0 + nth 2 w 0 + nth 3 w 0
          + nth 4 w 0 + nth 5 w 0 + nth 6 w 0 + nth 7 w 0.
Proof.
  intro Hl.
  do 8 (destruct w as [|? w]; [discriminate Hl|]).
  destruct w; [|discriminate Hl]. reflexivity.
Qed.

Lemma Forall_nth_nonneg (w : list Z) (i : nat) :
  Forall (fun x => 0 <= x) w -> 0 <= nth i w 0.
Proof.
  intro H. destruct (Nat.lt_ge_cases i (List.length w)) as [Hi|Hi].
  - rewrite Forall_forall in H. apply H. apply nth_In. exact Hi.
  - rewrite nth_overflow by exact Hi. lia.
Qed.

Lemma sub_scores_bounds (w : list Z) (r : TrendAnalysisResult) :
  valid_weights w ->
  exists s, sub_scores (mkAnalyzer w) r = Ok s /\ 0 <= total s <= 100.
Proof.
  intros (Hl & Hpos & Hs).
  rewrite sub_scores_eq by exact Hl.
  eexists; split; [reflexivity|].
  rewrite (sum_eight w Hl) in Hs.
  unfold total; cbn [trend_score bias_score vol_score support_score macd_score
                     rsi_score kdj_score boll_score].
  pose proof (round_scaled_bounds (trend_raw r) (nth 0 w 0) 28 ltac:(lia)
                (trend_raw_bounds r) (Forall_nth_nonneg w 0 Hpos)).
  pose proof (round_scaled_bounds (bias_raw r) (nth 1 w 0) 18 ltac:(lia)
                (bias_raw_bounds r) (Forall_nth_nonneg w 1 Hpos)).
  pose proof (round_scaled_bounds (vol_raw r) (nth 2 w 0) 12 ltac:(lia)
                (vol_raw_bounds r) (Forall_nth_nonneg w 2 Hpos)).
  pose proof (round_scaled_bounds (support_raw r) (nth 3 w 0) 8 ltac:(lia)
                (support_raw_bounds r) (Forall_nth_nonneg w 3 Hpos)).
  pose proof (round_scaled_bounds (macd_raw r) (nth 4 w 0) 12 ltac:(lia)
                (macd_raw_bounds r) (Forall_nth_nonneg w 4 Hpos)).
  pose proof (round_scaled_bounds (rsi_raw r) (nth 5 w 0) 7 ltac:(lia)
                (rsi_raw_bounds r) (Forall_nth_nonneg w 5 Hpos)).
  pose proof (round_scaled_bounds (kdj_raw r) (nth 6 w 0) 8 ltac:(lia)
                (kdj_raw_bounds r) (Forall_nth_nonneg w 6 Hpos)).
  pose proof (round_scaled_bounds (boll_raw r) (nth 7 w 0) 7 ltac:(lia)
                (boll_raw_bounds r) (Forall_nth_nonneg w 7 Hpos)).
  lia.
Qed.

(** ** Indexing, guarded divisions *)

Lemma py_index_neg (n : nat) (k : Z) :
  - Z.of_nat n <= k < 0 -> py_index n k = Ok (n - Z.to_nat (- k))%nat.
Proof.
  intro H. unfold py_index.
  replace (0 <=? k) with false by (symmetry; apply Z.leb_gt; lia).
  replace (k <? 0) with true by (symmetry; apply Z.ltb_lt; lia).
  replace (- Z.of_nat n <=? k) with true by (symmetry; apply Z.leb_le; lia).
  cbn. f_equal. lia.
Qed.

Lemma iloc_last (df : DataFrame) (k : Z) :
  - Z.of_nat (len df) <= k < 0 -> iloc df k = Ok (len df - Z.to_nat (- k))%nat.
Proof. apply py_index_neg. Qed.

Lemma fgt_zero_nonzero (y : fval) :
  fgt y (fz 0) = true ->
  match y with Fin b => Qeq_bool b 0 = false | PInf => True | _ => False end.
Proof.
  destruct y as [b| | |]; cbn; try discriminate; auto.
  intro H. apply Qltb_lt in H.
  destruct (Qeq_bool b 0) eqn:E; [|reflexivity].
  apply Qeq_bool_iff in E. rewrite E in H. discriminate H.
Qed.

Lemma py_truediv_pos (x y : fval) :
  fgt y (fz 0) = true -> py_truediv x y = Ok (fdiv x y).
Proof.
  intro H. apply fgt_zero_nonzero in H. unfold py_truediv.
  destruct y; try reflexivity. now rewrite H.
Qed.

Lemma py_pct_pos (x y : fval) :
  fgt y (fz 0) = true -> py_pct x y = Ok (fmul (fdiv x y) (fz 100)).
Proof. intro H. unfold py_pct. now rewrite (py_truediv_pos x y H). Qed.

Lemma py_truediv_half (x bw : fval) :
  fgt bw (fz 0) = true ->
  py_truediv x (fdiv bw (fz 2)) = Ok (fdiv x (fdiv bw (fz 2))).
Proof.
  intro H. destruct bw as [b| | |]; cbn in H; try discriminate; [|reflexivity].
  apply Qltb_lt in H.
  change (fdiv (Fin b) (fz 2)) with (Fin (b / 2)).
  unfold py_truediv.
  destruct (Qeq_bool (b / 2) 0) eqn:E; [|reflexivity].
  apply Qeq_bool_iff in E. exfalso.
  assert (Hb : (b == b / 2 * 2)%Q) by field.
  rewrite E in Hb. unfold inject_Z in H. lra.
Qed.

Lemma py_pct_abs (x y : fval) :
  fne y (fz 0) = true ->
  py_pct x (fabs y) = Ok (fmul (fdiv x (fabs y)) (fz 100)).
Proof.
  intro H. unfold py_pct, py_truediv.
  destruct y as [b| | |]; try reflexivity.
  cbn in H. apply negb_true_iff in H. cbn [fabs].
  destruct (Qeq_bool (Qabs b) 0) eqn:E; [|reflexivity].
  apply Qeq_bool_iff in E. exfalso.
  apply Qeq_bool_neq in H. apply H. unfold inject_Z.
  revert E. apply Qabs_case; intros; lra.
Qed.

(** ** Every stage assigns the fields of its own group and raises nothing *)

Lemma _analyze_trend_shape (df : DataFrame) (r : TrendAnalysisResult) :
  (20 <= len df)%nat -> exists t, _analyze_trend df r = Ok (with_trend t r).
Proof.
  intro H. unfold _analyze_trend.
  replace (5 <=? len df)%nat with true by (symmetry; apply Nat.leb_le; lia).
  rewrite (iloc_last df (-5)) by lia. cbn [bind].
  destruct (fgt (ma5 (r_ma r)) (ma10 (r_ma r)) && fgt (ma10 (r_ma r)) (ma20 (r_ma r))).
  - destruct (fgt (ma20 (r_ma r)) (fz 0)) eqn:E.
    + rewrite (py_pct_pos _ _ E). cbn [bind]. split_ifs; eexists; reflexivity.
    + cbn [bind]. split_ifs; eexists; reflexivity.
  - destruct (fgt (ma5 (r_ma r)) (ma10 (r_ma r)) && fle (ma10 (r_ma r)) (ma20 (r_ma r)));
      [eexists; reflexivity|].
    destruct (flt (ma5 (r_ma r)) (ma10 (r_ma r)) && flt (ma10 (r_ma r)) (ma20 (r_ma r))).
    + destruct (fgt (ma5 (r_ma r)) (fz 0)) eqn:E.
      * rewrite (py_pct_pos _ _ E). cbn [bind]. split_ifs; eexists; reflexivity.
      * cbn [bind]. split_ifs; eexists; reflexivity.
    + split_ifs; eexists; reflexivity.
Qed.

Lemma _calculate_bias_shape (r : TrendAnalysisResult) :
  exists b, _calculate_bias r = Ok (with_bias b r).
Proof.
  unfold _calculate_bias.
  destruct (fgt (ma5 (r_ma r)) (fz 0)) eqn:E5;
    [rewrite (py_pct_pos _ _ E5)|];
    (destruct (fgt (ma10 (r_ma r)) (fz 0)) eqn:E10;
     [rewrite (py_pct_pos _ _ E10)|]);
    (destruct (fgt (ma20 (r_ma r)) (fz 0)) eqn:E20;
     [rewrite (py_pct_pos _ _ E20)|]);
    cbn [bind]; eexists; reflexivity.
Qed.

Lemma _analyze_volume_shape (df : DataFrame) (r : TrendAnalysisResult) :
  (20 <= len df)%nat -> exists v, _analyze_volume df r = Ok (with_volume v r).
Proof.
  intro H. unfold _analyze_volume.
  replace (len df <? 5)%nat with false by (symmetry; apply Nat.ltb_ge; lia).
  rewrite (iloc_last df (-1)), (iloc_last df (-2)) by lia. cbn [bind].
  split_ifs; eexists; reflexivity.
Qed.

Lemma _analyze_support_resistance_shape (df : DataFrame) (r : TrendAnalysisResult) :
  exists s, _analyze_support_resistance df r = Ok (with_support s r).
Proof.
  unfold _analyze_support_resistance.
  destruct (fgt (ma5 (r_ma r)) (fz 0)) eqn:E5;
    [rewrite (py_truediv_pos _ _ E5)|]; cbn [bind];
    (destruct (fgt (ma10 (r_ma r)) (fz 0)) eqn:E10;
     [rewrite (py_truediv_pos _ _ E10)|]); cbn [bind];
    split_ifs; cbn [bind]; eexists; reflexivity.
Qed.

Lemma _analyze_macd_shape (df : DataFrame) (r : TrendAnalysisResult) :
  (20 <= len df)%nat -> exists m, _analyze_macd df r = Ok (with_macd m r).
Proof.
  intro H. unfold _analyze_macd.
  destruct (len df <? MACD_SLOW)%nat; [eexists; reflexivity|].
  rewrite (iloc_last df (-1)), (iloc_last df (-2)) by lia. cbn [bind].
  split_ifs; eexists; reflexivity.
Qed.

Lemma _analyze_rsi_shape (df : DataFrame) (r : TrendAnalysisResult) :
  (20 <= len df)%nat -> exists m, _analyze_rsi df r = Ok (with_rsi m r).
Proof.
  intro H. unfold _analyze_rsi.
  destruct (len df <? RSI_LONG)%nat; [eexists; reflexivity|].
  rewrite (iloc_last df (-1)) by lia. cbn [bind].
  split_ifs; eexists; reflexivity.
Qed.

Lemma _analyze_kdj_shape (df : DataFrame) (r : TrendAnalysisResult) :
  (20 <= len df)%nat -> exists m, _analyze_kdj df r = Ok (with_kdj m r).
Proof.
  intro H. unfold _analyze_kdj.
  destruct (len df <? KDJ_N)%nat; [eexists; reflexivity|].
  rewrite (iloc_last df (-1)), (iloc_last df (-2)) by lia. cbn [bind].
  split_ifs; eexists; reflexivity.
Qed.

Lemma _analyze_boll_shape (df : DataFrame) (r : TrendAnalysisResult) :
  (20 <= len df)%nat ->
  exists b o, _analyze_boll df r = Ok (with_obv o (with_boll b r)).
Proof.
  intro H. unfold _analyze_boll.
  replace (len df <? BOLL_PERIOD)%nat with false
    by (symmetry; apply Nat.ltb_ge; unfold BOLL_PERIOD; lia).
  replace (5 <=? len df)%nat with true by (symmetry; apply Nat.leb_le; lia).
  rewrite (iloc_last df (-1)), (iloc_last df (-6)) by lia. cbn [bind].
  set (bw := fsub _ _).
  destruct (fgt bw (fz 0)) eqn:E.
  - change (py_truediv bw (fz 2)) with (Ok (fdiv bw (fz 2))). cbn [bind].
    rewrite (py_truediv_half _ _ E). cbn [bind].
    destruct (boll_state _ _ _ _) as [st sg].
    destruct (fne _ _) eqn:E0.
    + rewrite (py_pct_abs _ _ E0). cbn [bind]. do 2 eexists; reflexivity.
    + do 2 eexists; reflexivity.
  - cbn [bind]. destruct (boll_state _ _ _ _) as [st sg].
    destruct (fne _ _) eqn:E0.
    + rewrite (py_pct_abs _ _ E0). cbn [bind]. do 2 eexists; reflexivity.
    + do 2 eexists; reflexivity.
Qed.

Lemma _generate_signal_eq (w : list Z) (r : TrendAnalysisResult) :
  List.length w = 8%nat ->
  exists s,
    sub_scores (mkAnalyzer w) r = Ok s
    /\ _generate_signal (mkAnalyzer w) r
       = Ok (with_signal
               (mkSignalInfo (decide_buy_signal (total s) (trend_status (r_trend r)))
                  (total s) (fst (reasons_and_risks r)) (snd (reasons_and_risks r)))
               r).
Proof.
  intro Hl. unfold _generate_signal. rewrite (sub_scores_eq w r Hl). cbn [bind].
  eexists; split; [reflexivity|]. destruct (reasons_and_risks r). reflexivity.
Qed.

Lemma _generate_signal_shape (w : list Z) (r : TrendAnalysisResult) :
  List.length w = 8%nat ->
  exists s, _generate_signal (mkAnalyzer w) r = Ok (with_signal s r).
Proof.
  intro Hl. destruct (_generate_signal_eq w r Hl) as (s & _ & E).
  rewrite E. eexists; reflexivity.
Qed.

Lemma with_signal_inj (s s' : SignalInfo) (r : TrendAnalysisResult) :
  Ok (with_signal s r) = Ok (with_signal s' r) -> s = s'.
Proof. intro H. injection H. auto. Qed.

(** ** The frame of [analyze] *)

Lemma insert_by_date_length (b : Bar) (l : list Bar) :
  List.length (insert_by_date b l) = S (List.length l).
Proof.
  induction l as [|x l IH]; cbn; [reflexivity|].
  destruct (date b <? date x); cbn; [reflexivity|]. now rewrite IH.
Qed.

Lemma sort_values_date_length (l : list Bar) :
  List.length (sort_values_date l) = List.length l.
Proof.
  unfold sort_values_date.
  assert (G : forall acc, List.length (fold_left (fun a b => insert_by_date b a) l acc)
                          = (List.length l + List.length acc)%nat).
  { induction l as [|x l IH]; intro acc; cbn; [reflexivity|].
    rewrite IH, insert_by_date_length. lia. }
  rewrite G. cbn. lia.
Qed.

Lemma rows_calculate (sqrt : Q -> Q) (bars : list Bar) :
  rows (calculate sqrt bars) = bars.
Proof. reflexivity. Qed.

Lemma len_frame_of (sqrt : Q -> Q) (bars : list Bar) :
  len (frame_of sqrt bars) = List.length bars.
Proof.
  unfold len, frame_of. rewrite rows_calculate. apply sort_values_date_length.
Qed.

(** ** [analyze] stage by stage *)

Lemma bind_Ok {A B : Type} (m : M A) (k : A -> M B) (b : B) :
  bind m k = Ok b -> exists a, m = Ok a /\ k a = Ok b.
Proof. destruct m as [a|e]; cbn; [eauto | discriminate]. Qed.

Lemma analyze_unfold (sqrt : Q -> Q) (self : StockTrendAnalyzer)
    (bars : list Bar) (code : string) :
  (20 <= List.length bars)%nat ->
  analyze sqrt self (Some bars) code
  = let df := frame_of sqrt bars in
    (r1 <- _analyze_trend df (first_result df code) ;;
     r2 <- _calculate_bias r1 ;;
     r3 <- _analyze_volume df r2 ;;
     r4 <- _analyze_support_resistance df r3 ;;
     r5 <- _analyze_macd df r4 ;;
     r6 <- _analyze_rsi df r5 ;;
     r7 <- _analyze_kdj df r6 ;;
     r8 <- _analyze_boll df r7 ;;
     _generate_signal self r8).
Proof.
  intro H. unfold analyze.
  replace (List.length bars <? 20)%nat with false by (symmetry; apply Nat.ltb_ge; lia).
  fold (frame_of sqrt bars).
  rewrite (iloc_last (frame_of sqrt bars) (-1)) by (rewrite len_frame_of; lia).
  reflexivity.
Qed.

Lemma init_weights_length (sw : option (list Z)) :
  List.length (_weights (__init__ sw)) = 8%nat.
Proof.
  unfold __init__.
  destruct (Nat.eqb (List.length _) 8) eqn:E; cbn; [|reflexivity].
  destruct (negb _); cbn; [reflexivity|]. now apply Nat.eqb_eq.
Qed.

(** On at least 20 bars [analyze] raises nothing, and its result is made of
    the groups the stages computed one after the other. *)
Lemma analyze_stages (sqrt : Q -> Q) (self : StockTrendAnalyzer)
    (bars : list Bar) (code : string) :
  (20 <= List.length bars)%nat ->
  List.length (_weights self) = 8%nat ->
  let df := frame_of sqrt bars in
  exists t b v s m rs k bo o sg,
    stages df self code t b v s m rs k bo o sg
    /\ analyze sqrt self (Some bars) code
       = Ok (assemble df code t b v s m rs k bo o sg).
Proof.
  intros H Hw df.
  assert (Hdf : (20 <= len df)%nat) by (unfold df; rewrite len_frame_of; exact H).
  rewrite (analyze_unfold sqrt self bars code H). fold df. cbv zeta.
  set (r0 := first_result df code).
  destruct (_analyze_trend_shape df r0 Hdf) as [t E1].
  set (r1 := with_trend t r0) in *.
  destruct (_calculate_bias_shape r1) as [b E2].
  set (r2 := with_bias b r1) in *.
  destruct (_analyze_volume_shape df r2 Hdf) as [v E3].
  set (r3 := with_volume v r2) in *.
  destruct (_analyze_support_resistance_shape df r3) as [s E4].
  set (r4 := with_support s r3) in *.
  destruct (_analyze_macd_shape df r4 Hdf) as [m E5].
  set (r5 := with_macd m r4) in *.
  destruct (_analyze_rsi_shape df r5 Hdf) as [rs E6].
  set (r6 := with_rsi rs r5) in *.
  destruct (_analyze_kdj_shape df r6 Hdf) as [k E7].
  set (r7 := with_kdj k r6) in *.
  destruct (_analyze_boll_shape df r7 Hdf) as (bo & o & E8).
  set (r8 := with_obv o (with_boll bo r7)) in *.
  destruct self as [w]. cbn [_weights] in Hw.
  destruct (_generate_signal_shape w r8 Hw) as [sg E9].
  exists t, b, v, s, m, rs, k, bo, o, sg. split.
  - unfold stages; cbv zeta. repeat split; assumption.
  - rewrite E1. cbn [bind]. rewrite E2. cbn [bind]. rewrite E3. cbn [bind].
    rewrite E4. cbn [bind]. rewrite E5. cbn [bind]. rewrite E6. cbn [bind].
    rewrite E7. cbn [bind]. rewrite E8. cbn [bind]. rewrite E9. reflexivity.
Qed.

(** With no frame or fewer than 20 rows [analyze] returns at once. *)
Lemma analyze_short_frame_eq (sqrt : Q -> Q) (self : StockTrendAnalyzer)
    (df : option (list Bar)) (code : string) :
  match df with None => True | Some bars => (List.length bars < 20)%nat end ->
  analyze sqrt self df code
  = Ok (with_signal
          (mkSignalInfo BuySignal.WAIT 0 [] [lit "数据不足，无法完成分析"])
          (new_result code)).
Proof.
  intro H. unfold analyze. destruct df as [bars|]; [|reflexivity].
  apply Nat.ltb_lt in H. rewrite H. reflexivity.
Qed.

(* ================================================================== *)
(** * The statements of the specification *)

(** ** C1: the range of the composite score *)

(** C1: the source does not keep the composite score within 0-100, the scale
    that the result record gives for [signal_score].  The vector
    [128, 0, 0, 0, 0, 0, -28, 0] has eight entries of sum 100, so [__init__]
    keeps it; on the twenty rising bars the trend is strong bull, its
    sub-score alone is [round(28 * 128 / 28) = 128], and [analyze] returns
    the score 128: the statement of the specification fails on the code. *)
Theorem C1_score_128_with_accepted_weights :
  _weights (__init__ (Some [128; 0; 0; 0; 0; 0; -28; 0])) = [128; 0; 0; 0; 0; 0; -28; 0]
  /\ (exists r, analyze sqrt_floor (__init__ (Some [128; 0; 0; 0; 0; 0; -28; 0]))
                  (Some rising20) EmptyString = Ok r
                /\ trend_status (r_trend r) = TrendStatus.STRONG_BULL
                /\ signal_score (r_signal r) = 128)
  /\ ~ C1_as_stated.
Proof.
  assert (E : exists r, analyze sqrt_floor (__init__ (Some [128; 0; 0; 0; 0; 0; -28; 0]))
                          (Some rising20) EmptyString = Ok r
                        /\ trend_status (r_trend r) = TrendStatus.STRONG_BULL
                        /\ signal_score (r_signal r) = 128).
  { eexists. split; [vm_compute; reflexivity | split; reflexivity]. }
  split; [reflexivity|]. split; [exact E|].
  intro H. destruct E as (r & E & _ & Hs).
  specialize (H sqrt_floor [128; 0; 0; 0; 0; 0; -28; 0] (Some rising20) EmptyString r
                eq_refl eq_refl E). lia.
Qed.

(** With eight non-negative integer weights of sum 100 the composite score
    of every analysis is within [0, 100]. *)
Lemma analyze_score_bounds (sqrt : Q -> Q) (w : list Z) (df : option (list Bar))
    (code : string) :
  valid_weights w ->
  exists r, analyze sqrt (__init__ (Some w)) df code = Ok r
            /\ 0 <= signal_score (r_signal r) <= 100.
Proof.
  intros Hv. pose proof Hv as (Hl & Hpos & Hs).
  rewrite (init_valid w Hl Hs).
  destruct df as [bars|]; [|eexists; split; [reflexivity|cbn; lia]].
  destruct (Nat.lt_ge_cases (List.length bars) 20) as [Hn|Hn].
  - unfold analyze. apply Nat.ltb_lt in Hn. rewrite Hn.
    eexists; split; [reflexivity|cbn; lia].
  - destruct (analyze_stages sqrt (mkAnalyzer w) bars code Hn Hl)
      as (t & b & v & s & m & rs & k & bo & o & sg & Hst & E).
    rewrite E. eexists; split; [reflexivity|].
    unfold stages in Hst; cbv zeta in Hst.
    destruct Hst as (_ & _ & _ & _ & _ & _ & _ & _ & Hsig).
    match type of Hsig with
    | _generate_signal _ ?r8 = _ =>
        destruct (_generate_signal_eq w r8 Hl) as (sc & Esc & Eg);
        destruct (sub_scores_bounds w r8 Hv) as (sc' & Esc' & Hb)
    end.
    rewrite Eg in Hsig. apply with_signal_inj in Hsig. subst sg.
    rewrite Esc in Esc'. injection Esc' as <-.
    unfold assemble. cbn [r_signal signal_score]. exact Hb.
Qed.

(** ** C2: the recommendation *)

Lemma decide_buy_signal_rule (score : Z) (trend : TrendStatus.t) :
  decide_buy_signal score trend = recommendation_rule score trend.
Proof.
  unfold decide_buy_signal, recommendation_rule.
  destruct (Z_ge_dec score 75) as [H75|H75];
    [replace (75 <=? score) with true by (symmetry; apply Z.leb_le; lia)
    |replace (75 <=? score) with false by (symmetry; apply Z.leb_gt; lia)];
    (destruct (Z_ge_dec score 60) as [H60|H60];
     [replace (60 <=? score) with true by (symmetry; apply Z.leb_le; lia)
     |replace (60 <=? score) with false by (symmetry; apply Z.leb_gt; lia)]);
    (destruct (Z_ge_dec score 45) as [H45|H45];
     [replace (45 <=? score) with true by (symmetry; apply Z.leb_le; lia)
     |replace (45 <=? score) with false by (symmetry; apply Z.leb_gt; lia)]);
    (destruct (Z_ge_dec score 30) as [H30|H30];
     [replace (30 <=? score) with true by (symmetry; apply Z.leb_le; lia)
     |replace (30 <=? score) with false by (symmetry; apply Z.leb_gt; lia)]);
    try lia; destruct trend; reflexivity.
Qed.

Lemma generate_signal_rule (score_weights : option (list Z))
    (result : TrendAnalysisResult) :
  exists r, _generate_signal (__init__ score_weights) result = Ok r
            /\ trend_status (r_trend r) = trend_status (r_trend result)
            /\ buy_signal (r_signal r)
               = recommendation_rule (signal_score (r_signal r))
                   (trend_status (r_trend r)).
Proof.
  pose proof (init_weights_length score_weights) as Hl.
  destruct (__init__ score_weights) as [w]. cbn [_weights] in Hl.
  destruct (_generate_signal_eq w result Hl) as (s & _ & E).
  rewrite E. eexists; split; [reflexivity|]. split; [reflexivity|].
  cbn. apply decide_buy_signal_rule.
Qed.

(** The rule on the result of [analyze] for a series of at least 20 bars. *)
Lemma analyze_recommendation_rule (sqrt : Q -> Q) (score_weights : option (list Z))
    (bars : list Bar) (code : string) :
  (20 <= List.length bars)%nat ->
  exists r, analyze sqrt (__init__ score_weights) (Some bars) code = Ok r
            /\ buy_signal (r_signal r)
               = recommendation_rule (signal_score (r_signal r))
                   (trend_status (r_trend r)).
Proof.
  intro Hn.
  destruct (analyze_stages sqrt (__init__ score_weights) bars code Hn
              (init_weights_length score_weights))
    as (t & b & v & s & m & rs & k & bo & o & sg & Hst & E).
  rewrite E. eexists; split; [reflexivity|].
  unfold stages in Hst; cbv zeta in Hst.
  destruct Hst as (_ & _ & _ & _ & _ & _ & _ & _ & Hsig).
  match type of Hsig with
  | _generate_signal _ ?r8 = _ =>
      destruct (generate_signal_rule score_weights r8) as (r & Er & Ht & Hb)
  end.
  rewrite Er in Hsig. injection Hsig as ->. exact Hb.
Qed.

(** The default weights are within the float range. *)
Lemma default_weights_in_float_range : weights_in_float_range (__init__ None).
Proof.
  unfold weights_in_float_range. cbn. repeat constructor; vm_compute; discriminate.
Qed.

(** C2, counterexample: on a frame of one row [analyze] returns at once with
    the defaults of the result record: the score 0, the trend CONSOLIDATION
    and the recommendation WAIT, where the rule gives SELL for that score
    and trend. *)
Lemma C2_counterexample : ~ C2_as_stated.
Proof.
  intro H.
  specialize (H sqrt_floor None (Some (bars_of_closes 1000 [100])) EmptyString _ eq_refl).
  vm_compute in H. discriminate H.
Qed.

(** C2, amended: the recommendation of every result that [analyze] returns
    for a frame of at least 20 rows is the top-down rule of the
    specification applied to the composite score and the trend label of that
    result; for a missing frame or one of fewer than 20 rows the result is
    the one of the early return: recommendation WAIT, score 0, trend
    CONSOLIDATION.  And [analyze] does return a result, whatever the frame,
    when the weights are within the float range. *)
Theorem C2_recommendation_rule (sqrt : Q -> Q) (score_weights : option (list Z))
    (df : option (list Bar)) (code : string) :
  (forall r,
     analyze sqrt (__init__ score_weights) df code = Ok r ->
     if returns_early df
     then buy_signal (r_signal r) = BuySignal.WAIT
          /\ signal_score (r_signal r) = 0
          /\ trend_status (r_trend r) = TrendStatus.CONSOLIDATION
     else buy_signal (r_signal r)
          = recommendation_rule (signal_score (r_signal r))
              (trend_status (r_trend r)))
  /\ (weights_in_float_range (__init__ score_weights) ->
      exists r, analyze sqrt (__init__ score_weights) df code = Ok r).
Proof.
  assert (R : exists r0,
             analyze sqrt (__init__ score_weights) df code = Ok r0
             /\ if returns_early df
                then buy_signal (r_signal r0) = BuySignal.WAIT
                     /\ signal_score (r_signal r0) = 0
                     /\ trend_status (r_trend r0) = TrendStatus.CONSOLIDATION
                else buy_signal (r_signal r0)
                     = recommendation_rule (signal_score (r_signal r0))
                         (trend_status (r_trend r0))).
  { destruct df as [bars|].
    - destruct (Nat.lt_ge_cases (List.length bars) 20) as [Hn|Hn].
      + rewrite (analyze_short_frame_eq sqrt _ (Some bars) code Hn).
        unfold returns_early.
        replace (List.length bars <? 20)%nat with true
          by (symmetry; apply Nat.ltb_lt; exact Hn).
        rewrite orb_true_r. eexists; split; [reflexivity|]. repeat split.
      + unfold returns_early.
        replace (List.length bars <? 20)%nat with false
          by (symmetry; apply Nat.ltb_ge; exact Hn).
        replace (List.length bars =? 0)%nat with false
          by (symmetry; apply Nat.eqb_neq; lia).
        cbn [orb]. apply analyze_recommendation_rule. exact Hn.
    - rewrite (analyze_short_frame_eq sqrt _ None code I).
      eexists; split; [reflexivity|]. repeat split. }
  destruct R as (r0 & E & P). split.
  - intros r Er. rewrite E in Er. injection Er as <-. exact P.
  - intros _. exists r0. exact E.
Qed.

Lemma C2_recommendation_rule_witness :
  exists r,
    analyze sqrt_floor (__init__ None) (Some rising20) EmptyString = Ok r
    /\ buy_signal (r_signal r)
       = recommendation_rule (signal_score (r_signal r)) (trend_status (r_trend r)).
Proof.
  destruct (C2_recommendation_rule sqrt_floor None (Some rising20) EmptyString)
    as [H1 H2].
  destruct H2 as [r E].
  { unfold weights_in_float_range. cbn. repeat constructor; vm_compute; discriminate. }
  exists r. split; [exact E | exact (H1 r E)].
Defined.

(** ** C3: the weight configuration *)

(** C3, counterexample: [128, 0, 0, 0, 0, 0, -28, 0] has a negative entry,
    and [__init__] keeps it (its length is 8 and its sum 100). *)
Lemma C3_counterexample : ~ C3_as_stated.
Proof.
  intro H. specialize (H [128; 0; 0; 0; 0; 0; -28; 0]).
  assert (Hnv : ~ valid_weights [128; 0; 0; 0; 0; 0; -28; 0]).
  { intros (_ & Hpos & _).
    repeat match goal with H : Forall _ (_ :: _) |- _ => inversion H; clear H; subst end.
    lia. }
  specialize (H Hnv). discriminate H.
Qed.

(** With that vector the analysis differs from the analysis with the
    default weights: 128 against 67 on the twenty rising bars. *)
Lemma negative_weight_changes_the_score :
  exists r r',
    analyze sqrt_floor (__init__ (Some [128; 0; 0; 0; 0; 0; -28; 0])) (Some rising20)
      EmptyString = Ok r
    /\ analyze sqrt_floor (__init__ None) (Some rising20) EmptyString = Ok r'
    /\ signal_score (r_signal r) = 128
    /\ signal_score (r_signal r') = 67.
Proof.
  do 2 eexists. split; [vm_compute; reflexivity|].
  split; [vm_compute; reflexivity|]. split; reflexivity.
Qed.

(** C3, amended: a supplied vector is kept exactly when it has eight entries
    and sum 100 (the sign of the entries is not looked at); with any other
    vector (wrong length or wrong sum) the analyzer is the one built with no
    configuration, so every analysis is the same. *)
Theorem C3_weights_accepted_iff_length_and_sum (w : list Z) :
  __init__ (Some w)
  = (if Nat.eqb (List.length w) 8 && (sum w =? 100)
     then mkAnalyzer w else __init__ None)
  /\ _weights (__init__ None) = DEFAULT_WEIGHTS
  /\ forall (sqrt : Q -> Q) (df : option (list Bar)) (code : string),
       Nat.eqb (List.length w) 8 && (sum w =? 100) = false ->
       analyze sqrt (__init__ (Some w)) df code = analyze sqrt (__init__ None) df code.
Proof.
  assert (E : __init__ (Some w)
              = (if Nat.eqb (List.length w) 8 && (sum w =? 100)
                 then mkAnalyzer w else __init__ None)).
  { unfold __init__.
    destruct (Nat.eqb (List.length w) 8), (sum w =? 100); reflexivity. }
  split; [exact E|]. split; [reflexivity|].
  intros sqrt df code H. rewrite E, H. reflexivity.
Qed.

Lemma C3_weights_accepted_iff_length_and_sum_witness :
  analyze sqrt_floor (__init__ (Some [50; 50])) (Some rising20) EmptyString
  = analyze sqrt_floor (__init__ None) (Some rising20) EmptyString.
Proof.
  apply (proj2 (proj2 (C3_weights_accepted_iff_length_and_sum [50; 50]))).
  reflexivity.
Defined.

(** ** Series operations *)

Lemma col_length (f : Bar -> Q) (bars : list Bar) :
  List.length (col f bars) = List.length bars.
Proof. apply length_map. Qed.

Lemma rolling_length (n : nat) (agg : list fval -> fval) (l : list fval) :
  List.length (rolling n agg l) = List.length l.
Proof. unfold rolling. now rewrite length_map, length_seq. Qed.

Lemma diff_from_length (p : fval) (l : list fval) :
  List.length (diff_from p l) = List.length l.
Proof. revert p; induction l; intro p; cbn; [reflexivity | now rewrite IHl]. Qed.

Lemma diff_length (l : list fval) : List.length (diff l) = List.length l.
Proof. destruct l; cbn; [reflexivity | now rewrite diff_from_length]. Qed.

Lemma cell_map (f : fval -> fval) (l : list fval) (i : nat) :
  (i < List.length l)%nat -> cell (map f l) i = f (cell l i).
Proof.
  intro H. unfold cell.
  rewrite (nth_indep _ NaN (f NaN)) by (rewrite length_map; exact H).
  apply map_nth.
Qed.

Lemma cell_map2 (f : fval -> fval -> fval) (a b : list fval) (i : nat) :
  (i < List.length a)%nat -> (i < List.length b)%nat ->
  cell (map2 f a b) i = f (cell a i) (cell b i).
Proof.
  unfold cell, map2. revert b i.
  induction a as [|x a IH]; intros [|y b] [|i] Ha Hb; cbn in *; try lia.
  - reflexivity.
  - apply IH; lia.
Qed.

Lemma cell_rolling (n : nat) (agg : list fval -> fval) (l : list fval) (i : nat) :
  (i < List.length l)%nat ->
  cell (rolling n agg l) i = if (n <=? i + 1)%nat then agg (window n l i) else NaN.
Proof.
  intro H. unfold cell, rolling.
  set (g := fun i => if (n <=? i + 1)%nat then agg (window n l i) else NaN).
  rewrite (nth_indep _ NaN (g 0%nat)) by (rewrite length_map, length_seq; exact H).
  rewrite map_nth, seq_nth by exact H. reflexivity.
Qed.

Lemma window_length (n : nat) (l : list fval) (i : nat) :
  (n <= i + 1)%nat -> (i < List.length l)%nat -> List.length (window n l i) = n.
Proof.
  intros Hn Hi. unfold window. rewrite length_firstn, length_skipn. lia.
Qed.

Lemma Forall_firstn {A : Type} (P : A -> Prop) (n : nat) (l : list A) :
  Forall P l -> Forall P (firstn n l).
Proof.
  revert n; induction l as [|x l IH]; intros [|n] H; cbn; try constructor.
  - now inversion H.
  - apply IH. now inversion H.
Qed.

Lemma Forall_skipn {A : Type} (P : A -> Prop) (n : nat) (l : list A) :
  Forall P l -> Forall P (skipn n l).
Proof.
  revert n; induction l as [|x l IH]; intros [|n] H; cbn; try assumption.
  apply IH. now inversion H.
Qed.

Lemma Forall_window (P : fval -> Prop) (n : nat) (l : list fval) (i : nat) :
  Forall P l -> Forall P (window n l i).
Proof. intro H. unfold window. now apply Forall_firstn, Forall_skipn. Qed.

(** ** C4: RSI when the average loss is zero *)

Lemma diff_from_finite (a : Q) (l : list Q) :
  Forall finite_or_nan (diff_from (Fin a) (map Fin l)).
Proof.
  revert a; induction l as [|x l IH]; intro a; cbn; constructor; [exact I | apply IH].
Qed.

Lemma diff_col_finite (f : Bar -> Q) (bars : list Bar) :
  Forall finite_or_nan (diff (col f bars)).
Proof.
  unfold col. rewrite <- (map_map f Fin).
  destruct (map f bars) as [|a l]; cbn; constructor; [exact I | apply diff_from_finite].
Qed.

Lemma rsi_gain_nonneg (bars : list Bar) : Forall fin_nonneg (rsi_gain bars).
Proof.
  unfold rsi_gain, where_. apply Forall_map.
  eapply Forall_impl; [|apply diff_col_finite].
  intros [q| | |] H; cbn in *; try contradiction; [|discriminate].
  destruct (Qltb (inject_Z 0) q) eqn:E; cbn; [|discriminate].
  apply Qltb_lt in E. unfold inject_Z in E. lra.
Qed.

Lemma fsum_nonneg (l : list fval) : Forall fin_nonneg l -> fin_nonneg (fsum l).
Proof.
  unfold fsum.
  assert (G : forall acc, fin_nonneg acc -> Forall fin_nonneg l ->
                          fin_nonneg (fold_left fadd l acc)).
  { induction l as [|x l IH]; intros acc Ha H; cbn; [exact Ha|].
    inversion H as [|? ? Hx Hl]; subst. apply IH; [|exact Hl].
    destruct acc, x; cbn in *; try contradiction. lra. }
  apply G. cbn. discriminate.
Qed.

Lemma fmean_nonneg (l : list fval) :
  l <> [] -> Forall fin_nonneg l -> fin_nonneg (fmean l).
Proof.
  intros Hne H. destruct l as [|x l]; [contradiction|].
  unfold fmean. set (l' := x :: l) in *.
  pose proof (fsum_nonneg l' H) as Hs.
  destruct (fsum l') as [s| | |]; cbn in Hs; try contradiction.
  assert (Hn : (0 < inject_Z (Z.of_nat (List.length l')))%Q).
  { change (inject_Z 0 < inject_Z (Z.of_nat (List.length l')))%Q.
    rewrite <- Zlt_Qlt. cbn. lia. }
  unfold fz, fdiv.
  destruct (Qeq_bool (inject_Z (Z.of_nat (List.length l'))) 0) eqn:E.
  - apply Qeq_bool_iff in E. rewrite E in Hn. discriminate Hn.
  - cbn. apply Qle_shift_div_l; [exact Hn|]. lra.
Qed.

Lemma rsi_avg_gain_nonneg (period : nat) (bars : list Bar) (i : nat) :
  (0 < period <= i + 1)%nat -> (i < List.length bars)%nat ->
  fin_nonneg (cell (rsi_avg_gain period bars) i).
Proof.
  intros Hp Hi. unfold rsi_avg_gain.
  assert (Hl : List.length (rsi_gain bars) = List.length bars).
  { unfold rsi_gain, where_. now rewrite length_map, diff_length, col_length. }
  rewrite cell_rolling by lia.
  replace (period <=? i + 1)%nat with true by (symmetry; apply Nat.leb_le; lia).
  apply fmean_nonneg.
  - intro E. apply (f_equal (@List.length fval)) in E.
    rewrite window_length in E by lia. cbn in E. lia.
  - apply Forall_window, rsi_gain_nonneg.
Qed.

Lemma rsi_cell (period : nat) (bars : list Bar) (i : nat) :
  (i < List.length bars)%nat ->
  cell (rsi_column period bars) i
  = let x := fsub (fz 100)
               (fdiv (fz 100)
                  (fadd (fz 1)
                     (fdiv (cell (rsi_avg_gain period bars) i)
                           (cell (rsi_avg_loss period bars) i)))) in
    if isnan x then fz 50 else x.
Proof.
  intro Hi.
  assert (Hg : List.length (rsi_avg_gain period bars) = List.length bars).
  { unfold rsi_avg_gain, rsi_gain, where_.
    now rewrite rolling_length, length_map, diff_length, col_length. }
  assert (Hl : List.length (rsi_avg_loss period bars) = List.length bars).
  { unfold rsi_avg_loss, rsi_loss, where_.
    now rewrite rolling_length, !length_map, diff_length, col_length. }
  unfold rsi_column, fillna.
  assert (H2 : List.length (map2 fdiv (rsi_avg_gain period bars) (rsi_avg_loss period bars))
               = List.length bars).
  { unfold map2. rewrite length_map, length_combine. lia. }
  rewrite cell_map by (rewrite length_map; lia).
  rewrite cell_map by lia.
  rewrite cell_map2 by lia. reflexivity.
Qed.

(** C4, counterexample: on the twenty rising bars no bar closes lower, the
    average loss over the last 6 bars is 0 and the average gain is 1; RSI(6)
    of the latest bar is 100. *)
Lemma C4_counterexample : ~ C4_as_stated.
Proof.
  intro H. specialize (H RSI_SHORT rising20 19%nat).
  assert (E : cell (rsi_column RSI_SHORT rising20) 19 =f= fz 100)
    by (vm_compute; reflexivity).
  assert (E0 : cell (rsi_column RSI_SHORT rising20) 19 =f= fz 50).
  { apply H; [left; reflexivity | vm_compute; lia | vm_compute; reflexivity]. }
  destruct (cell (rsi_column RSI_SHORT rising20) 19) as [q| | |]; cbn in *;
    try contradiction.
  rewrite E in E0. discriminate E0.
Qed.

(** C4, amended: at every bar with a full window where the trailing average
    loss is zero, the RSI is 50 when the average gain is zero too, and 100
    when the average gain is positive (one of the two holds); it is never
    NaN. *)
Theorem C4_rsi_at_zero_average_loss (period : nat) (bars : list Bar) (i : nat) :
  (0 < period <= i + 1)%nat -> (i < List.length bars)%nat ->
  cell (rsi_avg_loss period bars) i =f= fz 0 ->
  (cell (rsi_avg_gain period bars) i =f= fz 0
   /\ cell (rsi_column period bars) i =f= fz 50)
  \/ (fgt (cell (rsi_avg_gain period bars) i) (fz 0) = true
      /\ cell (rsi_column period bars) i =f= fz 100).
Proof.
  intros Hp Hi Hloss.
  pose proof (rsi_avg_gain_nonneg period bars i Hp Hi) as Hg.
  rewrite (rsi_cell period bars i Hi). cbv zeta.
  destruct (cell (rsi_avg_gain period bars) i) as [g| | |]; cbn in Hg; try contradiction.
  destruct (cell (rsi_avg_loss period bars) i) as [l| | |]; cbn in Hloss; try contradiction.
  assert (El : Qeq_bool l 0 = true) by (apply Qeq_bool_iff; exact Hloss).
  assert (Ed : fdiv (Fin g) (Fin l)
               = if Qeq_bool g 0 then NaN else if Qltb 0 g then PInf else NInf)
    by (unfold fdiv; rewrite El; reflexivity).
  rewrite Ed. clear Ed.
  destruct (Qeq_bool g 0) eqn:Eg.
  - left. apply Qeq_bool_iff in Eg. split; [exact Eg | cbn; reflexivity].
  - right. apply Qeq_bool_neq in Eg.
    assert (Hpos : Qltb 0 g = true) by (apply Qltb_lt; lra).
    rewrite Hpos. split; [exact Hpos|]. cbn. reflexivity.
Qed.

Lemma C4_rsi_at_zero_average_loss_witness :
  (cell (rsi_avg_gain RSI_SHORT rising20) 19 =f= fz 0
   /\ cell (rsi_column RSI_SHORT rising20) 19 =f= fz 50)
  \/ (fgt (cell (rsi_avg_gain RSI_SHORT rising20) 19) (fz 0) = true
      /\ cell (rsi_column RSI_SHORT rising20) 19 =f= fz 100).
Proof.
  apply C4_rsi_at_zero_average_loss.
  - unfold RSI_SHORT. lia.
  - vm_compute. lia.
  - vm_compute. reflexivity.
Defined.

(** ** C5: the MACD states *)

(** What [_analyze_macd] stores when the frame has at least 26 rows. *)
Lemma _analyze_macd_fields (df : DataFrame) (result : TrendAnalysisResult) :
  (26 <= len df)%nat ->
  let latest := (len df - 1)%nat in
  let prev := (len df - 2)%nat in
  let st := macd_state_above_zero (cell (MACD_DIF df) prev) (cell (MACD_DEA df) prev)
              (cell (MACD_DIF df) latest) (cell (MACD_DEA df) latest) in
  _analyze_macd df result
  = Ok (with_macd
          (mkMACDInfo (cell (MACD_DIF df) latest) (cell (MACD_DEA df) latest)
             (cell (MACD_BAR df) latest)
             (fst (macd_state_fields st)) (snd (macd_state_fields st)))
          result).
Proof.
  intros H latest prev st. unfold _analyze_macd.
  replace (len df <? MACD_SLOW)%nat with false
    by (symmetry; apply Nat.ltb_ge; unfold MACD_SLOW; lia).
  rewrite (iloc_last df (-1)), (iloc_last df (-2)) by lia.
  change (len df - Z.to_nat (- -1))%nat with latest.
  change (len df - Z.to_nat (- -2))%nat with prev.
  cbn [bind]. subst st.
  unfold macd_state_above_zero, first_match, golden_cross, death_cross,
    crossing_up, crossing_down.
  split_ifs; reflexivity.
Qed.

(** C5, counterexample: with (DIF, DEA) = (-2, -1) on the previous row and
    (0, -1) on the latest row, DIF - DEA goes from -1 to 1, a golden cross
    with DIF = 0; the source tests [DIF > 0] and stores the plain golden
    cross. *)
Lemma C5_counterexample : ~ C5_as_stated.
Proof.
  intro H.
  specialize (H macd_boundary_frame (new_result EmptyString) _
                ltac:(vm_compute; lia) eq_refl).
  vm_compute in H. discriminate H.
Qed.

(** The boundary is met by a series in exact arithmetic: the closes
    1000 (24 times), 649, 1271 give DIF = 0 and DEA = -112/25 on the latest
    bar, after DIF = -28 and DEA = -28/5. *)
Lemma macd_boundary_reached :
  exists r, analyze sqrt_floor (__init__ None) (Some macd_boundary_bars) EmptyString = Ok r
            /\ macd_dif (r_macd r) =f= fz 0
            /\ macd_dea (r_macd r) =f= Fin (-112 # 25)
            /\ macd_status (r_macd r) = MACDStatus.GOLDEN_CROSS.
Proof.
  eexists. split; [vm_compute; reflexivity|].
  split; [reflexivity|]. split; reflexivity.
Qed.

(** C5, amended: on a frame of at least 26 rows [_analyze_macd] stores the
    first match of: golden cross with DIF above zero; DIF crossing up through
    zero; golden cross; death cross; DIF crossing down through zero; bullish
    (DIF > 0 and DEA > 0); bearish (both < 0); otherwise neutral - where a
    golden cross is DIF - DEA going from <= 0 on the previous row to > 0 on
    the latest row and a death cross the mirror.  (The neutral state is stored
    as the label BULLISH with the neutral signal text.) *)
Theorem C5_macd_priority_order (df : DataFrame) (result : TrendAnalysisResult) :
  (26 <= len df)%nat ->
  exists r,
    _analyze_macd df result = Ok r
    /\ (macd_status (r_macd r), macd_signal (r_macd r))
       = macd_state_fields
           (macd_state_above_zero
              (cell (MACD_DIF df) (len df - 2)) (cell (MACD_DEA df) (len df - 2))
              (cell (MACD_DIF df) (len df - 1)) (cell (MACD_DEA df) (len df - 1))).
Proof.
  intro H. rewrite (_analyze_macd_fields df result H). cbv zeta.
  eexists; split; [reflexivity|]. cbn [r_macd with_macd macd_status macd_signal].
  now destruct (macd_state_fields _).
Qed.

Lemma C5_macd_priority_order_witness :
  exists r,
    _analyze_macd macd_boundary_frame (new_result EmptyString) = Ok r
    /\ (macd_status (r_macd r), macd_signal (r_macd r))
       = macd_state_fields
           (macd_state_above_zero
              (cell (MACD_DIF macd_boundary_frame) (len macd_boundary_frame - 2))
              (cell (MACD_DEA macd_boundary_frame) (len macd_boundary_frame - 2))
              (cell (MACD_DIF macd_boundary_frame) (len macd_boundary_frame - 1))
              (cell (MACD_DEA macd_boundary_frame) (len macd_boundary_frame - 1))).
Proof.
  apply C5_macd_priority_order. vm_compute. lia.
Defined.

(** ** C6: strong bull *)

(** The spreads [_analyze_trend] compares: of the latest row and of the
    fifth row from the end, each taken as 0 unless MA20 of its row is
    positive. *)
Lemma _analyze_trend_bull (df : DataFrame) (code : string) :
  (5 <= len df)%nat ->
  let r0 := first_result df code in
  let latest := (len df - 1)%nat in
  let prev := (len df - 5)%nat in
  let prev_spread := if fgt (cell (MA20 df) prev) (fz 0) then spread_at df prev else fz 0 in
  let curr_spread := if fgt (cell (MA20 df) latest) (fz 0) then spread_at df latest else fz 0 in
  fgt (ma5 (r_ma r0)) (ma10 (r_ma r0)) && fgt (ma10 (r_ma r0)) (ma20 (r_ma r0)) = true ->
  exists t,
    _analyze_trend df r0 = Ok (with_trend t r0)
    /\ trend_status t
       = if fgt curr_spread prev_spread && fgt curr_spread (fz 5)
         then TrendStatus.STRONG_BULL else TrendStatus.BULL.
Proof.
  intros H r0 latest prev prev_spread curr_spread Hbull.
  unfold _analyze_trend. rewrite Hbull.
  replace (5 <=? len df)%nat with true by (symmetry; apply Nat.leb_le; lia).
  rewrite (iloc_last df (-5)) by lia.
  change (len df - Z.to_nat (- -5))%nat with prev. cbn [bind].
  fold (spread_at df prev). fold prev_spread.
  change (ma20 (r_ma r0)) with (cell (MA20 df) latest).
  change (ma5 (r_ma r0)) with (cell (MA5 df) latest).
  assert (Ec : (if fgt (cell (MA20 df) latest) (fz 0)
                then py_pct (fsub (cell (MA5 df) latest) (cell (MA20 df) latest))
                       (cell (MA20 df) latest)
                else Ok (fz 0)) = Ok curr_spread).
  { subst curr_spread. destruct (fgt (cell (MA20 df) latest) (fz 0)) eqn:E; [|reflexivity].
    now rewrite (py_pct_pos _ _ E). }
  rewrite Ec. cbn [bind].
  destruct (fgt curr_spread prev_spread && fgt curr_spread (fz 5));
    eexists; split; reflexivity.
Qed.

(** C6, counterexample: for the closes 100 (19 times), 140, 150, 130, 100,
    100, 100 the latest averages are 116 > 112 > 106 and the latest spread is
    10/106 = 9.4%.  Five rows before the latest (close 140) the spread is
    6/102 = 5.9%, below it; the source reads [df.iloc[-5]], four rows before
    the latest (close 150), where the spread is 13.5/104.5 = 12.9%, and
    labels the trend bull. *)
Lemma C6_counterexample : ~ C6_as_stated.
Proof.
  intro H.
  assert (E : exists r,
             analyze sqrt_floor (__init__ None) (Some trend_bars) EmptyString = Ok r
             /\ trend_status (r_trend r) = TrendStatus.BULL
             /\ fgt (ma5 (r_ma r)) (ma10 (r_ma r)) && fgt (ma10 (r_ma r)) (ma20 (r_ma r))
                = true).
  { eexists. split; [vm_compute; reflexivity|]. split; reflexivity. }
  destruct E as (r & E & Ht & Hb).
  specialize (H sqrt_floor (__init__ None) trend_bars EmptyString r E Hb).
  rewrite Ht in H. vm_compute in H. discriminate H.
Qed.

Lemma with_trend_inj (t t' : TrendInfo) (r : TrendAnalysisResult) :
  Ok (with_trend t r) = Ok (with_trend t' r) -> t = t'.
Proof. intro H. injection H. auto. Qed.

(** C6, amended: on at least 20 bars, when MA5 > MA10 > MA20 on the latest
    bar, the label is strong bull exactly when the latest spread exceeds both
    5 and the spread of the fifth bar from the end (four bars before the
    latest), a spread counting as 0 when MA20 of its bar is undefined or not
    positive; otherwise the label is bull. *)
Theorem C6_strong_bull_compares_fifth_bar_from_end (sqrt : Q -> Q)
    (score_weights : option (list Z)) (bars : list Bar) (code : string) :
  (20 <= List.length bars)%nat ->
  let df := frame_of sqrt bars in
  let latest := (len df - 1)%nat in
  let prev := (len df - 5)%nat in
  let prev_spread := if fgt (cell (MA20 df) prev) (fz 0) then spread_at df prev else fz 0 in
  let curr_spread := if fgt (cell (MA20 df) latest) (fz 0) then spread_at df latest else fz 0 in
  exists r,
    analyze sqrt (__init__ score_weights) (Some bars) code = Ok r
    /\ (fgt (ma5 (r_ma r)) (ma10 (r_ma r)) && fgt (ma10 (r_ma r)) (ma20 (r_ma r)) = true ->
        trend_status (r_trend r)
        = if fgt curr_spread prev_spread && fgt curr_spread (fz 5)
          then TrendStatus.STRONG_BULL else TrendStatus.BULL).
Proof.
  intros Hn df latest prev prev_spread curr_spread.
  destruct (analyze_stages sqrt (__init__ score_weights) bars code Hn
              (init_weights_length score_weights))
    as (t & b & v & s & m & rs & k & bo & o & sg & Hst & E).
  fold df in Hst, E. rewrite E. eexists; split; [reflexivity|].
  unfold assemble; cbn [r_ma r_trend]. intro Hbull.
  assert (Hdf : (5 <= len df)%nat) by (unfold df; rewrite len_frame_of; lia).
  destruct (_analyze_trend_bull df code Hdf Hbull) as (t' & Et & Hs).
  unfold stages in Hst; cbv zeta in Hst. destruct Hst as (Ht & _).
  rewrite Et in Ht. apply with_trend_inj in Ht. subst t'. exact Hs.
Qed.

Lemma C6_strong_bull_compares_fifth_bar_from_end_witness :
  let df := frame_of sqrt_floor trend_bars in
  let latest := (len df - 1)%nat in
  let prev := (len df - 5)%nat in
  let prev_spread := if fgt (cell (MA20 df) prev) (fz 0) then spread_at df prev else fz 0 in
  let curr_spread := if fgt (cell (MA20 df) latest) (fz 0) then spread_at df latest else fz 0 in
  exists r,
    analyze sqrt_floor (__init__ None) (Some trend_bars) EmptyString = Ok r
    /\ (fgt (ma5 (r_ma r)) (ma10 (r_ma r)) && fgt (ma10 (r_ma r)) (ma20 (r_ma r)) = true ->
        trend_status (r_trend r)
        = if fgt curr_spread prev_spread && fgt curr_spread (fz 5)
          then TrendStatus.STRONG_BULL else TrendStatus.BULL).
Proof.
  apply C6_strong_bull_compares_fifth_bar_from_end. vm_compute. lia.
Defined.

(** ** C7: the Bollinger states *)

Lemma boll_state_order (price upper mid lower : fval) :
  fst (boll_state price upper mid lower) = boll_state_breaks_first price upper mid lower.
Proof.
  unfold boll_state, boll_state_breaks_first, first_match. cbv zeta.
  split_ifs; reflexivity.
Qed.

(** What [_analyze_boll] stores when the frame has at least 20 rows. *)
Lemma _analyze_boll_fields (df : DataFrame) (result : TrendAnalysisResult) :
  (20 <= len df)%nat ->
  let latest := (len df - 1)%nat in
  let price := current_price (r_ma result) in
  let upper := cell (BOLL_UPPER df) latest in
  let mid := cell (BOLL_MID df) latest in
  let lower := cell (BOLL_LOWER df) latest in
  exists position o,
    _analyze_boll df result
    = Ok (with_obv o
            (with_boll
               (mkBOLLInfo upper mid lower position
                  (fst (boll_state price upper mid lower))
                  (snd (boll_state price upper mid lower)))
               result))
    /\ (fgt (fsub upper lower) (fz 0) = false ->
        position = boll_position (r_boll result)).
Proof.
  intros H latest price upper mid lower. unfold _analyze_boll.
  replace (len df <? BOLL_PERIOD)%nat with false
    by (symmetry; apply Nat.ltb_ge; unfold BOLL_PERIOD; lia).
  replace (5 <=? len df)%nat with true by (symmetry; apply Nat.leb_le; lia).
  rewrite (iloc_last df (-1)), (iloc_last df (-6)) by lia.
  change (len df - Z.to_nat (- -1))%nat with latest.
  cbn [bind]. fold upper mid lower price.
  destruct (boll_state price upper mid lower) as [st sg] eqn:Est.
  destruct (fgt (fsub upper lower) (fz 0)) eqn:E.
  - change (py_truediv (fsub upper lower) (fz 2)) with (Ok (fdiv (fsub upper lower) (fz 2))).
    cbn [bind]. rewrite (py_truediv_half _ _ E). cbn [bind].
    destruct (fne _ _) eqn:E0.
    + rewrite (py_pct_abs _ _ E0). cbn [bind].
      do 2 eexists; split; [reflexivity | discriminate].
    + do 2 eexists; split; [reflexivity | discriminate].
  - cbn [bind]. destruct (fne _ _) eqn:E0.
    + rewrite (py_pct_abs _ _ E0). cbn [bind].
      do 2 eexists; split; [reflexivity | reflexivity].
    + do 2 eexists; split; [reflexivity | reflexivity].
Qed.

Lemma with_boll_obv_inj (b b' : BOLLInfo) (o o' : OBVInfo) (r : TrendAnalysisResult) :
  Ok (with_obv o (with_boll b r)) = Ok (with_obv o' (with_boll b' r)) -> b = b' /\ o = o'.
Proof. intro H. injection H. auto. Qed.

(** C7, counterexample: twenty closes with mean 300 and standard deviation
    2, the last one 295, give the bands 304, 300, 296.  The price is below
    0.98 * 304, at most 1.02 * 296 and at least 0.96 * 304: the source tests
    the lower break before the approach of the upper band and stores
    LOWER_BREAK; the stated order gives UPPER_NEAR. *)
Lemma C7_counterexample : ~ C7_as_stated.
Proof.
  intro H.
  assert (E : exists r,
             analyze sqrt_floor (__init__ None) (Some boll_bars) EmptyString = Ok r
             /\ boll_status (r_boll r) = BOLLStatus.LOWER_BREAK
             /\ boll_state_as_stated (current_price (r_ma r)) (boll_upper (r_boll r))
                  (boll_mid (r_boll r)) (boll_lower (r_boll r))
                = BOLLStatus.UPPER_NEAR).
  { eexists. split; [vm_compute; reflexivity|]. split; reflexivity. }
  destruct E as (r & E & Hs & Hc).
  specialize (H sqrt_floor (__init__ None) boll_bars EmptyString r
                ltac:(vm_compute; lia) E).
  rewrite Hs, Hc in H. discriminate H.
Qed.

(** C7, amended: on at least 20 bars the Bollinger label is the first match
    of: breaking upper (price >= 0.98 upper), breaking lower (price <= 1.02
    lower), near upper (price >= 0.96 upper), near lower (price <= 1.04
    lower), above-mid (mid <= price < upper), below-mid (lower < price < mid),
    normal; the bands being those of the latest bar. *)
Theorem C7_bollinger_breaks_before_approaches (sqrt : Q -> Q)
    (score_weights : option (list Z)) (bars : list Bar) (code : string) :
  (20 <= List.length bars)%nat ->
  let df := frame_of sqrt bars in
  let latest := (len df - 1)%nat in
  exists r,
    analyze sqrt (__init__ score_weights) (Some bars) code = Ok r
    /\ boll_upper (r_boll r) = cell (BOLL_UPPER df) latest
    /\ boll_mid (r_boll r) = cell (BOLL_MID df) latest
    /\ boll_lower (r_boll r) = cell (BOLL_LOWER df) latest
    /\ boll_status (r_boll r)
       = boll_state_breaks_first (current_price (r_ma r)) (boll_upper (r_boll r))
           (boll_mid (r_boll r)) (boll_lower (r_boll r)).
Proof.
  intros Hn df latest.
  destruct (analyze_stages sqrt (__init__ score_weights) bars code Hn
              (init_weights_length score_weights))
    as (t & b & v & s & m & rs & k & bo & o & sg & Hst & E).
  fold df in Hst, E. rewrite E. eexists; split; [reflexivity|].
  unfold assemble; cbn [r_ma r_boll].
  assert (Hdf : (20 <= len df)%nat) by (unfold df; rewrite len_frame_of; lia).
  unfold stages in Hst; cbv zeta in Hst.
  destruct Hst as (_ & _ & _ & _ & _ & _ & _ & Hb & _).
  match type of Hb with
  | _analyze_boll _ ?r7 = _ =>
      destruct (_analyze_boll_fields df r7 Hdf) as (pos & o' & Eb & _)
  end.
  rewrite Eb in Hb. apply with_boll_obv_inj in Hb. destruct Hb as [<- _].
  cbn [boll_upper boll_mid boll_lower boll_status].
  repeat split. apply boll_state_order.
Qed.

Lemma C7_bollinger_breaks_before_approaches_witness :
  let df := frame_of sqrt_floor boll_bars in
  let latest := (len df - 1)%nat in
  exists r,
    analyze sqrt_floor (__init__ None) (Some boll_bars) EmptyString = Ok r
    /\ boll_upper (r_boll r) = cell (BOLL_UPPER df) latest
    /\ boll_mid (r_boll r) = cell (BOLL_MID df) latest
    /\ boll_lower (r_boll r) = cell (BOLL_LOWER df) latest
    /\ boll_status (r_boll r)
       = boll_state_breaks_first (current_price (r_ma r)) (boll_upper (r_boll r))
           (boll_mid (r_boll r)) (boll_lower (r_boll r)).
Proof.
  apply C7_bollinger_breaks_before_approaches. vm_compute. lia.
Defined.

(** ** Series of identical bars *)

Lemma insert_by_date_Forall (P : Bar -> Prop) (b : Bar) (l : list Bar) :
  P b -> Forall P l -> Forall P (insert_by_date b l).
Proof.
  intros Hb H. induction H as [|x l Hx Hl IH]; cbn.
  - constructor; [exact Hb | constructor].
  - destruct (date b <? date x); repeat constructor; assumption.
Qed.

Lemma sort_values_date_Forall (P : Bar -> Prop) (l : list Bar) :
  Forall P l -> Forall P (sort_values_date l).
Proof.
  unfold sort_values_date.
  assert (G : forall acc, Forall P acc -> Forall P l ->
                          Forall P (fold_left (fun a b => insert_by_date b a) l acc)).
  { induction l as [|x l IH]; intros acc Ha H; cbn; [exact Ha|].
    inversion H; subst. apply IH; [apply insert_by_date_Forall|]; assumption. }
  intro H. apply G; [constructor | exact H].
Qed.

Lemma col_const (f : Bar -> Q) (c : Q) (bars : list Bar) :
  Forall (fun b => f b = c) bars -> col f bars = repeat (Fin c) (List.length bars).
Proof.
  intro H. induction H as [|x l Hx Hl IH]; cbn; [reflexivity|].
  now rewrite Hx, <- IH.
Qed.

Lemma repeat_skipn {A : Type} (x : A) (k m : nat) :
  skipn k (repeat x m) = repeat x (m - k).
Proof.
  revert k; induction m as [|m IH]; intros [|k]; cbn; try reflexivity. apply IH.
Qed.

Lemma repeat_firstn {A : Type} (x : A) (k m : nat) :
  (k <= m)%nat -> firstn k (repeat x m) = repeat x k.
Proof.
  revert k; induction m as [|m IH]; intros [|k] H; cbn; try reflexivity; try lia.
  f_equal. apply IH. lia.
Qed.

Lemma window_repeat (x : fval) (n m i : nat) :
  (n <= i + 1)%nat -> (i < m)%nat -> window n (repeat x m) i = repeat x n.
Proof.
  intros Hn Hi. unfold window. rewrite repeat_skipn. apply repeat_firstn. lia.
Qed.

Lemma tail_slice_repeat (x : fval) (a b m : nat) :
  (b <= a <= m)%nat -> tail_slice a b (repeat x m) = repeat x (a - b).
Proof.
  intro H. unfold tail_slice. rewrite repeat_length, repeat_skipn.
  replace (m - (m - a))%nat with a by lia.
  replace (m - b - (m - a))%nat with (a - b)%nat by lia.
  apply repeat_firstn. lia.
Qed.

Lemma is_fin_feqv (x : fval) (c : Q) : is_fin x c -> x =f= Fin c.
Proof. intros (a & -> & H). exact H. Qed.

Lemma fsum_repeat (c : Q) (n : nat) :
  is_fin (fsum (repeat (Fin c) n)) (inject_Z (Z.of_nat n) * c).
Proof.
  unfold fsum.
  assert (G : forall acc, is_fin (fold_left fadd (repeat (Fin c) n) (Fin acc))
                            (acc + inject_Z (Z.of_nat n) * c)).
  { induction n as [|n IH]; intro acc.
    - exists acc. split; [reflexivity|]. cbn. ring.
    - cbn [repeat fold_left fadd]. destruct (IH (acc + c)%Q) as (a & Ea & Ha).
      exists a. split; [exact Ea|]. rewrite Ha.
      rewrite Nat2Z.inj_succ. unfold Z.succ. rewrite inject_Z_plus. ring. }
  destruct (G 0%Q) as (a & Ea & Ha). exists a. split; [exact Ea|].
  rewrite Ha. ring.
Qed.

Lemma fdiv_fin_nat (a : Q) (n : nat) :
  (0 < n)%nat -> fdiv (Fin a) (fz (Z.of_nat n)) = Fin (a / inject_Z (Z.of_nat n)).
Proof.
  intro H. unfold fdiv, fz.
  destruct (Qeq_bool (inject_Z (Z.of_nat n)) 0) eqn:E; [|reflexivity].
  apply Qeq_bool_iff in E. exfalso.
  assert (Hq : (inject_Z 0 < inject_Z (Z.of_nat n))%Q) by (rewrite <- Zlt_Qlt; lia).
  unfold inject_Z at 1 in Hq. rewrite E in Hq. discriminate Hq.
Qed.

Lemma fmean_repeat (c : Q) (n : nat) :
  (0 < n)%nat -> is_fin (fmean (repeat (Fin c) n)) c.
Proof.
  intro H. destruct n as [|n]; [lia|].
  unfold fmean. cbn [repeat]. change (Fin c :: repeat (Fin c) n) with (repeat (Fin c) (S n)).
  rewrite repeat_length.
  destruct (fsum_repeat c (S n)) as (s & Es & Hs). rewrite Es.
  rewrite fdiv_fin_nat by lia.
  eexists; split; [reflexivity|]. rewrite Hs.
  assert (Hq : (0 < inject_Z (Z.of_nat (S n)))%Q).
  { change (inject_Z 0 < inject_Z (Z.of_nat (S n)))%Q. rewrite <- Zlt_Qlt. lia. }
  field. intro E. rewrite E in Hq. discriminate Hq.
Qed.

Lemma rolling_mean_repeat (c : Q) (n m i : nat) :
  (0 < n <= i + 1)%nat -> (i < m)%nat ->
  is_fin (cell (rolling n fmean (repeat (Fin c) m)) i) c.
Proof.
  intros Hn Hi. rewrite cell_rolling by (rewrite repeat_length; exact Hi).
  replace (n <=? i + 1)%nat with true by (symmetry; apply Nat.leb_le; lia).
  rewrite window_repeat by lia. apply fmean_repeat. lia.
Qed.

(** The rolling standard deviation of a constant series is zero, for a
    square root that sends zero to zero. *)
Lemma fstd_repeat (sqrt : Q -> Q) (c : Q) (n : nat) :
  (forall x, x == 0 -> sqrt x == 0)%Q ->
  (1 < n)%nat -> is_fin (fstd sqrt (repeat (Fin c) n)) 0.
Proof.
  intros Hsqrt Hn. unfold fstd.
  destruct (fmean_repeat c n ltac:(lia)) as (a & Ea & Ha). rewrite Ea.
  rewrite map_repeat, repeat_length.
  cbn [fsub fneg fadd fmul].
  destruct (fsum_repeat ((c + - a) * (c + - a)) n) as (s & Es & Hs). rewrite Es.
  replace (Z.of_nat n - 1) with (Z.of_nat (n - 1)) by lia.
  rewrite fdiv_fin_nat by lia.
  assert (Hz : (s / inject_Z (Z.of_nat (n - 1)) == 0)%Q).
  { rewrite Hs, Ha. unfold Qdiv. ring. }
  unfold fsqrt.
  replace (Qltb (s / inject_Z (Z.of_nat (n - 1))) 0) with false
    by (symmetry; apply Qltb_ge; rewrite Hz; apply Qle_refl).
  eexists; split; [reflexivity|]. apply Hsqrt, Hz.
Qed.

(** The columns of the frame of a series. *)
Lemma frame_columns (sqrt : Q -> Q) (bars : list Bar) :
  let df := calculate sqrt bars in
  let c := col close bars in
  MA5 df = rolling 5 fmean c
  /\ MA10 df = rolling 10 fmean c
  /\ MA20 df = rolling 20 fmean c
  /\ BOLL_MID df = rolling 20 fmean c
  /\ BOLL_UPPER df
     = map2 fadd (rolling 20 fmean c)
         (map (fmul (Fin BOLL_STD)) (fillna (fz 0) (rolling 20 (fstd sqrt) c)))
  /\ BOLL_LOWER df
     = map2 fsub (rolling 20 fmean c)
         (map (fmul (Fin BOLL_STD)) (fillna (fz 0) (rolling 20 (fstd sqrt) c))).
Proof. repeat split. Qed.

(** ** C8: a history shorter than an indicator's window *)

Lemma with_macd_inj (m m' : MACDInfo) (r : TrendAnalysisResult) :
  Ok (with_macd m r) = Ok (with_macd m' r) -> m = m'.
Proof. intro H. injection H. auto. Qed.

Lemma with_rsi_inj (m m' : RSIInfo) (r : TrendAnalysisResult) :
  Ok (with_rsi m r) = Ok (with_rsi m' r) -> m = m'.
Proof. intro H. injection H. auto. Qed.

(** C8, counterexample: [MACDStatus] has no neutral member; the label of a
    skipped MACD classifier is the default of the dataclass, [BULLISH], whose
    value is the word for "bullish", and its raw score is the entry 6 of that
    label, not the fallback 5 of the lookup. *)
Lemma C8_counterexample : ~ C8_as_stated.
Proof.
  intro H.
  assert (E : exists r,
             analyze sqrt_floor (__init__ None) (Some rising20) EmptyString = Ok r
             /\ macd_status (r_macd r) = MACDStatus.BULLISH).
  { eexists. split; [vm_compute; reflexivity | reflexivity]. }
  destruct E as (r & E & Hs).
  destruct (H sqrt_floor None rising20 EmptyString r ltac:(vm_compute; lia) E) as [_ Hv].
  rewrite Hs in Hv. discriminate Hv.
Qed.

(** C8, amended: on 20 to 25 bars the MACD classifier is skipped: its signal
    text is the "insufficient data" message, its label and numbers stay at
    the defaults of the dataclass (label BULLISH, which has no neutral
    counterpart; DIF, DEA and bar 0), and the aggregation scores it with the
    table entry 6 of that label.  On 20 to 23 bars the RSI classifier is
    skipped as well: same message, label NEUTRAL, table entry 4.  The
    aggregation still runs: the composite score is the sum of the eight
    sub-scores and the recommendation follows from it. *)
Theorem C8_skipped_classifier_keeps_default_label (sqrt : Q -> Q)
    (score_weights : option (list Z)) (bars : list Bar) (code : string) :
  (20 <= List.length bars < 26)%nat ->
  exists r s,
    analyze sqrt (__init__ score_weights) (Some bars) code = Ok r
    /\ r_macd r = mkMACDInfo (fz 0) (fz 0) (fz 0) MACDStatus.BULLISH insufficient_data
    /\ macd_raw r = 6
    /\ ((List.length bars < 24)%nat ->
        r_rsi r = mkRSIInfo (fz 0) (fz 0) (fz 0) RSIStatus.NEUTRAL insufficient_data
        /\ rsi_raw r = 4)
    /\ sub_scores (__init__ score_weights) r = Ok s
    /\ signal_score (r_signal r) = total s
    /\ buy_signal (r_signal r)
       = recommendation_rule (total s) (trend_status (r_trend r)).
Proof.
  intros [Hn Hlt].
  pose proof (init_weights_length score_weights) as Hl.
  destruct (analyze_stages sqrt (__init__ score_weights) bars code Hn Hl)
    as (t & b & v & sp & m & rs & k & bo & o & sg & Hst & E).
  set (df := frame_of sqrt bars) in *.
  assert (Hdf : len df = List.length bars) by apply len_frame_of.
  unfold stages in Hst; cbv zeta in Hst.
  destruct Hst as (_ & _ & _ & _ & Hm & Hr & _ & _ & Hsig).
  (* the MACD stage *)
  unfold _analyze_macd in Hm.
  replace (len df <? MACD_SLOW)%nat with true in Hm
    by (symmetry; apply Nat.ltb_lt; unfold MACD_SLOW; lia).
  apply with_macd_inj in Hm. cbn in Hm. subst m.
  (* the aggregation *)
  destruct (__init__ score_weights) as [w] eqn:Ew. cbn [_weights] in Hl.
  match type of Hsig with
  | _generate_signal _ ?r8 = _ =>
      destruct (_generate_signal_eq w r8 Hl) as (s & Es & Eg)
  end.
  rewrite Eg in Hsig. apply with_signal_inj in Hsig. subst sg.
  rewrite E. eexists. exists s.
  split; [reflexivity|]. split; [reflexivity|]. split; [reflexivity|].
  split.
  - intro H24. unfold _analyze_rsi in Hr.
    replace (len df <? RSI_LONG)%nat with true in Hr
      by (symmetry; apply Nat.ltb_lt; unfold RSI_LONG; lia).
    apply with_rsi_inj in Hr. cbn in Hr. subst rs. split; reflexivity.
  - split; [exact Es|]. split; [reflexivity|].
    cbn. apply decide_buy_signal_rule.
Qed.

Lemma C8_skipped_classifier_keeps_default_label_witness :
  exists r s,
    analyze sqrt_floor (__init__ None) (Some rising20) EmptyString = Ok r
    /\ r_macd r = mkMACDInfo (fz 0) (fz 0) (fz 0) MACDStatus.BULLISH insufficient_data
    /\ macd_raw r = 6
    /\ ((List.length rising20 < 24)%nat ->
        r_rsi r = mkRSIInfo (fz 0) (fz 0) (fz 0) RSIStatus.NEUTRAL insufficient_data
        /\ rsi_raw r = 4)
    /\ sub_scores (__init__ None) r = Ok s
    /\ signal_score (r_signal r) = total s
    /\ buy_signal (r_signal r)
       = recommendation_rule (total s) (trend_status (r_trend r)).
Proof.
  apply C8_skipped_classifier_keeps_default_label. vm_compute. lia.
Defined.

(** ** Flat series: the latest cells *)

Lemma cell_repeat (x : fval) (n i : nat) : (i < n)%nat -> cell (repeat x n) i = x.
Proof.
  unfold cell. revert i; induction n as [|n IH]; intros [|i] H; cbn; try lia.
  - reflexivity.
  - apply IH. lia.
Qed.

Lemma Qeq_bool_false (x y : Q) : ~ (x == y)%Q -> Qeq_bool x y = false.
Proof.
  intro H. destruct (Qeq_bool x y) eqn:E; [|reflexivity].
  apply Qeq_bool_iff in E. contradiction.
Qed.

Section Flat.

Variable sqrt : Q -> Q.
Variable bars : list Bar.
Variable c : Q.

Hypothesis Hlen : (20 <= List.length bars)%nat.
Hypothesis Hclose : Forall (fun b => close b = c) bars.

Local Abbreviation df := (frame_of sqrt bars).
Local Abbreviation latest := (len (frame_of sqrt bars) - 1)%nat.

Lemma flat_len : len df = List.length bars.
Proof. apply len_frame_of. Qed.

Lemma flat_close_column : col close (rows df) = repeat (Fin c) (len df).
Proof.
  unfold len. apply col_const. unfold frame_of. rewrite rows_calculate.
  apply sort_values_date_Forall. exact Hclose.
Qed.

Lemma flat_price : cell (col close (rows df)) latest = Fin c.
Proof.
  rewrite flat_close_column. apply cell_repeat.
  rewrite flat_len. lia.
Qed.

Lemma flat_rolling_mean (n : nat) :
  (0 < n <= 20)%nat ->
  is_fin (cell (rolling n fmean (col close (rows df))) latest) c.
Proof.
  intro Hn. rewrite flat_close_column. apply rolling_mean_repeat.
  - rewrite flat_len. lia.
  - rewrite flat_len. lia.
Qed.

Lemma flat_ma5 : is_fin (cell (MA5 df) latest) c.
Proof. apply (flat_rolling_mean 5). lia. Qed.

Lemma flat_ma10 : is_fin (cell (MA10 df) latest) c.
Proof. apply (flat_rolling_mean 10). lia. Qed.

Lemma flat_ma20 : is_fin (cell (MA20 df) latest) c.
Proof. apply (flat_rolling_mean 20). lia. Qed.

Hypothesis Hsqrt : forall x, (x == 0 -> sqrt x == 0)%Q.

Lemma flat_std :
  is_fin (cell (rolling 20 (fstd sqrt) (col close (rows df))) latest) 0.
Proof.
  rewrite flat_close_column.
  rewrite cell_rolling by (rewrite repeat_length; rewrite flat_len; lia).
  replace (20 <=? latest + 1)%nat with true
    by (symmetry; apply Nat.leb_le; rewrite flat_len; lia).
  rewrite window_repeat by (rewrite flat_len; lia).
  apply fstd_repeat; [exact Hsqrt | lia].
Qed.

Lemma flat_bands :
  is_fin (cell (BOLL_MID df) latest) c
  /\ exists u l, cell (BOLL_UPPER df) latest = Fin u
                 /\ cell (BOLL_LOWER df) latest = Fin l
                 /\ (u == c)%Q /\ (l == c)%Q.
Proof.
  destruct (frame_columns sqrt (sort_values_date bars))
    as (_ & _ & _ & Em & Eu & El).
  fold (frame_of sqrt bars) in Em, Eu, El. fold df in Em, Eu, El.
  change (col close (sort_values_date bars)) with (col close (rows df)) in Em, Eu, El.
  assert (Hi : (latest < len df)%nat) by (rewrite flat_len; lia).
  assert (Hc : List.length (col close (rows df)) = len df) by apply col_length.
  assert (Hmean : List.length (rolling 20 fmean (col close (rows df))) = len df)
    by (rewrite rolling_length; exact Hc).
  assert (Hstd : List.length (map (fmul (Fin BOLL_STD))
                     (fillna (fz 0) (rolling 20 (fstd sqrt) (col close (rows df)))))
                 = len df)
    by (unfold fillna; rewrite !length_map, rolling_length; exact Hc).
  pose proof (flat_rolling_mean 20 ltac:(lia)) as (a & Ea & Ha).
  pose proof flat_std as (d & Ed & Hd).
  split; [rewrite Em; exists a; split; assumption|].
  rewrite Eu, El.
  rewrite !cell_map2 by lia.
  rewrite cell_map by (unfold fillna; rewrite length_map, rolling_length; lia).
  unfold fillna. rewrite cell_map by (rewrite rolling_length; lia).
  rewrite Ea, Ed. cbn [isnan fmul fadd fsub fneg].
  do 2 eexists. split; [reflexivity|]. split; [reflexivity|].
  unfold BOLL_STD. split; rewrite Ha, Hd; ring.
Qed.

End Flat.

(** ** Flat series: the stages *)

(** The bias against an average equal to the price is zero (or stays at the
    zero it had when the average is not positive). *)
Lemma bias_of_equal (price m old : fval) (c : Q) :
  price = Fin c -> is_fin m c -> old =f= fz 0 ->
  exists x, (if fgt m (fz 0) then py_pct (fsub price m) m else Ok old) = Ok x
            /\ x =f= fz 0.
Proof.
  intros -> (a & -> & Ha) Hold.
  destruct (fgt (Fin a) (fz 0)) eqn:E; [|exists old; split; [reflexivity | exact Hold]].
  rewrite (py_pct_pos _ _ E).
  pose proof (fgt_zero_nonzero _ E) as Hnz. cbn in Hnz.
  eexists; split; [reflexivity|].
  unfold fdiv, fsub, fneg, fadd. rewrite Hnz. cbn.
  rewrite Ha. apply Qeq_bool_neq in Hnz. rewrite Ha in Hnz.
  unfold inject_Z. field. exact Hnz.
Qed.

Lemma _calculate_bias_flat (r : TrendAnalysisResult) (c : Q) :
  current_price (r_ma r) = Fin c ->
  is_fin (ma5 (r_ma r)) c -> is_fin (ma10 (r_ma r)) c -> is_fin (ma20 (r_ma r)) c ->
  r_bias r = mkBiasInfo (fz 0) (fz 0) (fz 0) ->
  exists b5 b10 b20,
    _calculate_bias r = Ok (with_bias (mkBiasInfo b5 b10 b20) r)
    /\ b5 =f= fz 0 /\ b10 =f= fz 0 /\ b20 =f= fz 0.
Proof.
  intros Hp H5 H10 H20 Hb. unfold _calculate_bias. rewrite Hb. cbn [bias_ma5 bias_ma10 bias_ma20].
  assert (Hz : fz 0 =f= fz 0) by reflexivity.
  destruct (bias_of_equal _ _ (fz 0) c Hp H5 Hz) as (b5 & E5 & Hb5).
  destruct (bias_of_equal _ _ (fz 0) c Hp H10 Hz) as (b10 & E10 & Hb10).
  destruct (bias_of_equal _ _ (fz 0) c Hp H20 Hz) as (b20 & E20 & Hb20).
  rewrite E5. cbn [bind]. rewrite E10. cbn [bind]. rewrite E20. cbn [bind].
  exists b5, b10, b20. repeat split; assumption.
Qed.

(** Equal positive volumes: the ratio to the five-bar average is 1 and the
    label is NORMAL. *)
Lemma _analyze_volume_flat (df : DataFrame) (r : TrendAnalysisResult) (v : Q) :
  (6 <= len df)%nat ->
  col volume (rows df) = repeat (Fin v) (len df) ->
  (0 < v)%Q ->
  exists ratio,
    _analyze_volume df r
    = Ok (with_volume (mkVolumeInfo VolumeStatus.NORMAL ratio (lit "量能正常")) r)
    /\ ratio =f= fz 1.
Proof.
  intros Hn Hv Hpos. unfold _analyze_volume.
  replace (len df <? 5)%nat with false by (symmetry; apply Nat.ltb_ge; lia).
  rewrite (iloc_last df (-1)), (iloc_last df (-2)) by lia. cbn [bind].
  rewrite Hv. rewrite tail_slice_repeat by lia.
  destruct (fmean_repeat v (6 - 1) ltac:(lia)) as (a & Ea & Ha). rewrite Ea.
  rewrite cell_repeat by (cbn; lia).
  assert (Hapos : (0 < a)%Q) by (rewrite Ha; exact Hpos).
  assert (Eg : fgt (Fin a) (fz 0) = true) by (apply Qltb_lt; exact Hapos).
  rewrite Eg.
  assert (Enz : Qeq_bool a 0 = false) by (apply Qeq_bool_false; lra).
  assert (Ed : fdiv (Fin v) (Fin a) = Fin (v / a)) by (unfold fdiv; rewrite Enz; reflexivity).
  rewrite Ed.
  assert (H1 : (v / a == 1)%Q) by (rewrite Ha; field; lra).
  assert (Eh : fge (Fin (v / a)) VOLUME_HEAVY_RATIO = false).
  { unfold fge, fle, VOLUME_HEAVY_RATIO, flt, feq. apply orb_false_iff. split.
    - apply Qltb_ge. rewrite H1. lra.
    - apply Qeq_bool_false. rewrite H1. lra. }
  assert (Es : fle (Fin (v / a)) VOLUME_SHRINK_RATIO = false).
  { unfold fle, VOLUME_SHRINK_RATIO, flt, feq. apply orb_false_iff. split.
    - apply Qltb_ge. rewrite H1. lra.
    - apply Qeq_bool_false. rewrite H1. lra. }
  rewrite Eh, Es.
  eexists; split; [reflexivity|]. exact H1.
Qed.

(** ** C10: the support levels *)

(** "Price within the tolerance above an average": the test of
    [_analyze_support_resistance] for MA5 and MA10. *)
Lemma support_levels_eq (df : DataFrame) (result : TrendAnalysisResult) :
  let m := r_ma result in
  let price := current_price m in
  let before := support_levels (r_support result) in
  let near x :=
    fgt x (fz 0)
    && (fle (fdiv (fabs (fsub price x)) x) MA_SUPPORT_TOLERANCE && fge price x) in
  let s5 := if near (ma5 m) then [ma5 m] else [] in
  let s10 :=
    if near (ma10 m) && negb (fmember (ma10 m) (before ++ s5)) then [ma10 m] else [] in
  let s20 := if fgt (ma20 m) (fz 0) && fge price (ma20 m) then [ma20 m] else [] in
  exists s,
    _analyze_support_resistance df result = Ok (with_support s result)
    /\ support_levels s = before ++ s5 ++ s10 ++ s20
    /\ support_ma5 s = (support_ma5 (r_support result) || near (ma5 m))
    /\ support_ma10 s = (support_ma10 (r_support result) || near (ma10 m)).
Proof.
  intros m price before near s5 s10 s20.
  unfold _analyze_support_resistance. fold m price.
  subst s5 s10 s20 near before. cbv beta.
  destruct (fgt (ma5 m) (fz 0)) eqn:E5;
    [rewrite (py_truediv_pos _ _ E5)|]; cbn [bind andb];
    (destruct (fgt (ma10 m) (fz 0)) eqn:E10;
     [rewrite (py_truediv_pos _ _ E10)|]); cbn [bind andb];
    repeat match goal with
           | |- context [if ?c then _ else _] =>
               lazymatch c with
               | context [if _ then _ else _] => fail
               | _ => destruct c eqn:?
               end
           end;
    cbn [bind negb andb orb support_levels support_ma5 support_ma10 resistance_levels] in *;
    try discriminate;
    eexists; (split; [reflexivity|]);
    cbn [support_levels support_ma5 support_ma10];
    rewrite ?app_nil_r in *;
    repeat match goal with
           | H : ?c = _ |- context [if ?c then _ else _] => rewrite H
           end;
    cbn [app]; rewrite ?app_nil_r, <- ?app_assoc, ?orb_true_r, ?orb_false_r; cbn [app];
    repeat split; try reflexivity; try congruence.
Qed.

(** ** C9: twenty identical bars *)

Lemma with_bias_inj (b b' : BiasInfo) (r : TrendAnalysisResult) :
  Ok (with_bias b r) = Ok (with_bias b' r) -> b = b'.
Proof. intro H. injection H. auto. Qed.

Lemma with_volume_inj (v v' : VolumeInfo) (r : TrendAnalysisResult) :
  Ok (with_volume v r) = Ok (with_volume v' r) -> v = v'.
Proof. intro H. injection H. auto. Qed.

Lemma with_support_inj (s s' : SupportInfo) (r : TrendAnalysisResult) :
  Ok (with_support s r) = Ok (with_support s' r) -> s = s'.
Proof. intro H. injection H. auto. Qed.

Lemma sqrt_floor_zero (x : Q) : (x == 0 -> sqrt_floor x == 0)%Q.
Proof.
  intro H. unfold sqrt_floor.
  replace (Qred x) with (Qred 0) by (symmetry; apply Qred_complete; exact H).
  reflexivity.
Qed.

Lemma identical_bars_close (o h l c v : Q) (bars : list Bar) :
  identical_bars o h l c v bars -> Forall (fun b => close b = c) bars.
Proof. apply Forall_impl. intros b H. apply H. Qed.

Lemma identical_bars_volume (o h l c v : Q) (bars : list Bar) :
  identical_bars o h l c v bars -> Forall (fun b => volume b = v) bars.
Proof. apply Forall_impl. intros b H. apply H. Qed.

Lemma flat20_identical (v : Q) : identical_bars 10 10 10 10 v (flat20 v).
Proof. unfold identical_bars, flat20. cbn. repeat constructor. Qed.

(** C9, counterexample: twenty bars at 10 with volume 0.  The five-bar
    average volume is 0, the ratio keeps its default 0, which is at most
    0.7, and the price did not rise: the label is SHRINK_VOLUME_DOWN. *)
Lemma C9_counterexample : ~ C9_as_stated.
Proof.
  intro H.
  destruct (H sqrt_floor None (flat20 0) EmptyString 10%Q 10%Q 10%Q 10%Q 0%Q
              sqrt_floor_zero eq_refl (flat20_identical 0)
              ltac:(reflexivity) ltac:(discriminate))
    as (r & E & Hv & _).
  assert (E' : exists r',
             analyze sqrt_floor (__init__ None) (Some (flat20 0)) EmptyString = Ok r'
             /\ volume_status (r_volume r') = VolumeStatus.SHRINK_VOLUME_DOWN).
  { eexists. split; [vm_compute; reflexivity | reflexivity]. }
  destruct E' as (r' & E' & Hv').
  rewrite E' in E. injection E as <-. rewrite Hv' in Hv. discriminate Hv.
Qed.

(** C9, amended: for twenty identical bars with positive volume the
    analysis returns (nothing is raised), the volume label is NORMAL, MA5,
    MA10 and MA20 equal the close, the three bias values are 0, the Bollinger
    band width is 0 and the position stays at 0. *)
Theorem C9_flat_market (sqrt : Q -> Q) (score_weights : option (list Z))
    (bars : list Bar) (code : string) (o h l c v : Q) :
  (forall x, x == 0 -> sqrt x == 0)%Q ->
  List.length bars = 20%nat ->
  identical_bars o h l c v bars ->
  (0 < v)%Q ->
  exists r, analyze sqrt (__init__ score_weights) (Some bars) code = Ok r
            /\ flat_outcome c r.
Proof.
  intros Hsqrt Hlen Hid Hv.
  assert (Hn : (20 <= List.length bars)%nat) by lia.
  pose proof (identical_bars_close _ _ _ _ _ _ Hid) as Hclose.
  pose proof (init_weights_length score_weights) as Hl.
  destruct (analyze_stages sqrt (__init__ score_weights) bars code Hn Hl)
    as (t & b & vi & sp & m & rs & k & bo & ob & sg & Hst & E).
  set (df := frame_of sqrt bars) in *.
  assert (Hdf : len df = List.length bars) by apply len_frame_of.
  unfold stages in Hst; cbv zeta in Hst.
  destruct Hst as (_ & Hb & Hvol & _ & _ & _ & _ & Hbo & _).
  rewrite E. eexists; split; [reflexivity|].
  pose proof (flat_ma5 sqrt bars c Hn Hclose) as H5.
  pose proof (flat_ma10 sqrt bars c Hn Hclose) as H10.
  pose proof (flat_ma20 sqrt bars c Hn Hclose) as H20.
  pose proof (flat_price sqrt bars c Hn Hclose) as Hp.
  fold df in H5, H10, H20, Hp.
  (* the bias stage *)
  destruct (_calculate_bias_flat (with_trend t (first_result df code)) c Hp H5 H10 H20 eq_refl)
    as (b5 & b10 & b20 & Eb & Hb5 & Hb10 & Hb20).
  rewrite Eb in Hb. apply with_bias_inj in Hb. subst b.
  (* the volume stage *)
  assert (Hvc : col volume (rows df) = repeat (Fin v) (len df)).
  { unfold len. apply col_const. unfold df, frame_of. rewrite rows_calculate.
    apply sort_values_date_Forall. exact (identical_bars_volume _ _ _ _ _ _ Hid). }
  match type of Hvol with
  | _analyze_volume _ ?r2 = _ =>
      destruct (_analyze_volume_flat df r2 v ltac:(lia) Hvc Hv) as (ratio & Ev & _)
  end.
  rewrite Ev in Hvol. apply with_volume_inj in Hvol. subst vi.
  (* the Bollinger stage *)
  match type of Hbo with
  | _analyze_boll _ ?r7 = _ =>
      destruct (_analyze_boll_fields df r7 ltac:(lia)) as (pos & ob' & Ebo & Hpos)
  end.
  rewrite Ebo in Hbo. apply with_boll_obv_inj in Hbo. destruct Hbo as [<- _].
  destruct (flat_bands sqrt bars c Hn Hclose Hsqrt) as (_ & u & lo & Eu & Elo & Hu & Hlo).
  fold df in Eu, Elo. rewrite Eu, Elo in Hpos.
  assert (Hw : (u + - lo == 0)%Q) by (rewrite Hu, Hlo; ring).
  assert (Epos : pos = fz 0).
  { apply Hpos. cbn. apply Qltb_ge. rewrite Hw. apply Qle_refl. }
  unfold flat_outcome, assemble.
  cbn [r_volume r_ma r_bias r_boll volume_status bias_ma5 bias_ma10 bias_ma20
       boll_upper boll_lower boll_position].
  split; [reflexivity|].
  split; [apply is_fin_feqv; exact H5|].
  split; [apply is_fin_feqv; exact H10|].
  split; [apply is_fin_feqv; exact H20|].
  split; [exact Hb5|]. split; [exact Hb10|]. split; [exact Hb20|].
  split; [|exact Epos].
  rewrite Eu, Elo. exact Hw.
Qed.

Lemma C9_flat_market_witness :
  exists r, analyze sqrt_floor (__init__ None) (Some (flat20 1000)) EmptyString = Ok r
            /\ flat_outcome 10 r.
Proof.
  apply (C9_flat_market sqrt_floor None (flat20 1000) EmptyString 10 10 10 10 1000).
  - exact sqrt_floor_zero.
  - reflexivity.
  - apply flat20_identical.
  - reflexivity.
Defined.

(** ** C10: a level listed twice *)

(** A price equal to a positive average is within the tolerance above it. *)
Lemma near_equal (price x : fval) (c : Q) :
  price = Fin c -> is_fin x c -> (0 < c)%Q ->
  fgt x (fz 0)
  && (fle (fdiv (fabs (fsub price x)) x) MA_SUPPORT_TOLERANCE && fge price x) = true.
Proof.
  intros -> (a & -> & Ha) Hc.
  assert (Hapos : (0 < a)%Q) by (rewrite Ha; exact Hc).
  assert (Enz : Qeq_bool a 0 = false) by (apply Qeq_bool_false; lra).
  assert (E1 : fgt (Fin a) (fz 0) = true) by (apply Qltb_lt; exact Hapos).
  rewrite E1. cbn [andb fsub fneg fadd fabs].
  assert (Ed : fdiv (Fin (Qabs (c + - a))) (Fin a) = Fin (Qabs (c + - a) / a))
    by (unfold fdiv; rewrite Enz; reflexivity).
  rewrite Ed.
  assert (Hz : (Qabs (c + - a) / a == 0)%Q).
  { assert (Habs : (Qabs (c + - a) == 0)%Q).
    { rewrite Ha. setoid_replace (c + - c)%Q with 0%Q by ring. reflexivity. }
    rewrite Habs. field. lra. }
  assert (E2 : fle (Fin (Qabs (c + - a) / a)) MA_SUPPORT_TOLERANCE = true).
  { unfold fle, MA_SUPPORT_TOLERANCE, flt. apply orb_true_iff. left.
    apply Qltb_lt. rewrite Hz. reflexivity. }
  rewrite E2. cbn [andb].
  unfold fge, fle, feq. apply orb_true_iff. right.
  apply Qeq_bool_iff. exact Ha.
Qed.

(** C10: in the support stage MA5 is appended when the price is within the
    tolerance above it, MA10 under the same test but only when no equal
    level is in the list yet, and MA20 whenever price >= MA20 > 0, without
    that membership test.  For a positive constant close over at least 20
    bars the list of the analysis is therefore the level of MA5 followed by
    the level of MA20, both equal to the close. *)
Theorem C10_support_levels_can_repeat_a_level :
  (forall (df : DataFrame) (result : TrendAnalysisResult),
     let m := r_ma result in
     let price := current_price m in
     let before := support_levels (r_support result) in
     let near x :=
       fgt x (fz 0)
       && (fle (fdiv (fabs (fsub price x)) x) MA_SUPPORT_TOLERANCE && fge price x) in
     let s5 := if near (ma5 m) then [ma5 m] else [] in
     let s10 :=
       if near (ma10 m) && negb (fmember (ma10 m) (before ++ s5)) then [ma10 m] else [] in
     let s20 := if fgt (ma20 m) (fz 0) && fge price (ma20 m) then [ma20 m] else [] in
     exists r,
       _analyze_support_resistance df result = Ok r
       /\ support_levels (r_support r) = before ++ s5 ++ s10 ++ s20)
  /\ (forall (sqrt : Q -> Q) (score_weights : option (list Z)) (bars : list Bar)
             (code : string) (c : Q),
        (20 <= List.length bars)%nat ->
        Forall (fun b => close b = c) bars ->
        (0 < c)%Q ->
        exists r x y,
          analyze sqrt (__init__ score_weights) (Some bars) code = Ok r
          /\ support_levels (r_support r) = [x; y]
          /\ x =f= Fin c /\ y =f= Fin c
          /\ feq x y = true
          /\ support_ma5 (r_support r) = true
          /\ support_ma10 (r_support r) = true).
Proof.
  split.
  - intros df result m price before near s5 s10 s20.
    destruct (support_levels_eq df result) as (s & E & Hs & _).
    rewrite E. eexists; split; [reflexivity | exact Hs].
  - intros sqrt score_weights bars code c Hn Hclose Hc.
    pose proof (init_weights_length score_weights) as Hl.
    destruct (analyze_stages sqrt (__init__ score_weights) bars code Hn Hl)
      as (t & b & vi & sp & m & rs & k & bo & ob & sg & Hst & E).
    set (df := frame_of sqrt bars) in *.
    unfold stages in Hst; cbv zeta in Hst.
    destruct Hst as (_ & _ & _ & Hsp & _).
    pose proof (flat_ma5 sqrt bars c Hn Hclose) as H5.
    pose proof (flat_ma10 sqrt bars c Hn Hclose) as H10.
    pose proof (flat_ma20 sqrt bars c Hn Hclose) as H20.
    pose proof (flat_price sqrt bars c Hn Hclose) as Hp.
    fold df in H5, H10, H20, Hp.
    match type of Hsp with
    | _analyze_support_resistance _ ?r3 = _ =>
        destruct (support_levels_eq df r3) as (s & Es & Hs & Hs5 & Hs10)
    end.
    rewrite Es in Hsp. apply with_support_inj in Hsp. subst sp.
    cbv zeta in Hs, Hs5, Hs10.
    cbn [r_ma r_support with_volume with_bias with_trend first_result with_ma new_result
         ma5 ma10 ma20 current_price support_levels support_ma5 support_ma10] in Hs, Hs5, Hs10.
    change (len df - Z.to_nat (- -1))%nat with (len df - 1)%nat in Hs, Hs5, Hs10.
    rewrite (near_equal _ _ c Hp H5 Hc) in Hs, Hs5.
    rewrite (near_equal _ _ c Hp H10 Hc) in Hs, Hs10.
    rewrite Hp in Hs.
    destruct H5 as (a5 & E5 & Ha5). destruct H10 as (a10 & E10 & Ha10).
    destruct H20 as (a20 & E20 & Ha20).
    rewrite E5, E10, E20 in Hs.
    assert (Em : fmember (Fin a10) ([] ++ [Fin a5]) = true).
    { cbn. apply orb_true_iff. left. apply Qeq_bool_iff. rewrite Ha10, Ha5. reflexivity. }
    rewrite Em in Hs.
    assert (E20' : fgt (Fin a20) (fz 0) && fge (Fin c) (Fin a20) = true).
    { apply andb_true_iff. split.
      - apply Qltb_lt. rewrite Ha20. exact Hc.
      - unfold fge, fle, feq. apply orb_true_iff. right. apply Qeq_bool_iff. exact Ha20. }
    rewrite E20' in Hs. cbn in Hs.
    rewrite E. exists (assemble df code t b vi s m rs k bo ob sg), (Fin a5), (Fin a20).
    split; [reflexivity|]. unfold assemble. cbn [r_support].
    split; [exact Hs|]. split; [exact Ha5|]. split; [exact Ha20|].
    split; [cbn; apply Qeq_bool_iff; rewrite Ha5, Ha20; reflexivity|].
    split; [exact Hs5 | exact Hs10].
Qed.

Lemma C10_support_levels_can_repeat_a_level_witness :
  exists r x y,
    analyze sqrt_floor (__init__ None) (Some (flat20 1000)) EmptyString = Ok r
    /\ support_levels (r_support r) = [x; y]
    /\ x =f= Fin 10 /\ y =f= Fin 10
    /\ feq x y = true
    /\ support_ma5 (r_support r) = true
    /\ support_ma10 (r_support r) = true.
Proof.
  apply (proj2 C10_support_levels_can_repeat_a_level).
  - vm_compute. lia.
  - apply (identical_bars_close 10 10 10 10 1000). apply flat20_identical.
  - reflexivity.
Defined.

(* ================================================================== *)
(** * Further properties of the analyzer *)

(** ** The configuration *)

Lemma sum_default_weights : sum DEFAULT_WEIGHTS = 100.
Proof. reflexivity. Qed.

(** X1: whatever is passed to the constructor, the analyzer holds eight weights
    of sum 100; they are the given ones when those have length 8 and sum
    100, and constructing again from the held weights changes nothing. *)
Theorem X1_weights_invariant (score_weights : option (list Z)) :
  let self := __init__ score_weights in
  List.length (_weights self) = 8%nat
  /\ sum (_weights self) = 100
  /\ __init__ (Some (_weights self)) = self.
Proof.
  cbv zeta. unfold __init__.
  destruct score_weights as [w|]; cbn [_weights].
  - destruct (Nat.eqb (List.length w) 8) eqn:El; cbn [negb orb].
    + destruct (sum w =? 100) eqn:Es; cbn [negb _weights].
      * apply Nat.eqb_eq in El. apply Z.eqb_eq in Es.
        rewrite El, Es. cbn. repeat split; assumption.
      * repeat split.
    + repeat split.
  - repeat split.
Qed.

(** ** [analyze]: missing, empty and short frames *)

(** X2: with no frame or fewer than 20 rows [analyze] returns the defaults of
    the dataclass for the given code, with the single risk note "insufficient
    data": score 0, recommendation WAIT, trend CONSOLIDATION, no reasons,
    every number 0 - whatever the rows hold and whatever the weights. *)
Theorem X2_analyze_short_frame (sqrt : Q -> Q) (self : StockTrendAnalyzer)
    (df : option (list Bar)) (code : string) :
  match df with None => True | Some bars => (List.length bars < 20)%nat end ->
  exists r,
    analyze sqrt self df code = Ok r
    /\ r = with_signal
             (mkSignalInfo BuySignal.WAIT 0 [] [lit "数据不足，无法完成分析"])
             (new_result code)
    /\ signal_score (r_signal r) = 0
    /\ buy_signal (r_signal r) = BuySignal.WAIT
    /\ signal_reasons (r_signal r) = []
    /\ List.length (risk_factors (r_signal r)) = 1%nat
    /\ trend_status (r_trend r) = TrendStatus.CONSOLIDATION.
Proof.
  intro H. rewrite (analyze_short_frame_eq sqrt self df code H).
  eexists; split; [reflexivity|]. repeat split.
Qed.

Lemma X2_analyze_short_frame_witness :
  exists r,
    analyze sqrt_floor (__init__ None) (Some []) EmptyString = Ok r
    /\ r = with_signal
             (mkSignalInfo BuySignal.WAIT 0 [] [lit "数据不足，无法完成分析"])
             (new_result EmptyString)
    /\ signal_score (r_signal r) = 0
    /\ buy_signal (r_signal r) = BuySignal.WAIT
    /\ signal_reasons (r_signal r) = []
    /\ List.length (risk_factors (r_signal r)) = 1%nat
    /\ trend_status (r_trend r) = TrendStatus.CONSOLIDATION.
Proof.
  apply (X2_analyze_short_frame sqrt_floor (__init__ None) (Some []) EmptyString).
  cbn. lia.
Defined.

(** ** [analyze] raises nothing *)

Lemma analyze_returns (sqrt : Q -> Q) (score_weights : option (list Z))
    (df : option (list Bar)) (code : string) :
  exists r, analyze sqrt (__init__ score_weights) df code = Ok r
            /\ (match df with
                | Some bars =>
                    (20 <= List.length bars)%nat ->
                    exists t b v s m rs k bo o sg,
                      stages (frame_of sqrt bars) (__init__ score_weights) code
                        t b v s m rs k bo o sg
                      /\ r = assemble (frame_of sqrt bars) code t b v s m rs k bo o sg
                | None => True
                end).
Proof.
  destruct df as [bars|].
  - destruct (Nat.lt_ge_cases (List.length bars) 20) as [Hn|Hn].
    + rewrite (analyze_short_frame_eq sqrt _ (Some bars) code Hn).
      eexists; split; [reflexivity|]. intro. lia.
    + destruct (analyze_stages sqrt (__init__ score_weights) bars code Hn
                  (init_weights_length score_weights))
        as (t & b & v & s & m & rs & k & bo & o & sg & Hst & E).
      rewrite E. eexists; split; [reflexivity|]. intros _.
      exists t, b, v, s, m, rs, k, bo, o, sg. split; [exact Hst | reflexivity].
  - rewrite (analyze_short_frame_eq sqrt _ None code I). eexists; split; [reflexivity | exact I].
Qed.

(** X3: for every frame (missing, empty, short or long) and every weight
    configuration whose weights are within the float range, [analyze]
    returns a result for the given code: no index error and no division by
    zero escapes it. *)
Theorem X3_analyze_returns_a_result (sqrt : Q -> Q) (score_weights : option (list Z))
    (df : option (list Bar)) (symbol : string) :
  weights_in_float_range (__init__ score_weights) ->
  exists r, analyze sqrt (__init__ score_weights) df symbol = Ok r /\ code r = symbol.
Proof.
  intros _.
  destruct (analyze_returns sqrt score_weights df symbol) as (r & E & H).
  exists r. split; [exact E|].
  destruct df as [bars|].
  - destruct (Nat.lt_ge_cases (List.length bars) 20) as [Hn|Hn].
    + rewrite (analyze_short_frame_eq sqrt _ (Some bars) symbol Hn) in E.
      injection E as <-. reflexivity.
    + destruct (H Hn) as (t & b & v & s & m & rs & k & bo & o & sg & _ & ->). reflexivity.
  - rewrite (analyze_short_frame_eq sqrt _ None symbol I) in E. injection E as <-. reflexivity.
Qed.

Lemma X3_analyze_returns_a_result_witness :
  exists r, analyze sqrt_floor (__init__ None) (Some rising20) EmptyString = Ok r
            /\ code r = EmptyString.
Proof.
  apply (X3_analyze_returns_a_result sqrt_floor None (Some rising20) EmptyString).
  unfold weights_in_float_range. cbn. repeat constructor; vm_compute; discriminate.
Defined.

(** ** The aggregation with the default weights *)

Lemma py_round_Z (z : Z) : py_round (inject_Z z) = z.
Proof.
  unfold py_round. rewrite Qfloor_Z.
  assert (E : (inject_Z z - inject_Z z ?= 1 # 2)%Q = Lt).
  { apply Qlt_alt. setoid_replace (inject_Z z - inject_Z z)%Q with 0%Q by ring.
    reflexivity. }
  now rewrite E.
Qed.

Lemma py_round_comp (x y : Q) : (x == y)%Q -> py_round x = py_round y.
Proof.
  intro E. unfold py_round. rewrite (Qfloor_comp _ _ E).
  assert (E' : (x - inject_Z (Qfloor y) == y - inject_Z (Qfloor y))%Q) by now rewrite E.
  now rewrite (Qcompare_comp _ _ E' _ _ (Qeq_refl (1 # 2))).
Qed.

Lemma py_round_scaled_same (raw d : Z) :
  d <> 0 -> py_round (inject_Z (raw * d) / inject_Z d) = raw.
Proof.
  intro H. rewrite <- (py_round_Z raw) at 2.
  apply py_round_comp.
  rewrite inject_Z_mult. field. intro E0.
  apply H. apply (proj1 (inject_Z_injective d 0)). exact E0.
Qed.

Lemma generate_signal_default (result : TrendAnalysisResult) :
  let score :=
    trend_raw result + bias_raw result + vol_raw result + support_raw result
    + macd_raw result + rsi_raw result + kdj_raw result + boll_raw result in
  _generate_signal (mkAnalyzer DEFAULT_WEIGHTS) result
  = Ok (with_signal
          (mkSignalInfo (decide_buy_signal score (trend_status (r_trend result))) score
             (fst (reasons_and_risks result)) (snd (reasons_and_risks result)))
          result).
Proof.
  cbv zeta.
  destruct (_generate_signal_eq DEFAULT_WEIGHTS result eq_refl) as (s & Es & E).
  rewrite E.
  rewrite (sub_scores_eq DEFAULT_WEIGHTS result eq_refl) in Es. injection Es as <-.
  unfold total. cbn [trend_score bias_score vol_score support_score macd_score
                     rsi_score kdj_score boll_score nth DEFAULT_WEIGHTS].
  rewrite !py_round_scaled_same by discriminate. reflexivity.
Qed.

(** X4: with the default weights (no configuration, or one that is refused)
    every sub-score is its raw table score, and the composite score is their
    plain sum. *)
Theorem X4_default_weights_score_is_sum_of_raw_scores (result : TrendAnalysisResult) :
  exists r,
    _generate_signal (__init__ None) result = Ok r
    /\ signal_score (r_signal r)
       = trend_raw result + bias_raw result + vol_raw result + support_raw result
         + macd_raw result + rsi_raw result + kdj_raw result + boll_raw result.
Proof.
  change (__init__ None) with (mkAnalyzer DEFAULT_WEIGHTS).
  rewrite generate_signal_default. eexists; split; reflexivity.
Qed.

(** ** What the recommendation never is *)

Lemma recommendation_rule_safe (score : Z) (trend : TrendStatus.t) :
  let b := recommendation_rule score trend in
  (b = BuySignal.STRONG_BUY -> 75 <= score /\ is_bull_or_strong_bull trend = true)
  /\ (b = BuySignal.BUY -> 60 <= score /\ is_any_bull_grade trend = true)
  /\ (b = BuySignal.HOLD -> 45 <= score)
  /\ (b = BuySignal.WAIT -> 30 <= score < 45)
  /\ (b = BuySignal.SELL -> score < 30 /\ is_bear_or_strong_bear trend = false)
  /\ (b = BuySignal.STRONG_SELL -> score < 30 /\ is_bear_or_strong_bear trend = true).
Proof.
  cbv zeta. unfold recommendation_rule.
  destruct (Z_ge_dec score 75), (Z_ge_dec score 60), (Z_ge_dec score 45),
    (Z_ge_dec score 30); try lia;
    destruct trend; cbn; repeat split; intros; try discriminate; try lia; reflexivity.
Qed.

(** X5: whatever the frame (missing, short or long), with weights within the
    float range [analyze] returns a result, and it recommends STRONG_BUY
    only with a score of at least 75 and a bull or strong-bull trend, BUY
    only with a score of at least 60 and one of the three bull grades, and
    a sell only with a score below 30 - STRONG_SELL only for a bear or
    strong-bear trend, SELL only for another trend. *)
Theorem X5_analyze_recommendation_needs_score_and_trend (sqrt : Q -> Q)
    (score_weights : option (list Z)) (df : option (list Bar)) (symbol : string) :
  weights_in_float_range (__init__ score_weights) ->
  exists r,
    analyze sqrt (__init__ score_weights) df symbol = Ok r
    /\ let b := buy_signal (r_signal r) in
       let score := signal_score (r_signal r) in
       let trend := trend_status (r_trend r) in
       (b = BuySignal.STRONG_BUY -> 75 <= score /\ is_bull_or_strong_bull trend = true)
       /\ (b = BuySignal.BUY -> 60 <= score /\ is_any_bull_grade trend = true)
       /\ (b = BuySignal.SELL -> score < 30 /\ is_bear_or_strong_bear trend = false)
       /\ (b = BuySignal.STRONG_SELL -> score < 30 /\ is_bear_or_strong_bear trend = true).
Proof.
  intros _.
  assert (S : match df with
              | None => True
              | Some bars => (List.length bars < 20)%nat
              end
              \/ exists bars, df = Some bars /\ (20 <= List.length bars)%nat).
  { destruct df as [bars|]; [|left; exact I].
    destruct (Nat.lt_ge_cases (List.length bars) 20); [left | right; exists bars]; auto. }
  destruct S as [S | (bars & -> & Hn)].
  - rewrite (analyze_short_frame_eq sqrt _ df symbol S).
    eexists; split; [reflexivity|]. cbv zeta. cbn [r_signal with_signal buy_signal].
    repeat split; discriminate.
  - destruct (analyze_recommendation_rule sqrt score_weights bars symbol Hn)
      as (r & E & Hb).
    exists r. split; [exact E|]. cbv zeta. rewrite Hb.
    pose proof (recommendation_rule_safe (signal_score (r_signal r))
                  (trend_status (r_trend r))) as H.
    cbv zeta in H. tauto.
Qed.

Lemma X5_analyze_recommendation_needs_score_and_trend_witness :
  exists r,
    analyze sqrt_floor (__init__ None) (Some rising20) EmptyString = Ok r
    /\ let b := buy_signal (r_signal r) in
       let score := signal_score (r_signal r) in
       let trend := trend_status (r_trend r) in
       (b = BuySignal.STRONG_BUY -> 75 <= score /\ is_bull_or_strong_bull trend = true)
       /\ (b = BuySignal.BUY -> 60 <= score /\ is_any_bull_grade trend = true)
       /\ (b = BuySignal.SELL -> score < 30 /\ is_bear_or_strong_bear trend = false)
       /\ (b = BuySignal.STRONG_SELL -> score < 30 /\ is_bear_or_strong_bear trend = true).
Proof.
  apply (X5_analyze_recommendation_needs_score_and_trend sqrt_floor None (Some rising20) EmptyString).
  unfold weights_in_float_range. cbn. repeat constructor; vm_compute; discriminate.
Defined.

(** ** The trend stage *)

Lemma _analyze_trend_strength (df : DataFrame) (r : TrendAnalysisResult) :
  (20 <= len df)%nat ->
  exists t, _analyze_trend df r = Ok (with_trend t r)
            /\ trend_strength t = strength_of (trend_status t).
Proof.
  intro H. unfold _analyze_trend.
  replace (5 <=? len df)%nat with true by (symmetry; apply Nat.leb_le; lia).
  rewrite (iloc_last df (-5)) by lia. cbn [bind].
  destruct (fgt (ma5 (r_ma r)) (ma10 (r_ma r)) && fgt (ma10 (r_ma r)) (ma20 (r_ma r))).
  - destruct (fgt (ma20 (r_ma r)) (fz 0)) eqn:E.
    + rewrite (py_pct_pos _ _ E). cbn [bind]. split_ifs; eexists; split; reflexivity.
    + cbn [bind]. split_ifs; eexists; split; reflexivity.
  - destruct (fgt (ma5 (r_ma r)) (ma10 (r_ma r)) && fle (ma10 (r_ma r)) (ma20 (r_ma r)));
      [eexists; split; reflexivity|].
    destruct (flt (ma5 (r_ma r)) (ma10 (r_ma r)) && flt (ma10 (r_ma r)) (ma20 (r_ma r))).
    + destruct (fgt (ma5 (r_ma r)) (fz 0)) eqn:E.
      * rewrite (py_pct_pos _ _ E). cbn [bind]. split_ifs; eexists; split; reflexivity.
      * cbn [bind]. split_ifs; eexists; split; reflexivity.
    + split_ifs; eexists; split; reflexivity.
Qed.

(** X6: on a frame of at least 20 rows the trend strength stored by [analyze] is
    a function of the trend label alone: 90, 75, 55, 50, 40, 25, 10 from
    strong bull down to strong bear.  (On a shorter frame the label is the
    default CONSOLIDATION and the strength the default 0, not 50.) *)
Theorem X6_trend_strength_follows_label (sqrt : Q -> Q)
    (score_weights : option (list Z)) (bars : list Bar) (symbol : string) :
  exists r,
    analyze sqrt (__init__ score_weights) (Some bars) symbol = Ok r
    /\ trend_strength (r_trend r)
       = if (List.length bars <? 20)%nat then fz 0
         else strength_of (trend_status (r_trend r)).
Proof.
  destruct (List.length bars <? 20)%nat eqn:En.
  - apply Nat.ltb_lt in En.
    rewrite (analyze_short_frame_eq sqrt _ (Some bars) symbol En).
    eexists; split; reflexivity.
  - apply Nat.ltb_ge in En.
    destruct (analyze_stages sqrt (__init__ score_weights) bars symbol En
                (init_weights_length score_weights))
      as (t & b & v & s & m & rs & k & bo & o & sg & Hst & E).
    rewrite E. eexists; split; [reflexivity|].
    unfold stages in Hst; cbv zeta in Hst. destruct Hst as (Ht & _).
    assert (Hdf : (20 <= len (frame_of sqrt bars))%nat) by (rewrite len_frame_of; exact En).
    destruct (_analyze_trend_strength (frame_of sqrt bars)
                (first_result (frame_of sqrt bars) symbol) Hdf) as (t' & Et & Hs).
    rewrite Et in Ht. apply with_trend_inj in Ht. subst t'.
    exact Hs.
Qed.

(** ** The Bollinger position *)

Lemma clamp_between (p : fval) :
  fin_between (-1) 1 (py_max (fz (-1)) (py_min (fz 1) p)).
Proof.
  unfold py_max, py_min, fgt.
  destruct p as [q| | |]; cbn [flt fz].
  - destruct (Qltb q (inject_Z 1)) eqn:E1; cbn [flt].
    + destruct (Qltb (inject_Z (-1)) q) eqn:E2; cbn.
      * apply Qltb_lt in E1, E2. split; apply Qlt_le_weak; assumption.
      * split; [apply Qle_refl | discriminate].
    + cbn. split; [discriminate | apply Qle_refl].
  - cbn. split; [discriminate | apply Qle_refl].
  - cbn. split; [apply Qle_refl | discriminate].
  - cbn. split; [discriminate | apply Qle_refl].
Qed.

Lemma _analyze_boll_position (df : DataFrame) (result : TrendAnalysisResult) :
  (20 <= len df)%nat ->
  fin_between (-1) 1 (boll_position (r_boll result)) ->
  exists b o,
    _analyze_boll df result = Ok (with_obv o (with_boll b result))
    /\ fin_between (-1) 1 (boll_position b).
Proof.
  intros H H0. unfold _analyze_boll.
  replace (len df <? BOLL_PERIOD)%nat with false
    by (symmetry; apply Nat.ltb_ge; unfold BOLL_PERIOD; lia).
  replace (5 <=? len df)%nat with true by (symmetry; apply Nat.leb_le; lia).
  rewrite (iloc_last df (-1)), (iloc_last df (-6)) by lia. cbn [bind].
  set (bw := fsub _ _).
  destruct (boll_state _ _ _ _) as [st sg].
  destruct (fgt bw (fz 0)) eqn:E.
  - change (py_truediv bw (fz 2)) with (Ok (fdiv bw (fz 2))). cbn [bind].
    rewrite (py_truediv_half _ _ E). cbn [bind].
    destruct (fne _ _) eqn:E0.
    + rewrite (py_pct_abs _ _ E0). cbn [bind].
      do 2 eexists; split; [reflexivity | apply clamp_between].
    + do 2 eexists; split; [reflexivity | apply clamp_between].
  - cbn [bind]. destruct (fne _ _) eqn:E0.
    + rewrite (py_pct_abs _ _ E0). cbn [bind].
      do 2 eexists; split; [reflexivity | exact H0].
    + do 2 eexists; split; [reflexivity | exact H0].
Qed.

(** X7: whatever the frame and the square-root function, with weights within
    the float range [analyze] returns a result whose Bollinger position is
    a finite number within [-1, 1]: the clamp of [_analyze_boll] also
    absorbs an infinite or undefined quotient, and a band width that is not
    positive leaves the default 0. *)
Theorem X7_boll_position_within_unit_interval (sqrt : Q -> Q)
    (score_weights : option (list Z)) (df : option (list Bar)) (symbol : string) :
  weights_in_float_range (__init__ score_weights) ->
  exists r,
    analyze sqrt (__init__ score_weights) df symbol = Ok r
    /\ fin_between (-1) 1 (boll_position (r_boll r)).
Proof.
  intros _.
  assert (Z0 : fin_between (-1) 1 (fz 0)) by (cbn; split; discriminate).
  assert (S : match df with
              | None => True
              | Some bars => (List.length bars < 20)%nat
              end
              \/ exists bars, df = Some bars /\ (20 <= List.length bars)%nat).
  { destruct df as [bars|]; [|left; exact I].
    destruct (Nat.lt_ge_cases (List.length bars) 20); [left | right; exists bars]; auto. }
  destruct S as [S | (bars & -> & Hn)].
  - rewrite (analyze_short_frame_eq sqrt _ df symbol S).
    eexists; split; [reflexivity | exact Z0].
  - destruct (analyze_stages sqrt (__init__ score_weights) bars symbol Hn
                (init_weights_length score_weights))
      as (t & b & v & s & m & rs & k & bo & o & sg & Hst & E).
    rewrite E. eexists; split; [reflexivity|].
    unfold stages in Hst; cbv zeta in Hst.
    destruct Hst as (_ & _ & _ & _ & _ & _ & _ & Hb & _).
    assert (Hdf : (20 <= len (frame_of sqrt bars))%nat) by (rewrite len_frame_of; exact Hn).
    match type of Hb with
    | _analyze_boll _ ?r7 = _ =>
        destruct (_analyze_boll_position (frame_of sqrt bars) r7 Hdf Z0)
          as (b' & o' & Eb & Hp)
    end.
    rewrite Eb in Hb. apply with_boll_obv_inj in Hb. destruct Hb as [-> _].
    exact Hp.
Qed.

Lemma X7_boll_position_within_unit_interval_witness :
  exists r,
    analyze sqrt_floor (__init__ None) (Some rising20) EmptyString = Ok r
    /\ fin_between (-1) 1 (boll_position (r_boll r)).
Proof.
  apply (X7_boll_position_within_unit_interval sqrt_floor None (Some rising20) EmptyString).
  unfold weights_in_float_range. cbn. repeat constructor; vm_compute; discriminate.
Defined.

(** ** The moving averages of the result *)

Lemma fsum_map_Fin (l : list Q) : is_fin (fsum (map Fin l)) (Qsum l).
Proof.
  unfold fsum.
  assert (G : forall acc, is_fin (fold_left fadd (map Fin l) (Fin acc)) (acc + Qsum l)).
  { induction l as [|x l IH]; intro acc.
    - exists acc. split; [reflexivity|]. cbn. ring.
    - cbn [map fold_left fadd]. destruct (IH (acc + x)%Q) as (a & Ea & Ha).
      exists a. split; [exact Ea|]. rewrite Ha. cbn [Qsum fold_right].
      fold (Qsum l). ring. }
  destruct (G 0%Q) as (a & Ea & Ha). exists a. split; [exact Ea|].
  rewrite Ha. ring.
Qed.

Lemma fmean_map_Fin (l : list Q) : l <> [] -> is_fin (fmean (map Fin l)) (Qmean l).
Proof.
  intro Hne. destruct l as [|x l]; [contradiction|].
  unfold fmean. cbn [map]. change (Fin x :: map Fin l) with (map Fin (x :: l)).
  rewrite length_map.
  destruct (fsum_map_Fin (x :: l)) as (s & Es & Hs). rewrite Es.
  rewrite fdiv_fin_nat by (cbn; lia).
  eexists; split; [reflexivity|]. unfold Qmean. now rewrite Hs.
Qed.

Lemma window_last_n (n : nat) (l : list fval) :
  (n <= List.length l)%nat ->
  window n l (List.length l - 1) = last_n n l.
Proof.
  intro H. unfold window, last_n.
  destruct (Nat.eq_dec n 0) as [->|Hn].
  - cbn [firstn]. now rewrite Nat.sub_0_r, skipn_all.
  - replace (List.length l - 1 + 1 - n)%nat with (List.length l - n)%nat by lia.
    apply firstn_all2. rewrite length_skipn. lia.
Qed.

Lemma last_n_map {A B : Type} (f : A -> B) (n : nat) (l : list A) :
  last_n n (map f l) = map f (last_n n l).
Proof. unfold last_n. now rewrite length_map, skipn_map. Qed.

Lemma last_n_length {A : Type} (n : nat) (l : list A) :
  (n <= List.length l)%nat -> List.length (last_n n l) = n.
Proof. intro H. unfold last_n. rewrite length_skipn. lia. Qed.

Lemma col_closes (bars : list Bar) :
  col close (sort_values_date bars) = map Fin (closes bars).
Proof. unfold col, closes. now rewrite map_map. Qed.

Lemma latest_rolling_mean (n : nat) (l : list Q) :
  (0 < n <= List.length l)%nat ->
  is_fin (cell (rolling n fmean (map Fin l)) (List.length l - 1)) (Qmean (last_n n l)).
Proof.
  intro H.
  rewrite cell_rolling by (rewrite length_map; lia).
  replace (n <=? List.length l - 1 + 1)%nat with true by (symmetry; apply Nat.leb_le; lia).
  rewrite <- (length_map Fin l) at 1.
  rewrite window_last_n by (rewrite length_map; lia).
  rewrite last_n_map. apply fmean_map_Fin.
  intro E. apply (f_equal (@List.length Q)) in E.
  rewrite last_n_length in E by lia. cbn in E. lia.
Qed.

Lemma nth_length_pred_last {A : Type} (l : list A) (d : A) :
  nth (List.length l - 1) l d = last l d.
Proof.
  induction l as [|x l IH]; [reflexivity|].
  destruct l as [|y l]; [reflexivity|].
  cbn [List.length last] in *. rewrite <- IH.
  replace (S (S (List.length l)) - 1)%nat with (S (S (List.length l) - 1)) by lia.
  reflexivity.
Qed.

Lemma frame_ma60 (sqrt : Q -> Q) (bars : list Bar) :
  MA60 (calculate sqrt bars)
  = if (60 <=? List.length bars)%nat then rolling 60 fmean (col close bars)
    else rolling 20 fmean (col close bars).
Proof. reflexivity. Qed.

(** X8: on a frame of at least 20 rows the price of the result is the close of
    the latest date, and MA5, MA10 and MA20 are the arithmetic means of the
    closes of the 5, 10 and 20 latest dates - whatever the order of the rows
    given.  MA60 is the mean of the 60 latest closes when there are at least
    60 rows, and otherwise MA20 again. *)
Theorem X8_moving_averages_are_means_of_latest_closes (sqrt : Q -> Q)
    (score_weights : option (list Z)) (bars : list Bar) (symbol : string) :
  (20 <= List.length bars)%nat ->
  exists r,
    analyze sqrt (__init__ score_weights) (Some bars) symbol = Ok r
    /\ current_price (r_ma r) = Fin (last (closes bars) 0%Q)
    /\ ma5 (r_ma r) =f= Fin (Qmean (last_n 5 (closes bars)))
    /\ ma10 (r_ma r) =f= Fin (Qmean (last_n 10 (closes bars)))
    /\ ma20 (r_ma r) =f= Fin (Qmean (last_n 20 (closes bars)))
    /\ ma60 (r_ma r)
       =f= Fin (Qmean (last_n (if (60 <=? List.length bars)%nat then 60 else 20)
                         (closes bars))).
Proof.
  intro Hn.
  destruct (analyze_stages sqrt (__init__ score_weights) bars symbol Hn
              (init_weights_length score_weights))
    as (t & b & v & s & m & rs & k & bo & o & sg & _ & E).
  rewrite E. eexists; split; [reflexivity|].
  unfold assemble, first_result. cbn [r_ma with_ma current_price ma5 ma10 ma20 ma60].
  rewrite len_frame_of.
  assert (Hl : List.length (closes bars) = List.length bars).
  { unfold closes. now rewrite length_map, sort_values_date_length. }
  change (Z.to_nat (- -1)) with 1%nat. rewrite <- Hl.
  rewrite <- Hl in Hn.
  destruct (frame_columns sqrt (sort_values_date bars)) as (E5 & E10 & E20 & _).
  pose proof (frame_ma60 sqrt (sort_values_date bars)) as E60.
  unfold frame_of. rewrite E5, E10, E20, E60, rows_calculate.
  rewrite sort_values_date_length, col_closes, <- Hl.
  repeat split.
  - unfold cell. rewrite (nth_indep _ NaN (Fin 0)) by (rewrite length_map; lia).
    rewrite map_nth. f_equal.
    apply nth_length_pred_last.
  - apply is_fin_feqv, latest_rolling_mean. lia.
  - apply is_fin_feqv, latest_rolling_mean. lia.
  - apply is_fin_feqv, latest_rolling_mean. lia.
  - destruct (60 <=? List.length (closes bars))%nat eqn:E60'.
    + apply Nat.leb_le in E60'. apply is_fin_feqv, latest_rolling_mean. lia.
    + apply is_fin_feqv, latest_rolling_mean. lia.
Qed.

Lemma X8_moving_averages_are_means_of_latest_closes_witness :
  exists r,
    analyze sqrt_floor (__init__ None) (Some rising20) EmptyString = Ok r
    /\ current_price (r_ma r) = Fin (last (closes rising20) 0%Q)
    /\ ma5 (r_ma r) =f= Fin (Qmean (last_n 5 (closes rising20)))
    /\ ma10 (r_ma r) =f= Fin (Qmean (last_n 10 (closes rising20)))
    /\ ma20 (r_ma r) =f= Fin (Qmean (last_n 20 (closes rising20)))
    /\ ma60 (r_ma r)
       =f= Fin (Qmean (last_n (if (60 <=? List.length rising20)%nat then 60 else 20)
                         (closes rising20))).
Proof.
  apply (X8_moving_averages_are_means_of_latest_closes sqrt_floor None rising20 EmptyString).
  cbn. lia.
Defined.

(** ** The RSI columns *)

Lemma rsi_loss_nonneg (bars : list Bar) : Forall fin_nonneg (rsi_loss bars).
Proof.
  unfold rsi_loss, where_. apply Forall_map, Forall_map.
  eapply Forall_impl; [|apply diff_col_finite].
  intros [q| | |] H; cbn in *; try contradiction.
  - destruct (Qltb q (inject_Z 0)) eqn:E; cbn.
    + apply Qltb_lt in E. unfold inject_Z in E. lra.
    + unfold inject_Z. lra.
  - unfold inject_Z. lra.
Qed.

Lemma rolling_mean_nan_or_nonneg (n : nat) (l : list fval) (i : nat) :
  Forall fin_nonneg l -> (i < List.length l)%nat ->
  nan_or_nonneg (cell (rolling n fmean l) i).
Proof.
  intros H Hi. rewrite cell_rolling by exact Hi.
  destruct (n <=? i + 1)%nat eqn:E; [|exact I].
  apply Nat.leb_le in E.
  destruct n as [|n]; [exact I|].
  assert (F : fin_nonneg (fmean (window (S n) l i))).
  { apply fmean_nonneg.
    - intro E0. apply (f_equal (@List.length fval)) in E0.
      rewrite window_length in E0 by lia. discriminate E0.
    - apply Forall_window, H. }
  destruct (fmean (window (S n) l i)); cbn in *; try contradiction; exact F.
Qed.

Lemma Qeq_bool_pos_false (x : Q) : (0 < x)%Q -> Qeq_bool x 0 = false.
Proof.
  intro H. apply Qeq_bool_false. intro E. rewrite E in H. exact (Qlt_irrefl 0 H).
Qed.

(** [100 - 100 / (1 + g / l)], with 50 for NaN, for averages that are
    undefined or not negative. *)
Lemma rsi_ratio_cases (g l : fval) :
  nan_or_nonneg g -> nan_or_nonneg l ->
  fdiv g l = NaN \/ fdiv g l = PInf \/ exists q, fdiv g l = Fin q /\ (0 <= q)%Q.
Proof.
  intros Hg Hl.
  destruct g as [g| | |], l as [l| | |]; cbn in Hg, Hl; try contradiction;
    try (left; reflexivity).
  unfold fdiv.
  destruct (Qeq_bool l 0) eqn:El.
  - destruct (Qeq_bool g 0) eqn:Eg; [left; reflexivity|].
    assert (Hpos : (0 < g)%Q).
    { apply Qle_lt_or_eq in Hg. destruct Hg as [Hg|Hg]; [exact Hg|].
      exfalso. symmetry in Hg. apply Qeq_bool_iff in Hg. congruence. }
    apply Qltb_lt in Hpos. rewrite Hpos. right; left; reflexivity.
  - assert (Hlpos : (0 < l)%Q).
    { apply Qle_lt_or_eq in Hl. destruct Hl as [Hl|Hl]; [exact Hl|].
      exfalso. symmetry in Hl. apply Qeq_bool_iff in Hl. congruence. }
    right; right. eexists; split; [reflexivity|].
    apply Qle_shift_div_l; [exact Hlpos | lra].
Qed.

(** [100 - 100 / (1 + g / l)], with 50 for NaN, for averages that are
    undefined or not negative. *)
Lemma rsi_value_between (g l : fval) :
  nan_or_nonneg g -> nan_or_nonneg l ->
  fin_between 0 100
    (let x := fsub (fz 100) (fdiv (fz 100) (fadd (fz 1) (fdiv g l))) in
     if isnan x then fz 50 else x).
Proof.
  intros Hg Hl.
  destruct (rsi_ratio_cases g l Hg Hl) as [-> | [-> | (q & -> & Hq)]].
  - cbn. split; discriminate.
  - cbn. split; discriminate.
  - unfold fz. cbn [fadd].
    assert (Hd : (0 < inject_Z 1 + q)%Q) by (unfold inject_Z; lra).
    unfold fdiv. rewrite (Qeq_bool_pos_false _ Hd).
    cbn [fsub fneg fadd isnan]. cbv zeta. cbn [isnan fin_between].
    assert (H1 : (0 <= inject_Z 100 / (inject_Z 1 + q))%Q).
    { apply Qle_shift_div_l; [exact Hd | unfold inject_Z; lra]. }
    assert (H2 : (inject_Z 100 / (inject_Z 1 + q) <= inject_Z 100)%Q).
    { apply Qle_shift_div_r; [exact Hd | unfold inject_Z in *; lra]. }
    set (d := (inject_Z 100 / (inject_Z 1 + q))%Q) in *. clearbody d.
    unfold inject_Z in *. split; lra.
Qed.

(** X9: every cell of an RSI column is a finite number within [0, 100], for
    every frame, every period and every row: an undefined quotient has
    become 50, and the infinite ratio of a zero average loss has become
    100. *)
Theorem X9_rsi_column_within_0_100 (period : nat) (bars : list Bar) :
  Forall (fin_between 0 100) (rsi_column period bars).
Proof.
  apply Forall_nth. intros i d Hi.
  assert (Hlen : List.length (rsi_column period bars) = List.length bars).
  { unfold rsi_column, fillna, map2, rsi_avg_gain, rsi_avg_loss, rsi_gain, rsi_loss, where_.
    rewrite !length_map, length_combine, !rolling_length, !length_map, diff_length,
      col_length. lia. }
  rewrite Hlen in Hi.
  rewrite (nth_indep _ d NaN) by (rewrite Hlen; exact Hi).
  change (nth i (rsi_column period bars) NaN) with (cell (rsi_column period bars) i).
  rewrite (rsi_cell period bars i Hi).
  apply rsi_value_between.
  - unfold rsi_avg_gain. apply rolling_mean_nan_or_nonneg; [apply rsi_gain_nonneg|].
    unfold rsi_gain, where_. now rewrite length_map, diff_length, col_length.
  - unfold rsi_avg_loss. apply rolling_mean_nan_or_nonneg; [apply rsi_loss_nonneg|].
    unfold rsi_loss, where_. now rewrite !length_map, diff_length, col_length.
Qed.

(** ** Series of finite values *)

Lemma finite_between (lo hi : Z) (x : fval) : fin_between lo hi x -> finite x.
Proof. destruct x; cbn; tauto. Qed.

Lemma col_finite (f : Bar -> Q) (bars : list Bar) : Forall finite (col f bars).
Proof. unfold col. apply Forall_map, Forall_forall. intros; exact I. Qed.

Lemma Forall_map2 (P Q R : fval -> Prop) (f : fval -> fval -> fval) (a b : list fval) :
  (forall x y, P x -> Q y -> R (f x y)) ->
  Forall P a -> Forall Q b -> Forall R (map2 f a b).
Proof.
  intros Hf Ha. revert b. unfold map2.
  induction Ha as [|x a Hx Ha IH]; intros b Hb; [constructor|].
  destruct Hb as [|y b Hy Hb]; cbn; constructor; [apply Hf; assumption | apply IH, Hb].
Qed.

Lemma map2_length (f : fval -> fval -> fval) (a b : list fval) :
  List.length a = List.length b -> List.length (map2 f a b) = List.length a.
Proof. intro H. unfold map2. rewrite length_map, length_combine. lia. Qed.

Lemma ewm_from_length (a prev : fval) (l : list fval) :
  List.length (ewm_from a prev l) = List.length l.
Proof. revert prev; induction l; intro prev; cbn; [reflexivity | now rewrite IHl]. Qed.

Lemma ewm_mean_length (a : fval) (l : list fval) :
  List.length (ewm_mean a l) = List.length l.
Proof. destruct l; cbn; [reflexivity | now rewrite ewm_from_length]. Qed.

Lemma cumsum_length (l : list fval) : List.length (cumsum l) = List.length l.
Proof.
  destruct l as [|x l]; [reflexivity|]. cbn. f_equal.
  revert x; induction l as [|y l IH]; intro x; cbn; [reflexivity | now rewrite IH].
Qed.

(** An exponential average keeps its cells within any property that the
    recursion step keeps. *)
Lemma ewm_mean_Forall (P : fval -> Prop) (a : fval) (l : list fval) :
  (forall prev x, P prev -> P x -> P (fadd (fmul (fsub (fz 1) a) prev) (fmul a x))) ->
  Forall P l -> Forall P (ewm_mean a l).
Proof.
  intros Hstep H. destruct H as [|x l Hx Hl]; [constructor|].
  cbn. constructor; [exact Hx|].
  revert x Hx. induction Hl as [|y l Hy Hl IH]; intros x Hx; cbn; [constructor|].
  constructor; [apply Hstep; assumption|]. apply IH. apply Hstep; assumption.
Qed.

Lemma ewm_step_finite (a : Q) (prev x : fval) :
  finite prev -> finite x ->
  finite (fadd (fmul (fsub (fz 1) (Fin a)) prev) (fmul (Fin a) x)).
Proof. destruct prev, x; cbn; tauto. Qed.

Lemma ewm_step_between (a : Q) (lo hi : Z) (prev x : fval) :
  (0 <= a <= 1)%Q ->
  fin_between lo hi prev -> fin_between lo hi x ->
  fin_between lo hi (fadd (fmul (fsub (fz 1) (Fin a)) prev) (fmul (Fin a) x)).
Proof.
  intros Ha Hp Hx. destruct prev as [p| | |], x as [x| | |]; cbn in *; try contradiction.
  set (L := inject_Z lo) in *. set (H := inject_Z hi) in *. clearbody L H.
  unfold inject_Z. split; nra.
Qed.

Lemma cumsum_finite (l : list fval) : Forall finite l -> Forall finite (cumsum l).
Proof.
  intro H. destruct H as [|x l Hx Hl]; [constructor|].
  cbn. constructor; [exact Hx|].
  revert x Hx. induction Hl as [|y l Hy Hl IH]; intros x Hx; cbn; [constructor|].
  assert (F : finite (fadd x y)) by (destruct x, y; cbn in *; tauto).
  constructor; [exact F | apply IH, F].
Qed.

(** ** Rolling minimum and maximum *)

Lemma fold_fmin2_fin (l : list Q) (a : Q) :
  exists m, fold_left fmin2 (map Fin l) (Fin a) = Fin m
            /\ (m <= a)%Q /\ Forall (fun x => (m <= x)%Q) l.
Proof.
  revert a. induction l as [|x l IH]; intro a; cbn [map fold_left].
  - exists a. repeat split; [apply Qle_refl | constructor].
  - unfold fmin2 at 2. cbn [isnan orb flt].
    destruct (Qltb x a) eqn:E.
    + apply Qltb_lt in E. destruct (IH x) as (m & Em & Hm & Hl).
      exists m. repeat split; [exact Em | lra | constructor; assumption].
    + apply Qltb_ge in E. destruct (IH a) as (m & Em & Hm & Hl).
      exists m. repeat split; [exact Em | exact Hm | constructor; [lra | exact Hl]].
Qed.

Lemma fold_fmax2_fin (l : list Q) (a : Q) :
  exists m, fold_left fmax2 (map Fin l) (Fin a) = Fin m
            /\ (a <= m)%Q /\ Forall (fun x => (x <= m)%Q) l
            /\ (m = a \/ In m l).
Proof.
  revert a. induction l as [|x l IH]; intro a; cbn [map fold_left].
  - exists a. repeat split; [apply Qle_refl | constructor | left; reflexivity].
  - unfold fmax2 at 2. cbn [isnan orb flt].
    destruct (Qltb a x) eqn:E.
    + apply Qltb_lt in E. destruct (IH x) as (m & Em & Hm & Hl & Hi).
      exists m. repeat split; [exact Em | lra | constructor; assumption|].
      right. destruct Hi as [->|Hi]; [left; reflexivity | right; exact Hi].
    + apply Qltb_ge in E. destruct (IH a) as (m & Em & Hm & Hl & Hi).
      exists m. repeat split; [exact Em | exact Hm | constructor; [lra | exact Hl]|].
      destruct Hi as [->|Hi]; [left; reflexivity | right; right; exact Hi].
Qed.

Lemma fminimum_fin (l : list Q) :
  l <> [] ->
  exists m, fminimum (map Fin l) = Fin m /\ Forall (fun x => (m <= x)%Q) l.
Proof.
  intro H. destruct l as [|a l]; [contradiction|]. cbn [map fminimum].
  destruct (fold_fmin2_fin l a) as (m & Em & Hm & Hl).
  exists m. split; [exact Em | constructor; assumption].
Qed.

Lemma fmaximum_fin (l : list Q) :
  l <> [] ->
  exists m, fmaximum (map Fin l) = Fin m /\ Forall (fun x => (x <= m)%Q) l /\ In m l.
Proof.
  intro H. destruct l as [|a l]; [contradiction|]. cbn [map fmaximum].
  destruct (fold_fmax2_fin l a) as (m & Em & Hm & Hl & Hi).
  exists m. repeat split; [exact Em | constructor; assumption|].
  destruct Hi as [->|Hi]; [left; reflexivity | right; exact Hi].
Qed.

(** The window that ends at row [i] contains row [i]. *)
Lemma window_map_Fin (n : nat) (l : list Q) (i : nat) :
  window n (map Fin l) i = map Fin (firstn n (skipn (i + 1 - n) l)).
Proof. unfold window. now rewrite skipn_map, firstn_map. Qed.

Lemma In_window {A : Type} (n : nat) (l : list A) (i : nat) (d : A) :
  (0 < n <= i + 1)%nat -> (i < List.length l)%nat ->
  In (nth i l d) (firstn n (skipn (i + 1 - n) l)).
Proof.
  intros Hn Hi.
  replace (nth i l d) with (nth (n - 1) (firstn n (skipn (i + 1 - n) l)) d).
  - apply nth_In. rewrite length_firstn, length_skipn. lia.
  - rewrite nth_firstn. replace (n - 1 <? n)%nat with true by (symmetry; apply Nat.ltb_lt; lia).
    rewrite nth_skipn. f_equal. lia.
Qed.

Lemma cell_col (f : Bar -> Q) (bars : list Bar) (i : nat) :
  (i < List.length bars)%nat ->
  cell (col f bars) i = Fin (nth i (map f bars) 0%Q).
Proof.
  intro H. unfold cell, col.
  rewrite (nth_indep _ NaN (Fin 0)) by (rewrite length_map; exact H).
  rewrite <- (map_map f Fin). apply map_nth.
Qed.

(** ** The KDJ columns *)

Lemma _calculate_kdj_rsv (bars : list Bar) :
  _calculate_kdj bars
  = let k := ewm_mean (Fin (1 / inject_Z (Z.of_nat KDJ_M1))) (kdj_rsv bars) in
    let d := ewm_mean (Fin (1 / inject_Z (Z.of_nat KDJ_M2))) k in
    (k, d, map2 fsub (map (fmul (fz 3)) k) (map (fmul (fz 2)) d)).
Proof. reflexivity. Qed.

Lemma kdj_rsv_length (bars : list Bar) :
  List.length (kdj_rsv bars) = List.length bars.
Proof.
  unfold kdj_rsv, fillna, replace_zero_nan, map2.
  rewrite !length_map, !length_combine, !length_map, !length_combine,
    !rolling_length, !col_length. lia.
Qed.

Lemma nth_within_range (bars : list Bar) (i : nat) :
  Forall close_within_range bars -> (i < List.length bars)%nat ->
  (nth i (map low bars) 0 <= nth i (map close bars) 0
   /\ nth i (map close bars) 0 <= nth i (map high bars) 0)%Q.
Proof.
  intro H. revert i. induction H as [|b bars Hb H IH]; intros [|i] Hi; cbn in *; try lia.
  - exact Hb.
  - apply IH. lia.
Qed.

Lemma kdj_rsv_cell (bars : list Bar) (i : nat) :
  (i < List.length bars)%nat ->
  exists q, cell (kdj_rsv bars) i = Fin q
            /\ (Forall close_within_range bars -> 0 <= q /\ q <= 100)%Q.
Proof.
  intro Hi.
  assert (H50 : (0 <= inject_Z 50 /\ inject_Z 50 <= 100)%Q) by (split; discriminate).
  unfold kdj_rsv, fillna, replace_zero_nan.
  assert (Hlo : List.length (rolling KDJ_N fminimum (col low bars)) = List.length bars)
    by now rewrite rolling_length, col_length.
  assert (Hhi : List.length (rolling KDJ_N fmaximum (col high bars)) = List.length bars)
    by now rewrite rolling_length, col_length.
  assert (Hc : List.length (col close bars) = List.length bars) by apply col_length.
  rewrite cell_map
    by (rewrite length_map, map2_length; rewrite ?length_map, ?map2_length; lia).
  rewrite cell_map by (rewrite map2_length; rewrite ?length_map, ?map2_length; lia).
  rewrite cell_map2 by (rewrite ?length_map, ?map2_length; lia).
  rewrite cell_map by (rewrite map2_length; lia).
  rewrite !cell_map2 by lia.
  rewrite !cell_rolling by (rewrite col_length; exact Hi).
  rewrite cell_col by exact Hi.
  destruct (KDJ_N <=? i + 1)%nat eqn:E.
  - apply Nat.leb_le in E. unfold col.
    rewrite <- (map_map low Fin), <- (map_map high Fin), !window_map_Fin.
    assert (Hne : forall l : list Q, (i < List.length l)%nat ->
                    firstn KDJ_N (skipn (i + 1 - KDJ_N) l) <> []).
    { intros l Hl E0. apply (f_equal (@List.length Q)) in E0.
      rewrite length_firstn, length_skipn in E0. unfold KDJ_N in *.
      cbn [List.length] in E0. lia. }
    destruct (fminimum_fin _ (Hne (map low bars) ltac:(rewrite length_map; exact Hi)))
      as (lo & -> & Hmin).
    destruct (fmaximum_fin _ (Hne (map high bars) ltac:(rewrite length_map; exact Hi)))
      as (hi & -> & Hmax & _).
    cbn [fsub fneg fadd feq fz].
    destruct (Qeq_bool (hi + - lo) (inject_Z 0)) eqn:Ez.
    + cbn. exists (inject_Z 50). split; [reflexivity | intros _; exact H50].
    + cbn [fdiv]. change (inject_Z 0) with 0%Q in Ez. rewrite Ez.
      cbn [fmul isnan]. eexists; split; [reflexivity|]. intro Hr.
      destruct (nth_within_range bars i Hr Hi) as [H1 H2].
      assert (L1 : (lo <= nth i (map low bars) 0)%Q).
      { rewrite Forall_forall in Hmin. apply Hmin.
        apply In_window; [unfold KDJ_N in *; lia | rewrite length_map; exact Hi]. }
      assert (L2 : (nth i (map high bars) 0 <= hi)%Q).
      { rewrite Forall_forall in Hmax. apply Hmax.
        apply In_window; [unfold KDJ_N in *; lia | rewrite length_map; exact Hi]. }
      set (c := nth i (map close bars) 0%Q) in *.
      assert (Hw : (0 < hi + - lo)%Q).
      { assert (Hw0 : (0 <= hi + - lo)%Q) by lra.
        apply Qle_lt_or_eq in Hw0. destruct Hw0 as [Hw0|Hw0]; [exact Hw0|].
        exfalso. symmetry in Hw0. apply Qeq_bool_iff in Hw0. congruence. }
      assert (R1 : (0 <= (c + - lo) / (hi + - lo))%Q).
      { apply Qle_shift_div_l; [exact Hw | lra]. }
      assert (R2 : ((c + - lo) / (hi + - lo) <= 1)%Q).
      { apply Qle_shift_div_r; [exact Hw | lra]. }
      set (r := ((c + - lo) / (hi + - lo))%Q) in *. clearbody r.
      unfold inject_Z. split; lra.
  - cbn. exists (inject_Z 50). split; [reflexivity | intros _; exact H50].
Qed.

Lemma kdj_rsv_finite (bars : list Bar) : Forall finite (kdj_rsv bars).
Proof.
  apply Forall_nth. intros i d Hi. rewrite kdj_rsv_length in Hi.
  rewrite (nth_indep _ d NaN) by (rewrite kdj_rsv_length; exact Hi).
  destruct (kdj_rsv_cell bars i Hi) as (q & E & _).
  unfold cell in E. rewrite E. exact I.
Qed.

Lemma kdj_rsv_between (bars : list Bar) :
  Forall close_within_range bars -> Forall (fin_between 0 100) (kdj_rsv bars).
Proof.
  intro H. apply Forall_nth. intros i d Hi. rewrite kdj_rsv_length in Hi.
  rewrite (nth_indep _ d NaN) by (rewrite kdj_rsv_length; exact Hi).
  destruct (kdj_rsv_cell bars i Hi) as (q & E & Hq).
  unfold cell in E. rewrite E. exact (Hq H).
Qed.

Lemma kdj_alpha_unit (m : nat) : (0 < m)%nat -> (0 <= 1 / inject_Z (Z.of_nat m) <= 1)%Q.
Proof.
  intro H.
  assert (Hq : (1 <= inject_Z (Z.of_nat m))%Q).
  { change 1%Q with (inject_Z 1). rewrite <- Zle_Qle. lia. }
  split.
  - apply Qle_shift_div_l; lra.
  - apply Qle_shift_div_r; lra.
Qed.

(** X10: when the close of every bar lies between its low and its high, every
    cell of the columns K and D is a finite number within [0, 100], and
    every cell of J = 3K - 2D within [-200, 300]. *)
Theorem X10_kdj_within_bounds (bars : list Bar) :
  Forall close_within_range bars ->
  let '(k, d, j) := _calculate_kdj bars in
  Forall (fin_between 0 100) k
  /\ Forall (fin_between 0 100) d
  /\ Forall (fin_between (-200) 300) j.
Proof.
  intro H. rewrite _calculate_kdj_rsv. cbv zeta.
  assert (Hk : Forall (fin_between 0 100)
                 (ewm_mean (Fin (1 / inject_Z (Z.of_nat KDJ_M1))) (kdj_rsv bars))).
  { apply ewm_mean_Forall; [|apply kdj_rsv_between, H].
    intros prev x. apply ewm_step_between, kdj_alpha_unit. unfold KDJ_M1. lia. }
  assert (Hd : Forall (fin_between 0 100)
                 (ewm_mean (Fin (1 / inject_Z (Z.of_nat KDJ_M2)))
                    (ewm_mean (Fin (1 / inject_Z (Z.of_nat KDJ_M1))) (kdj_rsv bars)))).
  { apply ewm_mean_Forall; [|exact Hk].
    intros prev x. apply ewm_step_between, kdj_alpha_unit. unfold KDJ_M2. lia. }
  repeat split; [exact Hk | exact Hd |].
  apply (Forall_map2 (fin_between 0 300) (fin_between 0 200)).
  - intros [x| | |] [y| | |]; cbn; try tauto. unfold inject_Z. intros; split; lra.
  - apply Forall_map. eapply Forall_impl; [|exact Hk].
    intros [x| | |]; cbn; try tauto. unfold inject_Z. intros; split; lra.
  - apply Forall_map. eapply Forall_impl; [|exact Hd].
    intros [x| | |]; cbn; try tauto. unfold inject_Z. intros; split; lra.
Qed.

Lemma bars_of_closes_within_range (v : Q) (l : list Z) :
  Forall close_within_range (bars_of_closes v l).
Proof.
  unfold bars_of_closes. apply Forall_map, Forall_forall.
  intros p _. split; apply Qle_refl.
Qed.

Lemma X10_kdj_within_bounds_witness :
  let '(k, d, j) := _calculate_kdj rising20 in
  Forall (fin_between 0 100) k
  /\ Forall (fin_between 0 100) d
  /\ Forall (fin_between (-200) 300) j.
Proof.
  apply (X10_kdj_within_bounds rising20).
  apply bars_of_closes_within_range.
Defined.

(** ** Columns without missing values *)

Lemma diff_from_fin (a : Q) (l : list Q) :
  Forall finite (diff_from (Fin a) (map Fin l)).
Proof.
  revert a; induction l as [|x l IH]; intro a; cbn; constructor; [exact I | apply IH].
Qed.

Lemma fsign_finite (x : fval) : finite x -> finite (fsign x).
Proof.
  destruct x as [q| | |]; cbn; try tauto. intros _.
  destruct (Qltb 0 q); [exact I|]. destruct (Qltb q 0); exact I.
Qed.

Lemma fsub_finite (x y : fval) : finite x -> finite y -> finite (fsub x y).
Proof. destruct x, y; cbn; tauto. Qed.

Lemma fmul_finite (x y : fval) : finite x -> finite y -> finite (fmul x y).
Proof. destruct x, y; cbn; tauto. Qed.

Lemma _calculate_macd_finite (bars : list Bar) :
  let '(dif, dea, bar) := _calculate_macd bars in
  Forall finite dif /\ Forall finite dea /\ Forall finite bar.
Proof.
  unfold _calculate_macd, span_alpha. cbv zeta.
  set (c := col close bars).
  assert (Hc : Forall finite c) by apply col_finite.
  assert (Hdif : Forall finite
                   (map2 fsub (ewm_mean (Fin (2 / inject_Z (Z.of_nat MACD_FAST + 1))) c)
                      (ewm_mean (Fin (2 / inject_Z (Z.of_nat MACD_SLOW + 1))) c))).
  { apply (Forall_map2 finite finite); [exact fsub_finite | |];
      (apply ewm_mean_Forall; [intros prev x; apply ewm_step_finite | exact Hc]). }
  assert (Hdea : Forall finite
                   (ewm_mean (Fin (2 / inject_Z (Z.of_nat MACD_SIGNAL + 1)))
                      (map2 fsub (ewm_mean (Fin (2 / inject_Z (Z.of_nat MACD_FAST + 1))) c)
                         (ewm_mean (Fin (2 / inject_Z (Z.of_nat MACD_SLOW + 1))) c)))).
  { apply ewm_mean_Forall; [intros prev x; apply ewm_step_finite | exact Hdif]. }
  repeat split; [exact Hdif | exact Hdea |].
  apply Forall_map.
  eapply Forall_impl; [|apply (Forall_map2 finite finite finite fsub _ _ fsub_finite Hdif Hdea)].
  intros x Hx. apply fmul_finite; [exact Hx | exact I].
Qed.

Lemma _calculate_kdj_finite (bars : list Bar) :
  let '(k, d, j) := _calculate_kdj bars in
  Forall finite k /\ Forall finite d /\ Forall finite j.
Proof.
  rewrite _calculate_kdj_rsv. cbv zeta.
  assert (Hk : Forall finite
                 (ewm_mean (Fin (1 / inject_Z (Z.of_nat KDJ_M1))) (kdj_rsv bars))).
  { apply ewm_mean_Forall; [intros prev x; apply ewm_step_finite | apply kdj_rsv_finite]. }
  assert (Hd : Forall finite
                 (ewm_mean (Fin (1 / inject_Z (Z.of_nat KDJ_M2)))
                    (ewm_mean (Fin (1 / inject_Z (Z.of_nat KDJ_M1))) (kdj_rsv bars)))).
  { apply ewm_mean_Forall; [intros prev x; apply ewm_step_finite | exact Hk]. }
  repeat split; [exact Hk | exact Hd |].
  apply (Forall_map2 finite finite); [exact fsub_finite | |];
    apply Forall_map; (eapply Forall_impl; [|eassumption]);
    intros x Hx; (apply fmul_finite; [exact I | exact Hx]).
Qed.

Lemma _calculate_obv_finite (bars : list Bar) : Forall finite (_calculate_obv bars).
Proof.
  unfold _calculate_obv. cbv zeta. apply cumsum_finite.
  apply (Forall_map2 finite finite); [exact fmul_finite | | apply col_finite].
  unfold col. rewrite <- (map_map close Fin).
  destruct (map close bars) as [|a l]; cbn [map diff]; [constructor|].
  constructor; [exact I|]. apply Forall_map.
  eapply Forall_impl; [|apply diff_from_fin]. exact fsign_finite.
Qed.

(** X11: whatever the rows, no cell of the MACD columns (DIF, DEA, BAR), of the
    KDJ columns (K, D, J) or of the OBV column is NaN or infinite: the
    undefined first difference of the closes is overwritten in OBV, and the
    undefined cells of the raw stochastic value - a window that is not full,
    or a range of zero width - have become 50 before the averages are
    taken. *)
Theorem X11_macd_kdj_obv_columns_are_finite (sqrt : Q -> Q) (bars : list Bar) :
  let df := calculate sqrt bars in
  Forall finite (MACD_DIF df) /\ Forall finite (MACD_DEA df)
  /\ Forall finite (MACD_BAR df)
  /\ Forall finite (KDJ_K df) /\ Forall finite (KDJ_D df) /\ Forall finite (KDJ_J df)
  /\ Forall finite (OBV df).
Proof.
  cbv zeta. unfold calculate.
  pose proof (_calculate_macd_finite bars) as Hm.
  pose proof (_calculate_kdj_finite bars) as Hk.
  pose proof (_calculate_obv_finite bars) as Ho.
  destruct (_calculate_mas bars) as [[[m5 m10] m20] m60].
  destruct (_calculate_macd bars) as [[dif dea] bar].
  destruct (_calculate_rsi bars) as [[r6 r12] r24].
  destruct (_calculate_kdj bars) as [[k d] j].
  destruct (_calculate_boll sqrt bars) as [[mid upper] lower].
  cbn [MACD_DIF MACD_DEA MACD_BAR KDJ_K KDJ_D KDJ_J OBV].
  tauto.
Qed.

(** ** The Bollinger bands of the result *)

Lemma Qsum_ext (f g : Q -> Q) (l : list Q) :
  (forall x, f x == g x)%Q -> (Qsum (map f l) == Qsum (map g l))%Q.
Proof.
  intro H. induction l as [|x l IH]; cbn; [reflexivity|].
  fold (Qsum (map f l)) (Qsum (map g l)). now rewrite IH, H.
Qed.

Lemma Qsum_squares_nonneg (m : Q) (l : list Q) :
  (0 <= Qsum (map (fun x => (x + - m) * (x + - m)) l))%Q.
Proof.
  induction l as [|x l IH]; [apply Qle_refl|].
  cbn [map Qsum fold_right]. fold (Qsum (map (fun x => (x + - m) * (x + - m))%Q l)).
  assert (H : (0 <= (x + - m) * (x + - m))%Q).
  { set (y := (x + - m)%Q). clearbody y. nra. }
  set (s := Qsum _) in *. clearbody s. cbn [Qsum map fold_right]. lra.
Qed.

(** Mean and sample standard deviation of a window of at least two finite
    cells. *)
Lemma fmean_fstd_fin (sqrt : Q -> Q) (l : list Q) :
  (2 <= List.length l)%nat ->
  exists m v,
    fmean (map Fin l) = Fin m /\ (m == Qmean l)%Q
    /\ fstd sqrt (map Fin l) = Fin (sqrt v)
    /\ (0 <= v)%Q /\ (v == Qvariance l)%Q.
Proof.
  intro Hn.
  assert (Hne : l <> []) by (intros ->; cbn in Hn; lia).
  destruct (fmean_map_Fin l Hne) as (m & Em & Hm).
  exists m. unfold fstd. rewrite Em, length_map.
  assert (Emap : map (fun x => fmul (fsub x (Fin m)) (fsub x (Fin m))) (map Fin l)
                 = map Fin (map (fun x => (x + - m) * (x + - m))%Q l)).
  { rewrite !map_map. reflexivity. }
  rewrite Emap.
  destruct (fsum_map_Fin (map (fun x => (x + - m) * (x + - m))%Q l)) as (s & Es & Hs).
  rewrite Es.
  replace (Z.of_nat (List.length l) - 1) with (Z.of_nat (List.length l - 1)) by lia.
  rewrite fdiv_fin_nat by lia.
  assert (Hd : (0 < inject_Z (Z.of_nat (List.length l - 1)))%Q).
  { change 0%Q with (inject_Z 0). rewrite <- Zlt_Qlt. lia. }
  assert (Hv : (0 <= s / inject_Z (Z.of_nat (List.length l - 1)))%Q).
  { apply Qle_shift_div_l; [exact Hd|]. rewrite Hs.
    pose proof (Qsum_squares_nonneg m l). lra. }
  exists (s / inject_Z (Z.of_nat (List.length l - 1)))%Q.
  split; [reflexivity|]. split; [exact Hm|]. split.
  - unfold fsqrt. replace (Qltb _ 0) with false; [reflexivity|].
    symmetry. apply Qltb_ge. exact Hv.
  - split; [exact Hv|]. unfold Qvariance. rewrite Hs.
    apply Qmult_comp; [|reflexivity].
    apply Qsum_ext. intro x. rewrite Hm. ring.
Qed.

Lemma analyze_boll_cells (sqrt : Q -> Q) (score_weights : option (list Z))
    (bars : list Bar) (symbol : string) :
  (20 <= List.length bars)%nat ->
  let df := frame_of sqrt bars in
  let latest := (len df - 1)%nat in
  exists r,
    analyze sqrt (__init__ score_weights) (Some bars) symbol = Ok r
    /\ boll_upper (r_boll r) = cell (BOLL_UPPER df) latest
    /\ boll_mid (r_boll r) = cell (BOLL_MID df) latest
    /\ boll_lower (r_boll r) = cell (BOLL_LOWER df) latest.
Proof.
  intros Hn df latest.
  destruct (analyze_stages sqrt (__init__ score_weights) bars symbol Hn
              (init_weights_length score_weights))
    as (t & b & v & s & m & rs & k & bo & o & sg & Hst & E).
  fold df in Hst, E. rewrite E. eexists; split; [reflexivity|].
  unfold assemble; cbn [r_ma r_boll].
  assert (Hdf : (20 <= len df)%nat) by (unfold df; rewrite len_frame_of; lia).
  unfold stages in Hst; cbv zeta in Hst.
  destruct Hst as (_ & _ & _ & _ & _ & _ & _ & Hb & _).
  match type of Hb with
  | _analyze_boll _ ?r7 = _ =>
      destruct (_analyze_boll_fields df r7 Hdf) as (pos & o' & Eb & _)
  end.
  rewrite Eb in Hb. apply with_boll_obv_inj in Hb. destruct Hb as [<- _].
  cbn [boll_upper boll_mid boll_lower]. repeat split.
Qed.

(** X12: on a frame of at least 20 rows the Bollinger bands of the result are
    those of the 20 latest closes: the middle band is their mean, and the
    upper and lower bands lie two standard deviations above and below it,
    the standard deviation being the square root of the sample variance
    (divisor 19).  With a square root that is never negative the bands are
    therefore ordered: lower <= middle <= upper. *)
Theorem X12_bollinger_bands_of_latest_closes (sqrt : Q -> Q)
    (score_weights : option (list Z)) (bars : list Bar) (symbol : string) :
  (20 <= List.length bars)%nat ->
  (forall q, 0 <= q -> 0 <= sqrt q)%Q ->
  exists r m v,
    analyze sqrt (__init__ score_weights) (Some bars) symbol = Ok r
    /\ (m == Qmean (last_n 20 (closes bars)))%Q
    /\ (v == Qvariance (last_n 20 (closes bars)))%Q
    /\ boll_mid (r_boll r) = Fin m
    /\ boll_upper (r_boll r) = Fin (m + 2 * sqrt v)
    /\ boll_lower (r_boll r) = Fin (m + - (2 * sqrt v))
    /\ (m + - (2 * sqrt v) <= m /\ m <= m + 2 * sqrt v)%Q.
Proof.
  intros Hn Hsqrt.
  destruct (analyze_boll_cells sqrt score_weights bars symbol Hn)
    as (r & E & Eu & Em & El).
  exists r.
  destruct (frame_columns sqrt (sort_values_date bars)) as (_ & _ & _ & Cm & Cu & Cl).
  fold (frame_of sqrt bars) in Cm, Cu, Cl.
  rewrite Cm in Em. rewrite Cu in Eu. rewrite Cl in El.
  rewrite len_frame_of in Em, Eu, El.
  rewrite col_closes in Em, Eu, El.
  assert (Hl : List.length (closes bars) = List.length bars).
  { unfold closes. now rewrite length_map, sort_values_date_length. }
  rewrite <- Hl in Em, Eu, El, Hn.
  set (c := closes bars) in *.
  assert (Hmean : List.length (rolling 20 fmean (map Fin c)) = List.length c)
    by now rewrite rolling_length, length_map.
  assert (Hstd : List.length (rolling 20 (fstd sqrt) (map Fin c)) = List.length c)
    by now rewrite rolling_length, length_map.
  unfold fillna in Eu, El.
  rewrite cell_map2 in Eu, El by (rewrite ?length_map; lia).
  rewrite cell_map in Eu, El by (rewrite length_map; lia).
  rewrite cell_map in Eu, El by lia.
  rewrite (cell_rolling 20 fmean) in Em, Eu, El by (rewrite length_map; lia).
  rewrite (cell_rolling 20 (fstd sqrt)) in Eu, El by (rewrite length_map; lia).
  replace (20 <=? List.length c - 1 + 1)%nat with true in Em, Eu, El
    by (symmetry; apply Nat.leb_le; lia).
  rewrite <- (length_map Fin c) in Em, Eu, El.
  rewrite window_last_n in Em, Eu, El by (rewrite length_map; lia).
  rewrite last_n_map in Em, Eu, El.
  destruct (fmean_fstd_fin sqrt (last_n 20 c)) as (m & v & Fm & Hm & Fs & Hv & Hvar).
  { rewrite last_n_length; lia. }
  exists m, v. rewrite Fm in Em, Eu, El. rewrite Fs in Eu, El.
  cbn [isnan fmul fadd fsub fneg] in Eu, El. unfold BOLL_STD in Eu, El.
  split; [exact E|]. split; [exact Hm|]. split; [exact Hvar|].
  split; [exact Em|]. split; [exact Eu|]. split; [exact El|].
  pose proof (Hsqrt v Hv) as Hs. set (s := sqrt v) in *. clearbody s. split; lra.
Qed.

Lemma sqrt_floor_nonneg (q : Q) : (0 <= sqrt_floor q)%Q.
Proof.
  unfold sqrt_floor.
  apply Qle_shift_div_l.
  - change 0%Q with (inject_Z 0). rewrite <- Zlt_Qlt. reflexivity.
  - rewrite Qmult_0_l. change 0%Q with (inject_Z 0). rewrite <- Zle_Qle.
    apply Z.sqrt_nonneg.
Qed.

Lemma X12_bollinger_bands_of_latest_closes_witness :
  exists r m v,
    analyze sqrt_floor (__init__ None) (Some rising20) EmptyString = Ok r
    /\ (m == Qmean (last_n 20 (closes rising20)))%Q
    /\ (v == Qvariance (last_n 20 (closes rising20)))%Q
    /\ boll_mid (r_boll r) = Fin m
    /\ boll_upper (r_boll r) = Fin (m + 2 * sqrt_floor v)
    /\ boll_lower (r_boll r) = Fin (m + - (2 * sqrt_floor v))
    /\ (m + - (2 * sqrt_floor v) <= m /\ m <= m + 2 * sqrt_floor v)%Q.
Proof.
  apply (X12_bollinger_bands_of_latest_closes sqrt_floor None rising20 EmptyString).
  - cbn. lia.
  - intros q _. apply sqrt_floor_nonneg.
Defined.

(** ** Sorting by date *)

Lemma insert_by_date_perm (b : Bar) (l : list Bar) :
  Permutation (insert_by_date b l) (b :: l).
Proof.
  induction l as [|x l IH]; cbn; [reflexivity|].
  destruct (date b <? date x); [reflexivity|].
  rewrite IH. apply perm_swap.
Qed.

Lemma insert_by_date_sorted (b : Bar) (l : list Bar) :
  StronglySorted date_le l -> StronglySorted date_le (insert_by_date b l).
Proof.
  intro H. induction H as [|x l Hl IH Hx]; cbn.
  - constructor; constructor.
  - destruct (date b <? date x) eqn:E.
    + apply Z.ltb_lt in E. constructor; [constructor; assumption|].
      constructor; [unfold date_le; lia|].
      eapply Forall_impl; [|exact Hx]. unfold date_le. intros; lia.
    + apply Z.ltb_ge in E. constructor; [exact IH|].
      apply insert_by_date_Forall; assumption.
Qed.

Lemma fold_insert_by_date (l acc : list Bar) :
  StronglySorted date_le acc ->
  let s := fold_left (fun a b => insert_by_date b a) l acc in
  StronglySorted date_le s /\ Permutation s (l ++ acc).
Proof.
  revert acc. induction l as [|x l IH]; intros acc Ha; cbn.
  - split; [exact Ha | reflexivity].
  - destruct (IH (insert_by_date x acc) (insert_by_date_sorted x acc Ha)) as [Hs Hp].
    split; [exact Hs|]. cbv zeta in Hp. rewrite Hp, insert_by_date_perm.
    symmetry. apply Permutation_middle.
Qed.

(** X13: [sort_values('date')] returns the same rows, in ascending order of
    date. *)
Theorem X13_sort_values_date_sorts (bars : list Bar) :
  StronglySorted date_le (sort_values_date bars)
  /\ Permutation (sort_values_date bars) bars.
Proof.
  destruct (fold_insert_by_date bars [] (SSorted_nil _)) as [Hs Hp].
  unfold sort_values_date. split; [exact Hs|].
  cbv zeta in Hp. now rewrite app_nil_r in Hp.
Qed.

Lemma sort_values_date_sorted_perm (bars : list Bar) :
  StronglySorted date_le (sort_values_date bars)
  /\ Permutation (sort_values_date bars) bars.
Proof.
  destruct (fold_insert_by_date bars [] (SSorted_nil _)) as [Hs Hp].
  unfold sort_values_date. split; [exact Hs|].
  cbv zeta in Hp. now rewrite app_nil_r in Hp.
Qed.

Lemma NoDup_date_eq (l : list Bar) (a b : Bar) :
  NoDup (map date l) -> In a l -> In b l -> date a = date b -> a = b.
Proof.
  induction l as [|x l IH]; cbn; intros Hnd Ha Hb E; [contradiction|].
  inversion Hnd as [|? ? Hx Hl]; subst.
  destruct Ha as [->|Ha], Hb as [->|Hb].
  - reflexivity.
  - exfalso. apply Hx. rewrite E. now apply in_map.
  - exfalso. apply Hx. rewrite <- E. now apply in_map.
  - now apply IH.
Qed.

(** Two sorted arrangements of the same rows are equal when no two rows
    share a date. *)
Lemma sorted_perm_unique (l1 l2 : list Bar) :
  StronglySorted date_le l1 -> StronglySorted date_le l2 ->
  Permutation l1 l2 -> NoDup (map date l1) -> l1 = l2.
Proof.
  intro H1. revert l2. induction H1 as [|a l1 Hs1 IH Ha]; intros l2 H2 Hp Hnd.
  - apply Permutation_nil in Hp. now subst.
  - destruct H2 as [|b l2 Hs2 Hb].
    + symmetry in Hp. apply Permutation_nil in Hp. discriminate Hp.
    + assert (Eab : a = b).
      { assert (Ia : In a (b :: l2)) by (apply (Permutation_in _ Hp); left; reflexivity).
        assert (Ib : In b (a :: l1))
          by (apply (Permutation_in _ (Permutation_sym Hp)); left; reflexivity).
        destruct Ia as [->|Ia]; [reflexivity|].
        destruct Ib as [->|Ib]; [reflexivity|].
        rewrite Forall_forall in Ha, Hb.
        pose proof (Ha b Ib) as L1. pose proof (Hb a Ia) as L2. unfold date_le in *.
        apply (NoDup_date_eq (a :: l1)); [exact Hnd | left; reflexivity | right; exact Ib | lia]. }
      subst b. f_equal. apply IH; [exact Hs2 | | now inversion Hnd].
      now apply Permutation_cons_inv in Hp.
Qed.

Lemma sort_values_date_perm_eq (bars bars' : list Bar) :
  Permutation bars bars' -> NoDup (map date bars) ->
  sort_values_date bars = sort_values_date bars'.
Proof.
  intros Hp Hnd.
  destruct (sort_values_date_sorted_perm bars) as [S1 P1].
  destruct (sort_values_date_sorted_perm bars') as [S2 P2].
  apply sorted_perm_unique; [exact S1 | exact S2 | |].
  - rewrite P1, P2. exact Hp.
  - apply (Permutation_NoDup (l := map date bars)); [|exact Hnd].
    apply Permutation_map. symmetry. exact P1.
Qed.

(** X14: the order in which the rows are given does not matter when every date
    occurs once: [analyze] returns the same result for any rearrangement of
    the rows. *)
Theorem X14_analyze_ignores_row_order (sqrt : Q -> Q) (self : StockTrendAnalyzer)
    (bars bars' : list Bar) (symbol : string) :
  Permutation bars bars' -> NoDup (map date bars) ->
  analyze sqrt self (Some bars) symbol = analyze sqrt self (Some bars') symbol.
Proof.
  intros Hp Hnd. unfold analyze.
  rewrite <- (Permutation_length Hp).
  now rewrite (sort_values_date_perm_eq bars bars' Hp Hnd).
Qed.

Lemma X14_analyze_ignores_row_order_witness :
  analyze sqrt_floor (__init__ None) (Some rising20) EmptyString
  = analyze sqrt_floor (__init__ None) (Some (rev rising20)) EmptyString.
Proof.
  apply (X14_analyze_ignores_row_order sqrt_floor (__init__ None) rising20 (rev rising20)
           EmptyString).
  - apply Permutation_rev.
  - vm_compute. repeat (constructor; [cbn; intuition discriminate|]). constructor.
Defined.

(** ** A market without movement: the columns *)

Lemma Forall_cell (P : fval -> Prop) (l : list fval) (i : nat) :
  Forall P l -> (i < List.length l)%nat -> P (cell l i).
Proof. intros H Hi. unfold cell. rewrite Forall_nth in H. now apply H. Qed.

Lemma Forall_repeat (P : fval -> Prop) (x : fval) (n : nat) :
  P x -> Forall P (repeat x n).
Proof. intro H. induction n; cbn; constructor; assumption. Qed.

Lemma ewm_step_is_fin (a c : Q) (prev x : fval) :
  is_fin prev c -> is_fin x c ->
  is_fin (fadd (fmul (fsub (fz 1) (Fin a)) prev) (fmul (Fin a) x)) c.
Proof.
  intros (p & -> & Hp) (y & -> & Hy). cbn. eexists; split; [reflexivity|].
  rewrite Hp, Hy. unfold inject_Z. ring.
Qed.

Lemma ewm_mean_is_fin (a c : Q) (l : list fval) :
  Forall (fun x => is_fin x c) l -> Forall (fun x => is_fin x c) (ewm_mean (Fin a) l).
Proof.
  apply ewm_mean_Forall. intros prev x. apply ewm_step_is_fin.
Qed.

Lemma is_fin_refl (c : Q) : is_fin (Fin c) c.
Proof. exists c. split; reflexivity. Qed.

(** The MACD columns of constant closes are zero. *)
Lemma _calculate_macd_flat (bars : list Bar) (c : Q) :
  Forall (fun b => close b = c) bars ->
  let '(dif, dea, bar) := _calculate_macd bars in
  Forall (fun x => is_fin x 0) dif /\ Forall (fun x => is_fin x 0) dea
  /\ List.length dif = List.length bars /\ List.length dea = List.length bars.
Proof.
  intro H. unfold _calculate_macd, span_alpha. cbv zeta.
  rewrite (col_const close c bars H).
  set (n := List.length bars).
  assert (Hc : Forall (fun x => is_fin x c) (repeat (Fin c) n))
    by (apply Forall_repeat, is_fin_refl).
  assert (Hdif : Forall (fun x => is_fin x 0)
                   (map2 fsub
                      (ewm_mean (Fin (2 / inject_Z (Z.of_nat MACD_FAST + 1))) (repeat (Fin c) n))
                      (ewm_mean (Fin (2 / inject_Z (Z.of_nat MACD_SLOW + 1))) (repeat (Fin c) n)))).
  { apply (Forall_map2 (fun x => is_fin x c) (fun x => is_fin x c));
      [| apply ewm_mean_is_fin, Hc | apply ewm_mean_is_fin, Hc].
    intros x y (p & -> & Hp) (q & -> & Hq). cbn. eexists; split; [reflexivity|].
    rewrite Hp, Hq. ring. }
  repeat split.
  - exact Hdif.
  - apply ewm_mean_is_fin, Hdif.
  - rewrite map2_length; rewrite !ewm_mean_length, ?repeat_length; reflexivity.
  - rewrite ewm_mean_length, map2_length; rewrite !ewm_mean_length, ?repeat_length;
      reflexivity.
Qed.

(** The RSI columns of constant closes are 50 throughout. *)
Lemma rsi_gain_flat (bars : list Bar) (c : Q) :
  Forall (fun b => close b = c) bars ->
  rsi_gain bars = repeat (fz 0) (List.length bars)
  /\ rsi_loss bars = repeat (Fin (- inject_Z 0)) (List.length bars).
Proof.
  intro H. unfold rsi_gain, rsi_loss, where_. rewrite (col_const close c bars H).
  destruct (List.length bars) as [|n]; [split; reflexivity|].
  cbn [repeat diff map fgt flt]. 
  assert (E : forall k, diff_from (Fin c) (repeat (Fin c) k) = repeat (Fin (c + - c)) k).
  { induction k as [|k IH]; cbn; [reflexivity | now rewrite IH]. }
  rewrite E, !map_repeat. cbn [fgt flt fz].
  replace (Qltb (inject_Z 0) (c + - c)) with false
    by (symmetry; apply Qltb_ge; unfold inject_Z; lra).
  replace (Qltb (c + - c) (inject_Z 0)) with false
    by (symmetry; apply Qltb_ge; unfold inject_Z; lra).
  split; reflexivity.
Qed.

Lemma rolling_mean_repeat_cases (z : Q) (n m i : nat) :
  (i < m)%nat ->
  cell (rolling n fmean (repeat (Fin z) m)) i = NaN
  \/ is_fin (cell (rolling n fmean (repeat (Fin z) m)) i) z.
Proof.
  intro Hi. destruct (Nat.le_gt_cases n (i + 1)) as [H|H].
  - destruct n as [|n].
    + left. rewrite cell_rolling by (rewrite repeat_length; exact Hi). reflexivity.
    + right. apply rolling_mean_repeat; lia.
  - left. rewrite cell_rolling by (rewrite repeat_length; exact Hi).
    replace (n <=? i + 1)%nat with false by (symmetry; apply Nat.leb_gt; lia).
    reflexivity.
Qed.

Lemma rsi_column_flat (period : nat) (bars : list Bar) (c : Q) (i : nat) :
  Forall (fun b => close b = c) bars -> (i < List.length bars)%nat ->
  cell (rsi_column period bars) i = fz 50.
Proof.
  intros H Hi. rewrite (rsi_cell period bars i Hi).
  unfold rsi_avg_gain, rsi_avg_loss.
  destruct (rsi_gain_flat bars c H) as [-> ->].
  change (fz 0) with (Fin (inject_Z 0)).
  destruct (rolling_mean_repeat_cases (inject_Z 0) period (List.length bars) i Hi)
    as [-> | (g & -> & Hg)]; [reflexivity|].
  destruct (rolling_mean_repeat_cases (- inject_Z 0) period (List.length bars) i Hi)
    as [-> | (l & -> & Hl)]; [reflexivity|].
  unfold fdiv at 2.
  replace (Qeq_bool l 0) with true by (symmetry; apply Qeq_bool_iff; rewrite Hl; reflexivity).
  replace (Qeq_bool g 0) with true by (symmetry; apply Qeq_bool_iff; rewrite Hg; reflexivity).
  reflexivity.
Qed.

(** The raw stochastic value of bars without range is 50 throughout, and so
    are K, D and J. *)
Lemma fold_fmin2_repeat (c : Q) (k : nat) :
  fold_left fmin2 (repeat (Fin c) k) (Fin c) = Fin c.
Proof.
  induction k as [|k IH]; [reflexivity|]. cbn [repeat fold_left].
  unfold fmin2 at 2. cbn [isnan orb flt].
  replace (Qltb c c) with false by (symmetry; apply Qltb_ge; apply Qle_refl).
  exact IH.
Qed.

Lemma fold_fmax2_repeat (c : Q) (k : nat) :
  fold_left fmax2 (repeat (Fin c) k) (Fin c) = Fin c.
Proof.
  induction k as [|k IH]; [reflexivity|]. cbn [repeat fold_left].
  unfold fmax2 at 2. cbn [isnan orb flt].
  replace (Qltb c c) with false by (symmetry; apply Qltb_ge; apply Qle_refl).
  exact IH.
Qed.

Lemma fminimum_fmaximum_repeat (c : Q) (k : nat) :
  (0 < k)%nat ->
  fminimum (repeat (Fin c) k) = Fin c /\ fmaximum (repeat (Fin c) k) = Fin c.
Proof.
  intro H. destruct k as [|k]; [lia|]. cbn [repeat fminimum fmaximum].
  split; [apply fold_fmin2_repeat | apply fold_fmax2_repeat].
Qed.

Lemma kdj_rsv_flat (bars : list Bar) (c v : Q) (i : nat) :
  Forall (flat_bar c v) bars -> (i < List.length bars)%nat ->
  cell (kdj_rsv bars) i = fz 50.
Proof.
  intros H Hi.
  assert (Hh : col high bars = repeat (Fin c) (List.length bars)).
  { apply col_const. eapply Forall_impl; [|exact H]. intros b Hb; apply Hb. }
  assert (Hl : col low bars = repeat (Fin c) (List.length bars)).
  { apply col_const. eapply Forall_impl; [|exact H]. intros b Hb; apply Hb. }
  assert (Hc : col close bars = repeat (Fin c) (List.length bars)).
  { apply col_const. eapply Forall_impl; [|exact H]. intros b Hb; apply Hb. }
  unfold kdj_rsv, fillna, replace_zero_nan. rewrite Hh, Hl, Hc.
  set (n := List.length bars) in *.
  assert (Hlo : List.length (rolling KDJ_N fminimum (repeat (Fin c) n)) = n)
    by now rewrite rolling_length, repeat_length.
  assert (Hhi : List.length (rolling KDJ_N fmaximum (repeat (Fin c) n)) = n)
    by now rewrite rolling_length, repeat_length.
  assert (Hcl : List.length (repeat (Fin c) n) = n) by apply repeat_length.
  rewrite cell_map
    by (rewrite length_map, map2_length; rewrite ?length_map, ?map2_length; lia).
  rewrite cell_map by (rewrite map2_length; rewrite ?length_map, ?map2_length; lia).
  rewrite cell_map2 by (rewrite ?length_map, ?map2_length; lia).
  rewrite cell_map by (rewrite map2_length; lia).
  rewrite !cell_map2 by lia.
  rewrite (cell_rolling KDJ_N fminimum), (cell_rolling KDJ_N fmaximum)
    by (rewrite repeat_length; exact Hi).
  rewrite cell_repeat by exact Hi.
  destruct (KDJ_N <=? i + 1)%nat eqn:E; [|reflexivity].
  apply Nat.leb_le in E. rewrite window_repeat by lia.
  destruct (fminimum_fmaximum_repeat c KDJ_N ltac:(unfold KDJ_N; lia)) as [-> ->].
  cbn [fsub fneg fadd feq fz].
  replace (Qeq_bool (c + - c) (inject_Z 0)) with true
    by (symmetry; apply Qeq_bool_iff; unfold inject_Z; ring).
  reflexivity.
Qed.

Lemma _calculate_kdj_flat (bars : list Bar) (c v : Q) :
  Forall (flat_bar c v) bars ->
  let '(k, d, j) := _calculate_kdj bars in
  Forall (fun x => is_fin x 50) k /\ Forall (fun x => is_fin x 50) d
  /\ Forall (fun x => is_fin x 50) j
  /\ List.length k = List.length bars /\ List.length d = List.length bars
  /\ List.length j = List.length bars.
Proof.
  intro H. rewrite _calculate_kdj_rsv. cbv zeta.
  assert (Hr : Forall (fun x => is_fin x 50) (kdj_rsv bars)).
  { apply Forall_nth. intros i d Hi. rewrite kdj_rsv_length in Hi.
    rewrite (nth_indep _ d NaN) by (rewrite kdj_rsv_length; exact Hi).
    change (nth i (kdj_rsv bars) NaN) with (cell (kdj_rsv bars) i).
    rewrite (kdj_rsv_flat bars c v i H Hi). apply is_fin_refl. }
  pose proof (ewm_mean_is_fin (1 / inject_Z (Z.of_nat KDJ_M1)) 50 _ Hr) as Hk.
  pose proof (ewm_mean_is_fin (1 / inject_Z (Z.of_nat KDJ_M2)) 50 _ Hk) as Hd.
  split; [exact Hk|]. split; [exact Hd|]. split.
  - apply (Forall_map2 (fun x => is_fin x 150) (fun x => is_fin x 100)).
    + intros x y (p & -> & Hp) (q & -> & Hq). cbn. eexists; split; [reflexivity|].
      rewrite Hp, Hq. reflexivity.
    + apply Forall_map. eapply Forall_impl; [|exact Hk].
      intros x (p & -> & Hp). cbn. eexists; split; [reflexivity|].
      rewrite Hp. reflexivity.
    + apply Forall_map. eapply Forall_impl; [|exact Hd].
      intros x (p & -> & Hp). cbn. eexists; split; [reflexivity|].
      rewrite Hp. reflexivity.
  - rewrite map2_length; rewrite ?length_map, !ewm_mean_length, ?kdj_rsv_length;
      repeat split; reflexivity.
Qed.

(** ** A market without movement: the stages *)

(** Decide the comparisons of rationals in the goal from the hypotheses. *)
Ltac decide_Q :=
  repeat match goal with
         | |- context [Qltb ?x ?y] =>
             first
               [ replace (Qltb x y) with true
                   by (symmetry; apply Qltb_lt; unfold inject_Z in *; lra)
               | replace (Qltb x y) with false
                   by (symmetry; apply Qltb_ge; unfold inject_Z in *; lra) ]
         | |- context [Qeq_bool ?x ?y] =>
             first
               [ replace (Qeq_bool x y) with true
                   by (symmetry; apply Qeq_bool_iff; unfold inject_Z in *; lra)
               | replace (Qeq_bool x y) with false
                   by (symmetry; apply Qeq_bool_false; unfold inject_Z in *; intro; lra) ]
         end.

Lemma with_kdj_inj (m m' : KDJInfo) (r : TrendAnalysisResult) :
  Ok (with_kdj m r) = Ok (with_kdj m' r) -> m = m'.
Proof. intro H. injection H. auto. Qed.

Lemma _analyze_trend_flat (df : DataFrame) (r : TrendAnalysisResult) (c : Q) :
  is_fin (ma5 (r_ma r)) c -> is_fin (ma10 (r_ma r)) c ->
  _analyze_trend df r
  = Ok (with_trend (mkTrendInfo TrendStatus.CONSOLIDATION (lit "均线缠绕，趋势不明") (fz 50)) r).
Proof.
  intros (a5 & E5 & H5) (a10 & E10 & H10). unfold _analyze_trend. cbv zeta.
  rewrite E5, E10. unfold fgt. cbn [flt].
  decide_Q. cbn [andb]. reflexivity.
Qed.

Lemma bias_section_zero (b : fval) : b =f= fz 0 -> fst (bias_section b) = 16.
Proof.
  destruct b as [x| | |]; cbn; try contradiction. intro H.
  unfold bias_section, fgt. cbn [flt fz]. decide_Q. reflexivity.
Qed.

Lemma macd_state_flat (pd pe d e : fval) :
  is_fin pd 0 -> is_fin pe 0 -> is_fin d 0 -> is_fin e 0 ->
  macd_state_above_zero pd pe d e = Neutral.
Proof.
  intros (a1 & -> & H1) (a2 & -> & H2) (a3 & -> & H3) (a4 & -> & H4).
  unfold macd_state_above_zero, golden_cross, death_cross, crossing_up, crossing_down,
    fge, fle, fgt.
  cbn [fsub fneg fadd flt feq fz]. decide_Q. reflexivity.
Qed.

Lemma _analyze_macd_flat (df : DataFrame) (r : TrendAnalysisResult) :
  (20 <= len df)%nat ->
  macd_status (r_macd r) = MACDStatus.BULLISH ->
  (forall i, (i < len df)%nat -> is_fin (cell (MACD_DIF df) i) 0) ->
  (forall i, (i < len df)%nat -> is_fin (cell (MACD_DEA df) i) 0) ->
  exists m, _analyze_macd df r = Ok (with_macd m r)
            /\ macd_status m = MACDStatus.BULLISH.
Proof.
  intros Hn Hs Hdif Hdea.
  destruct (Nat.lt_ge_cases (len df) 26) as [H|H].
  - unfold _analyze_macd.
    replace (len df <? MACD_SLOW)%nat with true by (symmetry; apply Nat.ltb_lt; exact H).
    eexists; split; [reflexivity | exact Hs].
  - rewrite (_analyze_macd_fields df r H). cbv zeta.
    eexists; split; [reflexivity|]. cbn [macd_status].
    rewrite macd_state_flat; [reflexivity | | | |];
      first [apply Hdif | apply Hdea]; lia.
Qed.

Lemma _analyze_rsi_flat (df : DataFrame) (r : TrendAnalysisResult) :
  (20 <= len df)%nat ->
  rsi_status (r_rsi r) = RSIStatus.NEUTRAL ->
  (forall i, (i < len df)%nat -> cell (RSI_12 df) i = fz 50) ->
  exists m, _analyze_rsi df r = Ok (with_rsi m r)
            /\ rsi_status m = RSIStatus.NEUTRAL.
Proof.
  intros Hn Hs Hc. unfold _analyze_rsi.
  destruct (len df <? RSI_LONG)%nat; [eexists; split; [reflexivity | exact Hs]|].
  rewrite (iloc_last df (-1)) by lia. cbn [bind].
  rewrite Hc by lia.
  change (fgt (fz 50) RSI_OVERBOUGHT) with false.
  change (fgt (fz 50) (fz 60)) with false.
  change (fge (fz 50) (fz 40)) with true.
  cbv iota. eexists; split; reflexivity.
Qed.

Lemma _analyze_kdj_flat (df : DataFrame) (r : TrendAnalysisResult) :
  (20 <= len df)%nat ->
  (forall i, (i < len df)%nat -> is_fin (cell (KDJ_K df) i) 50) ->
  (forall i, (i < len df)%nat -> is_fin (cell (KDJ_D df) i) 50) ->
  (forall i, (i < len df)%nat -> is_fin (cell (KDJ_J df) i) 50) ->
  exists m, _analyze_kdj df r = Ok (with_kdj m r)
            /\ kdj_status m = KDJStatus.NEUTRAL.
Proof.
  intros Hn Hk Hd Hj. unfold _analyze_kdj.
  replace (len df <? KDJ_N)%nat with false
    by (symmetry; apply Nat.ltb_ge; unfold KDJ_N; lia).
  rewrite (iloc_last df (-1)), (iloc_last df (-2)) by lia. cbn [bind].
  destruct (Hk (len df - Z.to_nat (- -1))%nat ltac:(lia)) as (k & -> & Ek).
  destruct (Hd (len df - Z.to_nat (- -1))%nat ltac:(lia)) as (d & -> & Ed).
  destruct (Hj (len df - Z.to_nat (- -1))%nat ltac:(lia)) as (j & -> & Ej).
  destruct (Hk (len df - Z.to_nat (- -2))%nat ltac:(lia)) as (pk & -> & Epk).
  destruct (Hd (len df - Z.to_nat (- -2))%nat ltac:(lia)) as (pd & -> & Epd).
  unfold fge, fle, fgt. cbn [fsub fneg fadd flt feq fz].
  decide_Q. cbn [andb orb]. eexists; split; reflexivity.
Qed.

Lemma boll_state_flat (c u lo : Q) (mid : fval) :
  (0 < c)%Q -> (u == c)%Q ->
  fst (boll_state (Fin c) (Fin u) mid (Fin lo)) = BOLLStatus.UPPER_BREAK.
Proof.
  intros Hc Hu. unfold boll_state, fge, fle.
  cbn [fsub fneg fadd fmul flt feq fz].
  decide_Q. reflexivity.
Qed.

Lemma frame_flat_cells (sqrt : Q -> Q) (bars : list Bar) (c v : Q) (i : nat) :
  Forall (flat_bar c v) bars ->
  let df := frame_of sqrt bars in
  (i < len df)%nat ->
  is_fin (cell (MACD_DIF df) i) 0 /\ is_fin (cell (MACD_DEA df) i) 0
  /\ cell (RSI_12 df) i = fz 50
  /\ is_fin (cell (KDJ_K df) i) 50 /\ is_fin (cell (KDJ_D df) i) 50
  /\ is_fin (cell (KDJ_J df) i) 50.
Proof.
  intros H df Hi. unfold df in Hi. rewrite len_frame_of in Hi.
  pose proof (sort_values_date_Forall _ _ H) as Hs.
  assert (Hc : Forall (fun b => close b = c) (sort_values_date bars)).
  { eapply Forall_impl; [|exact Hs]. intros b Hb; apply Hb. }
  rewrite <- (sort_values_date_length bars) in Hi.
  pose proof (_calculate_macd_flat _ c Hc) as Hm.
  pose proof (_calculate_kdj_flat _ c v Hs) as Hk.
  pose proof (rsi_column_flat RSI_MID _ c i Hc Hi) as Hr.
  unfold df, frame_of, calculate.
  destruct (_calculate_mas (sort_values_date bars)) as [[[m5 m10] m20] m60].
  destruct (_calculate_macd (sort_values_date bars)) as [[dif dea] bar].
  unfold _calculate_rsi.
  destruct (_calculate_kdj (sort_values_date bars)) as [[k d] j].
  destruct (_calculate_boll sqrt (sort_values_date bars)) as [[mid upper] lower].
  cbn [MACD_DIF MACD_DEA RSI_12 KDJ_K KDJ_D KDJ_J].
  destruct Hm as (Hdif & Hdea & Ldif & Ldea).
  destruct Hk as (Hk & Hd & Hj & Lk & Ld & Lj).
  repeat split; try exact Hr;
    match goal with
    | |- is_fin (cell ?l _) ?z => apply (Forall_cell (fun x => is_fin x z) l); [assumption | lia]
    end.
Qed.

(** X15: a market without any movement - at least 20 bars whose high, low and
    close all equal one positive price, with one positive volume - is
    analysed by [analyze_stock] as: trend CONSOLIDATION, volume NORMAL, MA5
    and MA10 support, MACD in the neutral zone (label BULLISH), RSI NEUTRAL,
    KDJ NEUTRAL, and Bollinger UPPER_BREAK, since bands of zero width put the
    price at the upper band.  The score is 10 + 16 + 8 + 8 + 6 + 4 + 3 + 1 =
    56 and the recommendation HOLD, whatever the number of bars. *)
Theorem X15_flat_market_scores_56_hold (sqrt : Q -> Q) (bars : list Bar)
    (symbol : string) (c v : Q) :
  (forall x, x == 0 -> sqrt x == 0)%Q ->
  (20 <= List.length bars)%nat ->
  Forall (flat_bar c v) bars ->
  (0 < c)%Q -> (0 < v)%Q ->
  exists r,
    analyze_stock sqrt (Some bars) symbol = Ok r
    /\ trend_status (r_trend r) = TrendStatus.CONSOLIDATION
    /\ volume_status (r_volume r) = VolumeStatus.NORMAL
    /\ support_ma5 (r_support r) = true /\ support_ma10 (r_support r) = true
    /\ macd_status (r_macd r) = MACDStatus.BULLISH
    /\ rsi_status (r_rsi r) = RSIStatus.NEUTRAL
    /\ kdj_status (r_kdj r) = KDJStatus.NEUTRAL
    /\ boll_status (r_boll r) = BOLLStatus.UPPER_BREAK
    /\ signal_score (r_signal r) = 56
    /\ buy_signal (r_signal r) = BuySignal.HOLD.
Proof.
  intros Hsqrt Hn Hflat Hc Hv. unfold analyze_stock.
  assert (Hclose : Forall (fun b => close b = c) bars).
  { eapply Forall_impl; [|exact Hflat]. intros b Hb; apply Hb. }
  assert (Hvolume : Forall (fun b => volume b = v) bars).
  { eapply Forall_impl; [|exact Hflat]. intros b Hb; apply Hb. }
  destruct (analyze_stages sqrt (__init__ None) bars symbol Hn (init_weights_length None))
    as (t & b & vi & sp & m & rs & k & bo & ob & sg & Hst & E).
  set (df := frame_of sqrt bars) in *.
  assert (Hdf : len df = List.length bars) by apply len_frame_of.
  assert (Hdf20 : (20 <= len df)%nat) by lia.
  unfold stages in Hst; cbv zeta in Hst.
  destruct Hst as (Ht & Hb & Hvol & Hsup & Hm & Hrs & Hk & Hbo & Hsig).
  rewrite E. eexists; split; [reflexivity|].
  pose proof (flat_ma5 sqrt bars c Hn Hclose) as H5.
  pose proof (flat_ma10 sqrt bars c Hn Hclose) as H10.
  pose proof (flat_ma20 sqrt bars c Hn Hclose) as H20.
  pose proof (flat_price sqrt bars c Hn Hclose) as Hp.
  fold df in H5, H10, H20, Hp.
  (* trend *)
  rewrite (_analyze_trend_flat df (first_result df symbol) c H5 H10) in Ht.
  apply with_trend_inj in Ht. subst t.
  (* bias *)
  match type of Hb with
  | _calculate_bias ?r1 = _ =>
      destruct (_calculate_bias_flat r1 c Hp H5 H10 H20 eq_refl)
        as (b5 & b10 & b20 & Eb & Hb5 & _ & _)
  end.
  rewrite Eb in Hb. apply with_bias_inj in Hb. subst b.
  (* volume *)
  assert (Hvc : col volume (rows df) = repeat (Fin v) (len df)).
  { unfold len. apply col_const. unfold df, frame_of. rewrite rows_calculate.
    apply sort_values_date_Forall. exact Hvolume. }
  match type of Hvol with
  | _analyze_volume _ ?r2 = _ =>
      destruct (_analyze_volume_flat df r2 v ltac:(lia) Hvc Hv) as (ratio & Ev & _)
  end.
  rewrite Ev in Hvol. apply with_volume_inj in Hvol. subst vi.
  (* support *)
  match type of Hsup with
  | _analyze_support_resistance _ ?r3 = _ =>
      destruct (support_levels_eq df r3) as (sp' & Es & _ & Hs5 & Hs10)
  end.
  rewrite Es in Hsup. apply with_support_inj in Hsup. subst sp'.
  cbn [r_ma r_support with_volume with_bias with_trend] in Hs5, Hs10.
  rewrite (near_equal (current_price (r_ma (first_result df symbol)))
             (ma5 (r_ma (first_result df symbol))) c Hp H5 Hc) in Hs5.
  rewrite (near_equal (current_price (r_ma (first_result df symbol)))
             (ma10 (r_ma (first_result df symbol))) c Hp H10 Hc) in Hs10.
  rewrite orb_true_r in Hs5, Hs10.
  (* MACD, RSI, KDJ *)
  pose proof (fun i Hi => frame_flat_cells sqrt bars c v i Hflat Hi) as Hcells.
  fold df in Hcells.
  match type of Hm with
  | _analyze_macd _ ?r4 = _ =>
      destruct (_analyze_macd_flat df r4 Hdf20 eq_refl
                  (fun i Hi => proj1 (Hcells i Hi))
                  (fun i Hi => proj1 (proj2 (Hcells i Hi))))
        as (m' & Em & Hms)
  end.
  rewrite Em in Hm. apply with_macd_inj in Hm. subst m'.
  match type of Hrs with
  | _analyze_rsi _ ?r5 = _ =>
      destruct (_analyze_rsi_flat df r5 Hdf20 eq_refl
                  (fun i Hi => proj1 (proj2 (proj2 (Hcells i Hi)))))
        as (rs' & Ers & Hrss)
  end.
  rewrite Ers in Hrs. apply with_rsi_inj in Hrs. subst rs'.
  match type of Hk with
  | _analyze_kdj _ ?r6 = _ =>
      destruct (_analyze_kdj_flat df r6 Hdf20
                  (fun i Hi => proj1 (proj2 (proj2 (proj2 (Hcells i Hi)))))
                  (fun i Hi => proj1 (proj2 (proj2 (proj2 (proj2 (Hcells i Hi))))))
                  (fun i Hi => proj2 (proj2 (proj2 (proj2 (proj2 (Hcells i Hi)))))))
        as (k' & Ek & Hks)
  end.
  rewrite Ek in Hk. apply with_kdj_inj in Hk. subst k'.
  (* Bollinger *)
  match type of Hbo with
  | _analyze_boll _ ?r7 = _ =>
      destruct (_analyze_boll_fields df r7 Hdf20) as (pos & ob' & Ebo & _)
  end.
  rewrite Ebo in Hbo. apply with_boll_obv_inj in Hbo. destruct Hbo as [<- <-].
  destruct (flat_bands sqrt bars c Hn Hclose Hsqrt) as (_ & u & lo & Eu & Elo & Hu & _).
  fold df in Eu, Elo.
  match type of Hsig with
  | _generate_signal _ ?x = _ => set (r8 := x) in *
  end.
  assert (Hbs : boll_status (r_boll r8) = BOLLStatus.UPPER_BREAK).
  { unfold r8. cbn [r_boll with_obv with_boll boll_status].
    cbn [r_ma with_kdj with_rsi with_macd with_support with_volume with_bias with_trend
         first_result with_ma current_price].
    change (len df - Z.to_nat (- -1))%nat with (len df - 1)%nat.
    rewrite Hp, Eu, Elo. apply boll_state_flat; assumption. }
  assert (Hscore :
            trend_raw r8 + bias_raw r8 + vol_raw r8 + support_raw r8 + macd_raw r8
            + rsi_raw r8 + kdj_raw r8 + boll_raw r8 = 56).
  { unfold trend_raw, bias_raw, vol_raw, support_raw, macd_raw, rsi_raw, kdj_raw, boll_raw.
    rewrite Hbs. unfold r8.
    cbn [r_trend r_bias r_volume r_support r_macd r_rsi r_kdj
         with_obv with_boll with_kdj with_rsi with_macd with_support with_volume
         with_bias with_trend trend_status bias_ma5 volume_status].
    rewrite Hs5, Hs10, Hms, Hrss, Hks, (bias_section_zero b5 Hb5).
    reflexivity. }
  (* the aggregation *)
  change (__init__ None) with (mkAnalyzer DEFAULT_WEIGHTS) in Hsig.
  rewrite generate_signal_default in Hsig. apply with_signal_inj in Hsig. subst sg.
  unfold assemble.
  cbn [r_trend r_volume r_support r_macd r_rsi r_kdj r_boll r_signal
       trend_status volume_status signal_score buy_signal].
  rewrite Hscore.
  repeat split; try assumption; try reflexivity.
Qed.

Lemma flat20_flat_bars (v : Q) : Forall (flat_bar 10 v) (flat20 v).
Proof. unfold flat_bar, flat20. cbn. repeat constructor. Qed.

Lemma X15_flat_market_scores_56_hold_witness :
  exists r,
    analyze_stock sqrt_floor (Some (flat20 1000)) EmptyString = Ok r
    /\ trend_status (r_trend r) = TrendStatus.CONSOLIDATION
    /\ volume_status (r_volume r) = VolumeStatus.NORMAL
    /\ support_ma5 (r_support r) = true /\ support_ma10 (r_support r) = true
    /\ macd_status (r_macd r) = MACDStatus.BULLISH
    /\ rsi_status (r_rsi r) = RSIStatus.NEUTRAL
    /\ kdj_status (r_kdj r) = KDJStatus.NEUTRAL
    /\ boll_status (r_boll r) = BOLLStatus.UPPER_BREAK
    /\ signal_score (r_signal r) = 56
    /\ buy_signal (r_signal r) = BuySignal.HOLD.
Proof.
  apply (X15_flat_market_scores_56_hold sqrt_floor (flat20 1000) EmptyString 10 1000).
  - exact sqrt_floor_zero.
  - cbn. lia.
  - apply flat20_flat_bars.
  - reflexivity.
  - reflexivity.
Defined.

(** ** RSI of closes that only rise or only fall *)

Lemma fsum_pos (l : list fval) :
  Forall fin_nonneg l -> Exists fin_pos l -> fin_pos (fsum l).
Proof.
  unfold fsum.
  assert (G : forall acc, fin_nonneg acc -> Forall fin_nonneg l ->
                          (fin_pos acc \/ Exists fin_pos l) ->
                          fin_pos (fold_left fadd l acc)).
  { induction l as [|x l IH]; intros acc Ha H Hp; cbn [fold_left].
    - destruct Hp as [Hp|Hp]; [exact Hp | inversion Hp].
    - inversion H as [|? ? Hx Hl]; subst.
      destruct acc as [a| | |], x as [x| | |]; cbn in Ha, Hx; try contradiction.
      apply IH; [cbn; lra | exact Hl |].
      destruct Hp as [Hp|Hp]; [left; cbn in *; lra|].
      inversion Hp as [? ? Hp'|? ? Hp']; subst; [left; cbn in *; lra | right; exact Hp']. }
  intros H Hp. apply G; [cbn; discriminate | exact H | right; exact Hp].
Qed.

Lemma fmean_pos (l : list fval) :
  Forall fin_nonneg l -> Exists fin_pos l -> fin_pos (fmean l).
Proof.
  intros H Hp. pose proof (fsum_pos l H Hp) as Hs.
  destruct l as [|x l]; [inversion Hp|].
  unfold fmean. set (l' := x :: l) in *.
  destruct (fsum l') as [s| | |]; cbn in Hs; try contradiction.
  rewrite fdiv_fin_nat by (cbn; lia). cbn.
  apply Qlt_shift_div_l; [|lra].
  change 0%Q with (inject_Z 0). rewrite <- Zlt_Qlt. cbn. lia.
Qed.

(** The differences of rising closes are positive, those of falling closes
    negative. *)
Lemma diff_from_rising (a : Q) (l : list Q) :
  rising_from a l ->
  Forall (fun x => exists q, x = Fin q /\ (0 < q)%Q) (diff_from (Fin a) (map Fin l)).
Proof.
  revert a; induction l as [|x l IH]; intros a H; cbn; [constructor|].
  destruct H as [H1 H2]. constructor; [|apply IH, H2].
  eexists; split; [reflexivity | lra].
Qed.

Lemma diff_from_falling (a : Q) (l : list Q) :
  falling_from a l ->
  Forall (fun x => exists q, x = Fin q /\ (q < 0)%Q) (diff_from (Fin a) (map Fin l)).
Proof.
  revert a; induction l as [|x l IH]; intros a H; cbn; [constructor|].
  destruct H as [H1 H2]. constructor; [|apply IH, H2].
  eexists; split; [reflexivity | lra].
Qed.

Lemma Forall_tail_cell (P : fval -> Prop) (x : fval) (l : list fval) (i : nat) :
  Forall P l -> (1 <= i < S (List.length l))%nat -> P (cell (x :: l) i).
Proof.
  intros H Hi. destruct i as [|i]; [lia|]. unfold cell. cbn [nth].
  rewrite Forall_nth in H. apply H. lia.
Qed.

(** Gains and losses of rising closes: no loss, and a positive gain on every
    row but the first. *)
Lemma rsi_gain_loss_rising (bars : list Bar) :
  rising (map close bars) ->
  rsi_loss bars = repeat (Fin (- inject_Z 0)) (List.length bars)
  /\ forall i, (1 <= i < List.length bars)%nat -> fin_pos (cell (rsi_gain bars) i).
Proof.
  intro H. unfold rsi_gain, rsi_loss, where_, col.
  rewrite <- (map_map close Fin). rewrite <- (length_map close bars).
  destruct (map close bars) as [|a l]; [split; [reflexivity | cbn; intros; lia]|].
  cbn [rising] in H. pose proof (diff_from_rising a l H) as Hd.
  cbn [map diff List.length repeat flt fgt].
  assert (Hlen : List.length (diff_from (Fin a) (map Fin l)) = List.length l)
    by now rewrite diff_from_length, length_map.
  split.
  - f_equal. rewrite <- Hlen. clear Hlen.
    induction Hd as [|x d (q & -> & Hq) Hd IH]; cbn; [reflexivity|].
    rewrite IH. unfold fz. cbn [flt].
    replace (Qltb q (inject_Z 0)) with false
      by (symmetry; apply Qltb_ge; unfold inject_Z; lra).
    reflexivity.
  - intros i Hi. apply Forall_tail_cell; [|rewrite length_map; lia].
    apply Forall_map. eapply Forall_impl; [|exact Hd].
    intros x (q & -> & Hq). unfold fz. cbn [fgt flt].
    replace (Qltb (inject_Z 0) q) with true
      by (symmetry; apply Qltb_lt; unfold inject_Z; lra).
    exact Hq.
Qed.

Lemma rsi_gain_loss_falling (bars : list Bar) :
  falling (map close bars) ->
  rsi_gain bars = repeat (fz 0) (List.length bars)
  /\ forall i, (1 <= i < List.length bars)%nat -> fin_pos (cell (rsi_loss bars) i).
Proof.
  intro H. unfold rsi_gain, rsi_loss, where_, col.
  rewrite <- (map_map close Fin). rewrite <- (length_map close bars).
  destruct (map close bars) as [|a l]; [split; [reflexivity | cbn; intros; lia]|].
  cbn [falling] in H. pose proof (diff_from_falling a l H) as Hd.
  cbn [map diff List.length repeat flt fgt].
  assert (Hlen : List.length (diff_from (Fin a) (map Fin l)) = List.length l)
    by now rewrite diff_from_length, length_map.
  split.
  - f_equal. rewrite <- Hlen. clear Hlen.
    induction Hd as [|x d (q & -> & Hq) Hd IH]; cbn [map List.length repeat];
      [reflexivity|].
    rewrite IH. unfold fz, fgt. cbn [flt].
    replace (Qltb (inject_Z 0) q) with false
      by (symmetry; apply Qltb_ge; unfold inject_Z; lra).
    reflexivity.
  - intros i Hi. apply Forall_tail_cell; [|rewrite !length_map; lia].
    apply Forall_map, Forall_map. eapply Forall_impl; [|exact Hd].
    intros x (q & -> & Hq). unfold fz. cbn [flt].
    replace (Qltb q (inject_Z 0)) with true
      by (symmetry; apply Qltb_lt; unfold inject_Z; lra).
    cbn. lra.
Qed.

Lemma rolling_mean_pos (n : nat) (l : list fval) (i : nat) :
  Forall fin_nonneg l -> (2 <= n <= i + 1)%nat -> (i < List.length l)%nat ->
  fin_pos (cell l i) ->
  fin_pos (cell (rolling n fmean l) i).
Proof.
  intros H Hn Hi Hp. rewrite cell_rolling by exact Hi.
  replace (n <=? i + 1)%nat with true by (symmetry; apply Nat.leb_le; lia).
  apply fmean_pos; [apply Forall_window, H|].
  apply Exists_exists. exists (cell l i). split; [|exact Hp].
  unfold window, cell. apply In_window; lia.
Qed.

(** On a full window RSI is 100 when the closes only rose, and 0 when they
    only fell. *)
Lemma rsi_column_rising (period : nat) (bars : list Bar) (i : nat) :
  rising (map close bars) ->
  (2 <= period <= i + 1)%nat -> (i < List.length bars)%nat ->
  cell (rsi_column period bars) i =f= fz 100.
Proof.
  intros H Hp Hi. rewrite (rsi_cell period bars i Hi).
  destruct (rsi_gain_loss_rising bars H) as [El Hg].
  assert (Lg : List.length (rsi_gain bars) = List.length bars).
  { unfold rsi_gain, where_. now rewrite length_map, diff_length, col_length. }
  pose proof (rolling_mean_pos period (rsi_gain bars) i (rsi_gain_nonneg bars)
                Hp ltac:(lia) (Hg i ltac:(lia))) as Hag.
  unfold rsi_avg_gain, rsi_avg_loss. rewrite El.
  destruct (rolling_mean_repeat (- inject_Z 0) period (List.length bars) i
              ltac:(lia) Hi) as (l & -> & Hl).
  destruct (cell (rolling period fmean (rsi_gain bars)) i) as [g| | |];
    cbn in Hag; try contradiction.
  assert (Er : fdiv (Fin g) (Fin l) = PInf).
  { unfold fdiv.
    replace (Qeq_bool l 0) with true
      by (symmetry; apply Qeq_bool_iff; rewrite Hl; reflexivity).
    replace (Qeq_bool g 0) with false by (symmetry; apply Qeq_bool_false; intro; lra).
    replace (Qltb 0 g) with true by (symmetry; apply Qltb_lt; exact Hag).
    reflexivity. }
  rewrite Er. cbn. unfold inject_Z. ring.
Qed.

Lemma rsi_column_falling (period : nat) (bars : list Bar) (i : nat) :
  falling (map close bars) ->
  (2 <= period <= i + 1)%nat -> (i < List.length bars)%nat ->
  cell (rsi_column period bars) i =f= fz 0.
Proof.
  intros H Hp Hi. rewrite (rsi_cell period bars i Hi).
  destruct (rsi_gain_loss_falling bars H) as [Eg Hl].
  assert (Ll : List.length (rsi_loss bars) = List.length bars).
  { unfold rsi_loss, where_. now rewrite !length_map, diff_length, col_length. }
  pose proof (rolling_mean_pos period (rsi_loss bars) i (rsi_loss_nonneg bars)
                Hp ltac:(lia) (Hl i ltac:(lia))) as Hal.
  unfold rsi_avg_gain, rsi_avg_loss. rewrite Eg.
  change (fz 0) with (Fin (inject_Z 0)).
  destruct (rolling_mean_repeat (inject_Z 0) period (List.length bars) i
              ltac:(lia) Hi) as (g & -> & Hg).
  destruct (cell (rolling period fmean (rsi_loss bars)) i) as [l| | |];
    cbn in Hal; try contradiction.
  assert (Hq : (g / l == 0)%Q) by (rewrite Hg; unfold inject_Z; field; lra).
  assert (Er : fdiv (Fin g) (Fin l) = Fin (g / l)).
  { unfold fdiv.
    replace (Qeq_bool l 0) with false by (symmetry; apply Qeq_bool_false; intro; lra).
    reflexivity. }
  rewrite Er. unfold fz. cbn [fadd]. unfold fdiv.
  replace (Qeq_bool (inject_Z 1 + g / l) 0) with false
    by (symmetry; apply Qeq_bool_false; rewrite Hq; discriminate).
  cbn. rewrite Hq. reflexivity.
Qed.

Lemma _analyze_rsi_fields (df : DataFrame) (r : TrendAnalysisResult) :
  (24 <= len df)%nat ->
  let latest := (len df - 1)%nat in
  exists sig,
    _analyze_rsi df r
    = Ok (with_rsi
            (mkRSIInfo (cell (RSI_6 df) latest) (cell (RSI_12 df) latest)
               (cell (RSI_24 df) latest) (rsi_label (cell (RSI_12 df) latest)) sig)
            r).
Proof.
  intros H latest. unfold _analyze_rsi.
  replace (len df <? RSI_LONG)%nat with false
    by (symmetry; apply Nat.ltb_ge; unfold RSI_LONG; lia).
  rewrite (iloc_last df (-1)) by lia.
  change (len df - Z.to_nat (- -1))%nat with latest. cbn [bind].
  unfold rsi_label. split_ifs; eexists; reflexivity.
Qed.

Lemma frame_rsi (sqrt : Q -> Q) (bars : list Bar) :
  let df := calculate sqrt bars in
  RSI_6 df = rsi_column RSI_SHORT bars
  /\ RSI_12 df = rsi_column RSI_MID bars
  /\ RSI_24 df = rsi_column RSI_LONG bars.
Proof. repeat split. Qed.

Lemma analyze_rsi_cells (sqrt : Q -> Q) (score_weights : option (list Z))
    (bars : list Bar) (symbol : string) :
  (24 <= List.length bars)%nat ->
  let sorted := sort_values_date bars in
  let latest := (List.length bars - 1)%nat in
  exists r,
    analyze sqrt (__init__ score_weights) (Some bars) symbol = Ok r
    /\ rsi_6 (r_rsi r) = cell (rsi_column RSI_SHORT sorted) latest
    /\ rsi_12 (r_rsi r) = cell (rsi_column RSI_MID sorted) latest
    /\ rsi_24 (r_rsi r) = cell (rsi_column RSI_LONG sorted) latest
    /\ rsi_status (r_rsi r) = rsi_label (cell (rsi_column RSI_MID sorted) latest).
Proof.
  intros Hn sorted latest.
  destruct (analyze_stages sqrt (__init__ score_weights) bars symbol ltac:(lia)
              (init_weights_length score_weights))
    as (t & b & v & s & m & rs & k & bo & o & sg & Hst & E).
  rewrite E. eexists; split; [reflexivity|].
  unfold stages in Hst; cbv zeta in Hst.
  destruct Hst as (_ & _ & _ & _ & _ & Hrs & _).
  assert (Hdf : (24 <= len (frame_of sqrt bars))%nat) by (rewrite len_frame_of; exact Hn).
  match type of Hrs with
  | _analyze_rsi _ ?r5 = _ =>
      destruct (_analyze_rsi_fields (frame_of sqrt bars) r5 Hdf) as (sig & Ers)
  end.
  rewrite Ers in Hrs. apply with_rsi_inj in Hrs. subst rs.
  unfold assemble. cbn [r_rsi rsi_6 rsi_12 rsi_24 rsi_status].
  rewrite len_frame_of.
  destruct (frame_rsi sqrt (sort_values_date bars)) as (E6 & E12 & E24).
  unfold frame_of. rewrite E6, E12, E24. repeat split.
Qed.

Lemma rsi_label_100 (x : fval) : x =f= fz 100 -> rsi_label x = RSIStatus.OVERBOUGHT.
Proof.
  destruct x as [q| | |]; cbn; try contradiction. intro H.
  unfold rsi_label, fgt, RSI_OVERBOUGHT. cbn [flt]. decide_Q. reflexivity.
Qed.

Lemma rsi_label_0 (x : fval) : x =f= fz 0 -> rsi_label x = RSIStatus.OVERSOLD.
Proof.
  destruct x as [q| | |]; cbn; try contradiction. intro H.
  unfold rsi_label, fgt, fge, fle, RSI_OVERBOUGHT, RSI_OVERSOLD, fz. cbn [flt feq].
  decide_Q. reflexivity.
Qed.

(** X16: when the closes of at least 24 bars, taken in order of date, rise from
    each bar to the next, RSI(6), RSI(12) and RSI(24) of the result are all
    100 and the label is OVERBOUGHT: a zero average loss gives an infinite
    ratio, never the neutral 50. *)
Theorem X16_rising_closes_give_rsi_100 (sqrt : Q -> Q)
    (score_weights : option (list Z)) (bars : list Bar) (symbol : string) :
  (24 <= List.length bars)%nat ->
  rising (closes bars) ->
  exists r,
    analyze sqrt (__init__ score_weights) (Some bars) symbol = Ok r
    /\ rsi_6 (r_rsi r) =f= fz 100
    /\ rsi_12 (r_rsi r) =f= fz 100
    /\ rsi_24 (r_rsi r) =f= fz 100
    /\ rsi_status (r_rsi r) = RSIStatus.OVERBOUGHT.
Proof.
  intros Hn Hr.
  destruct (analyze_rsi_cells sqrt score_weights bars symbol Hn)
    as (r & E & E6 & E12 & E24 & Es).
  exists r. split; [exact E|].
  assert (Hl : List.length (sort_values_date bars) = List.length bars)
    by apply sort_values_date_length.
  assert (C : forall p, (2 <= p <= 24)%nat ->
                cell (rsi_column p (sort_values_date bars)) (List.length bars - 1)
                =f= fz 100).
  { intros p Hp. apply rsi_column_rising; [exact Hr | lia | lia]. }
  rewrite E6, E12, E24, Es.
  pose proof (C RSI_SHORT ltac:(unfold RSI_SHORT; lia)) as C6.
  pose proof (C RSI_MID ltac:(unfold RSI_MID; lia)) as C12.
  pose proof (C RSI_LONG ltac:(unfold RSI_LONG; lia)) as C24.
  repeat split; try assumption. apply rsi_label_100, C12.
Qed.

Lemma X16_rising_closes_give_rsi_100_witness :
  exists r,
    analyze sqrt_floor (__init__ None) (Some rising24) EmptyString = Ok r
    /\ rsi_6 (r_rsi r) =f= fz 100
    /\ rsi_12 (r_rsi r) =f= fz 100
    /\ rsi_24 (r_rsi r) =f= fz 100
    /\ rsi_status (r_rsi r) = RSIStatus.OVERBOUGHT.
Proof.
  apply (X16_rising_closes_give_rsi_100 sqrt_floor None rising24 EmptyString).
  - cbn. lia.
  - vm_compute. repeat split.
Defined.

(** X17: when the closes of at least 24 bars, taken in order of date, fall from
    each bar to the next, RSI(6), RSI(12) and RSI(24) of the result are all 0
    and the label is OVERSOLD. *)
Theorem X17_falling_closes_give_rsi_0 (sqrt : Q -> Q)
    (score_weights : option (list Z)) (bars : list Bar) (symbol : string) :
  (24 <= List.length bars)%nat ->
  falling (closes bars) ->
  exists r,
    analyze sqrt (__init__ score_weights) (Some bars) symbol = Ok r
    /\ rsi_6 (r_rsi r) =f= fz 0
    /\ rsi_12 (r_rsi r) =f= fz 0
    /\ rsi_24 (r_rsi r) =f= fz 0
    /\ rsi_status (r_rsi r) = RSIStatus.OVERSOLD.
Proof.
  intros Hn Hr.
  destruct (analyze_rsi_cells sqrt score_weights bars symbol Hn)
    as (r & E & E6 & E12 & E24 & Es).
  exists r. split; [exact E|].
  assert (Hl : List.length (sort_values_date bars) = List.length bars)
    by apply sort_values_date_length.
  assert (C : forall p, (2 <= p <= 24)%nat ->
                cell (rsi_column p (sort_values_date bars)) (List.length bars - 1)
                =f= fz 0).
  { intros p Hp. apply rsi_column_falling; [exact Hr | lia | lia]. }
  rewrite E6, E12, E24, Es.
  pose proof (C RSI_SHORT ltac:(unfold RSI_SHORT; lia)) as C6.
  pose proof (C RSI_MID ltac:(unfold RSI_MID; lia)) as C12.
  pose proof (C RSI_LONG ltac:(unfold RSI_LONG; lia)) as C24.
  repeat split; try assumption. apply rsi_label_0, C12.
Qed.

Lemma X17_falling_closes_give_rsi_0_witness :
  exists r,
    analyze sqrt_floor (__init__ None) (Some falling24) EmptyString = Ok r
    /\ rsi_6 (r_rsi r) =f= fz 0
    /\ rsi_12 (r_rsi r) =f= fz 0
    /\ rsi_24 (r_rsi r) =f= fz 0
    /\ rsi_status (r_rsi r) = RSIStatus.OVERSOLD.
Proof.
  apply (X17_falling_closes_give_rsi_0 sqrt_floor None falling24 EmptyString).
  - cbn. lia.
  - vm_compute. repeat split.
Defined.

(** ** The resistance level *)

Lemma tail_slice_last_n (n : nat) (l : list fval) :
  (n <= List.length l)%nat -> tail_slice n 0 l = last_n n l.
Proof.
  intro H. unfold tail_slice, last_n. apply firstn_all2.
  rewrite length_skipn. lia.
Qed.

Lemma resistance_levels_eq (df : DataFrame) (result : TrendAnalysisResult) :
  let price := current_price (r_ma result) in
  let recent_high := fmaximum (tail_slice 20 0 (col high (rows df))) in
  exists s,
    _analyze_support_resistance df result = Ok (with_support s result)
    /\ resistance_levels s
       = resistance_levels (r_support result)
         ++ (if (20 <=? len df)%nat && fgt recent_high price then [recent_high] else []).
Proof.
  intros price recent_high.
  unfold _analyze_support_resistance. fold price. fold recent_high.
  destruct (fgt (ma5 (r_ma result)) (fz 0)) eqn:E5;
    [rewrite (py_truediv_pos _ _ E5)|]; cbn [bind];
    (destruct (fgt (ma10 (r_ma result)) (fz 0)) eqn:E10;
     [rewrite (py_truediv_pos _ _ E10)|]); cbn [bind];
    repeat match goal with
           | |- context [if ?c then _ else _] =>
               lazymatch c with
               | context [if _ then _ else _] => fail
               | _ => destruct c eqn:?
               end
           end;
    cbn [bind andb resistance_levels] in *; try discriminate;
    eexists; (split; [reflexivity|]);
    cbn [resistance_levels]; rewrite ?app_nil_r; reflexivity.
Qed.

(** X18: on a frame of at least 20 rows the analysis stores at most one
    resistance level: the highest high of the 20 latest bars, and only when
    it lies strictly above the latest close. *)
Theorem X18_resistance_is_the_recent_high (sqrt : Q -> Q)
    (score_weights : option (list Z)) (bars : list Bar) (symbol : string) :
  (20 <= List.length bars)%nat ->
  let highs := last_n 20 (map high (sort_values_date bars)) in
  let price := last (closes bars) 0%Q in
  exists r h,
    analyze sqrt (__init__ score_weights) (Some bars) symbol = Ok r
    /\ In h highs
    /\ Forall (fun x => (x <= h)%Q) highs
    /\ resistance_levels (r_support r) = if Qltb price h then [Fin h] else [].
Proof.
  intros Hn highs price.
  destruct (analyze_stages sqrt (__init__ score_weights) bars symbol Hn
              (init_weights_length score_weights))
    as (t & b & v & s & m & rs & k & bo & o & sg & Hst & E).
  set (df := frame_of sqrt bars) in *.
  unfold stages in Hst; cbv zeta in Hst.
  destruct Hst as (_ & _ & _ & Hs & _).
  match type of Hs with
  | _analyze_support_resistance _ ?r3 = _ =>
      destruct (resistance_levels_eq df r3) as (s' & Es & Hr)
  end.
  rewrite Es in Hs. apply with_support_inj in Hs. subst s'.
  cbn [r_support r_ma with_volume with_bias with_trend first_result with_ma
       resistance_levels new_result current_price app] in Hr.
  assert (Hl : List.length (sort_values_date bars) = List.length bars)
    by apply sort_values_date_length.
  assert (Hdf : len df = List.length bars) by apply len_frame_of.
  replace (20 <=? len df)%nat with true in Hr by (symmetry; apply Nat.leb_le; lia).
  cbn [andb] in Hr.
  destruct (fmaximum_fin highs) as (h & Eh & Hmax & Hin).
  { intro E0. apply (f_equal (@List.length Q)) in E0. unfold highs in E0.
    rewrite last_n_length in E0 by (rewrite length_map; lia). discriminate E0. }
  assert (Erh : fmaximum (tail_slice 20 0 (col high (rows df))) = Fin h).
  { unfold df, frame_of. rewrite rows_calculate.
    rewrite tail_slice_last_n by (rewrite col_length; lia).
    unfold col. rewrite <- (map_map high Fin), last_n_map. exact Eh. }
  rewrite Erh in Hr.
  assert (Hp : cell (col close (rows df)) (len df - Z.to_nat (- -1)) = Fin price).
  { unfold df at 1. unfold frame_of. rewrite rows_calculate. rewrite Hdf, col_closes. unfold price, cell.
    assert (Hc : List.length (closes bars) = List.length bars)
      by (unfold closes; now rewrite length_map).
    rewrite (nth_indep _ NaN (Fin 0)) by (rewrite length_map; change (Z.to_nat (- -1)) with 1%nat; lia).
    rewrite map_nth. f_equal. change (Z.to_nat (- -1)) with 1%nat.
    rewrite <- Hc. apply nth_length_pred_last. }
  rewrite Hp in Hr. unfold fgt in Hr. cbn [flt] in Hr.
  exists (assemble df symbol t b v s m rs k bo o sg), h.
  split; [exact E|]. split; [exact Hin|]. split; [exact Hmax|].
  unfold assemble. cbn [r_support]. exact Hr.
Qed.

Lemma X18_resistance_is_the_recent_high_witness :
  let highs := last_n 20 (map high (sort_values_date rising20)) in
  let price := last (closes rising20) 0%Q in
  exists r h,
    analyze sqrt_floor (__init__ None) (Some rising20) EmptyString = Ok r
    /\ In h highs
    /\ Forall (fun x => (x <= h)%Q) highs
    /\ resistance_levels (r_support r) = if Qltb price h then [Fin h] else [].
Proof.
  apply (X18_resistance_is_the_recent_high sqrt_floor None rising20 EmptyString).
  cbn. lia.
Defined.

(** ** Means of the latest closes of a rising series *)

Lemma rising_from_lt (a : Q) (l : list Q) :
  rising_from a l -> Forall (fun x => (a < x)%Q) l /\ StronglySorted Qlt l.
Proof.
  revert a. induction l as [|x l IH]; intros a H; cbn in H.
  - split; constructor.
  - destruct H as [H1 H2]. destruct (IH x H2) as [F S]. split.
    + constructor; [exact H1|]. eapply Forall_impl; [|exact F]. intros y Hy. cbv beta in *. lra.
    + constructor; assumption.
Qed.

Lemma rising_sorted (l : list Q) : rising l -> StronglySorted Qlt l.
Proof.
  destruct l as [|a l]; cbn; intro H; [constructor|].
  destruct (rising_from_lt a l H). constructor; assumption.
Qed.

Lemma StronglySorted_skipn (n : nat) (l : list Q) :
  StronglySorted Qlt l -> StronglySorted Qlt (skipn n l).
Proof.
  revert l. induction n as [|n IH]; intros l H; [exact H|].
  destruct H as [|x l H F]; [constructor|]. cbn. apply IH, H.
Qed.

Lemma StronglySorted_app_lt (a b : list Q) :
  StronglySorted Qlt (a ++ b) ->
  forall x y, In x a -> In y b -> (x < y)%Q.
Proof.
  induction a as [|z a IH]; intros H x y Hx Hy; [contradiction|].
  cbn in H. inversion H as [|? ? Hs Hf]; subst.
  destruct Hx as [->|Hx].
  - rewrite Forall_forall in Hf. apply Hf. apply in_or_app. right; exact Hy.
  - apply IH; assumption.
Qed.

Lemma StronglySorted_app_r (a b : list Q) :
  StronglySorted Qlt (a ++ b) -> StronglySorted Qlt b.
Proof.
  induction a as [|z a IH]; intro H; [exact H|].
  cbn in H. inversion H; subst. apply IH. assumption.
Qed.

Lemma Qsum_app (a b : list Q) : (Qsum (a ++ b) == Qsum a + Qsum b)%Q.
Proof.
  unfold Qsum. induction a as [|x a IH]; cbn [app fold_right]; [ring|].
  rewrite IH. ring.
Qed.

Lemma Qsum_lt_bound (p : Q) (l : list Q) :
  l <> [] -> Forall (fun x => (x < p)%Q) l ->
  (Qsum l < inject_Z (Z.of_nat (List.length l)) * p)%Q.
Proof.
  intros Hne H. induction H as [|x l Hx Hl IH]; [contradiction|].
  cbn [Qsum fold_right List.length]. fold (Qsum l).
  rewrite Nat2Z.inj_succ. unfold Z.succ. rewrite inject_Z_plus.
  destruct l as [|y l].
  - cbn. unfold inject_Z. lra.
  - assert (IH' := IH ltac:(discriminate)).
    set (s := Qsum (y :: l)) in *.
    set (n := inject_Z (Z.of_nat (List.length (y :: l)))) in *.
    clearbody s n. unfold inject_Z. lra.
Qed.

Lemma Qsum_ge_bound (p : Q) (l : list Q) :
  Forall (fun x => (p <= x)%Q) l ->
  (inject_Z (Z.of_nat (List.length l)) * p <= Qsum l)%Q.
Proof.
  intro H. induction H as [|x l Hx Hl IH].
  - cbn. unfold inject_Z. lra.
  - cbn [Qsum fold_right List.length]. fold (Qsum l).
    rewrite Nat2Z.inj_succ. unfold Z.succ. rewrite inject_Z_plus.
    set (s := Qsum l) in *. set (n := inject_Z (Z.of_nat (List.length l))) in *.
    clearbody s n. unfold inject_Z. lra.
Qed.

Lemma last_n_split {A : Type} (k m : nat) (l : list A) :
  (k <= m <= List.length l)%nat ->
  last_n m l = firstn (m - k) (last_n m l) ++ last_n k l.
Proof.
  intro H. unfold last_n.
  replace (skipn (List.length l - k) l)
    with (skipn (m - k) (skipn (List.length l - m) l)).
  - symmetry. apply firstn_skipn.
  - rewrite skipn_skipn. f_equal. lia.
Qed.

(** In a rising series the mean of the last [k] values exceeds the mean of
    the last [m] values when [k < m]. *)
Lemma rising_mean_last (k m : nat) (l : list Q) :
  rising l -> (1 <= k < m)%nat -> (m <= List.length l)%nat ->
  (Qmean (last_n m l) < Qmean (last_n k l))%Q.
Proof.
  intros Hr Hk Hm.
  pose proof (StronglySorted_skipn (List.length l - m) l (rising_sorted l Hr)) as Hs.
  fold (last_n m l) in Hs.
  rewrite (last_n_split k m l ltac:(lia)) in Hs.
  unfold Qmean at 1. rewrite (last_n_split k m l ltac:(lia)).
  set (A := firstn (m - k) (last_n m l)) in *.
  set (B := last_n k l) in *.
  assert (LA : List.length A = (m - k)%nat).
  { unfold A. rewrite length_firstn, last_n_length by lia. lia. }
  assert (LB : List.length B = k) by (unfold B; apply last_n_length; lia).
  rewrite length_app, LA, LB. rewrite Qsum_app.
  unfold Qmean. rewrite LB.
  clearbody A B.
  destruct B as [|p B']; [cbn in LB; lia|].
  assert (HA : Forall (fun x => (x < p)%Q) A).
  { apply Forall_forall. intros x Hx.
    apply (StronglySorted_app_lt A (p :: B') Hs x p Hx). left; reflexivity. }
  assert (HB : Forall (fun x => (p <= x)%Q) (p :: B')).
  { constructor; [apply Qle_refl|].
    pose proof (StronglySorted_app_r A (p :: B') Hs) as Hs'.
    inversion Hs' as [|? ? _ Hf]; subst.
    eapply Forall_impl; [|exact Hf]. intros y Hy. cbv beta in *. lra. }
  assert (HneA : A <> []) by (intros E0; rewrite E0 in LA; cbn in LA; lia).
  pose proof (Qsum_lt_bound p A HneA HA) as BA.
  pose proof (Qsum_ge_bound p (p :: B') HB) as BB.
  rewrite LA in BA. rewrite LB in BB.
  replace (m - k + k)%nat with m by lia.
  set (sA := Qsum A) in *. set (sB := Qsum (p :: B')) in *. clearbody sA sB.
  assert (Hkq : (0 < inject_Z (Z.of_nat k))%Q).
  { change 0%Q with (inject_Z 0). rewrite <- Zlt_Qlt. lia. }
  assert (Hmq : (0 < inject_Z (Z.of_nat m))%Q).
  { change 0%Q with (inject_Z 0). rewrite <- Zlt_Qlt. lia. }
  assert (Hmk : (inject_Z (Z.of_nat (m - k))
                 == inject_Z (Z.of_nat m) - inject_Z (Z.of_nat k))%Q).
  { rewrite Nat2Z.inj_sub by lia. unfold Z.sub.
    rewrite inject_Z_plus, inject_Z_opp. ring. }
  rewrite Hmk in BA.
  assert (Hd : (0 < inject_Z (Z.of_nat m) - inject_Z (Z.of_nat k))%Q).
  { rewrite <- Hmk. change 0%Q with (inject_Z 0). rewrite <- Zlt_Qlt. lia. }
  set (M := inject_Z (Z.of_nat m)) in *. set (K := inject_Z (Z.of_nat k)) in *.
  clearbody M K.
  apply Qlt_shift_div_r; [exact Hmq|].
  assert (E1 : (sB / K * M == (sB * M) / K)%Q) by (field; lra).
  rewrite E1. apply Qlt_shift_div_l; [exact Hkq|].
  nra.
Qed.

Lemma falling_rising_opp (l : list Q) : falling l -> rising (map Qopp l).
Proof.
  destruct l as [|a l]; cbn; [trivial|]. revert a.
  induction l as [|x l IH]; intros a H; cbn in *; [exact I|].
  destruct H as [H1 H2]. split; [lra | apply IH, H2].
Qed.

Lemma Qmean_opp (l : list Q) : (Qmean (map Qopp l) == - Qmean l)%Q.
Proof.
  unfold Qmean. rewrite length_map.
  assert (E : (Qsum (map Qopp l) == - Qsum l)%Q).
  { unfold Qsum. induction l as [|x l IH]; cbn [map fold_right]; [reflexivity|].
    rewrite IH. ring. }
  rewrite E. unfold Qdiv. ring.
Qed.

Lemma falling_mean_last (k m : nat) (l : list Q) :
  falling l -> (1 <= k < m)%nat -> (m <= List.length l)%nat ->
  (Qmean (last_n k l) < Qmean (last_n m l))%Q.
Proof.
  intros Hf Hk Hm.
  pose proof (rising_mean_last k m (map Qopp l) (falling_rising_opp l Hf) Hk
                ltac:(rewrite length_map; exact Hm)) as H.
  rewrite !last_n_map, !Qmean_opp in H. lra.
Qed.

(** ** The trend of a rising or falling series *)

Lemma first_result_mas (sqrt : Q -> Q) (bars : list Bar) (symbol : string) :
  (20 <= List.length bars)%nat ->
  let m := r_ma (first_result (frame_of sqrt bars) symbol) in
  is_fin (ma5 m) (Qmean (last_n 5 (closes bars)))
  /\ is_fin (ma10 m) (Qmean (last_n 10 (closes bars)))
  /\ is_fin (ma20 m) (Qmean (last_n 20 (closes bars))).
Proof.
  intros Hn m. subst m. unfold first_result. cbn [r_ma with_ma ma5 ma10 ma20].
  rewrite len_frame_of.
  assert (Hl : List.length (closes bars) = List.length bars).
  { unfold closes. now rewrite length_map, sort_values_date_length. }
  change (Z.to_nat (- -1)) with 1%nat. rewrite <- Hl. rewrite <- Hl in Hn.
  destruct (frame_columns sqrt (sort_values_date bars)) as (E5 & E10 & E20 & _).
  unfold frame_of. rewrite E5, E10, E20, col_closes.
  repeat split; apply latest_rolling_mean; lia.
Qed.

Lemma _analyze_trend_ordered (df : DataFrame) (r : TrendAnalysisResult) (a b c : Q) :
  (5 <= len df)%nat ->
  is_fin (ma5 (r_ma r)) a -> is_fin (ma10 (r_ma r)) b -> is_fin (ma20 (r_ma r)) c ->
  exists t,
    _analyze_trend df r = Ok (with_trend t r)
    /\ ((c < b /\ b < a)%Q -> is_bull_or_strong_bull (trend_status t) = true)
    /\ ((a < b /\ b < c)%Q -> is_bear_or_strong_bear (trend_status t) = true).
Proof.
  intros Hn (a' & Ea & Ha) (b' & Eb & Hb) (c' & Ec & Hc).
  unfold _analyze_trend. cbv zeta. rewrite Ea, Eb, Ec.
  replace (5 <=? len df)%nat with true by (symmetry; apply Nat.leb_le; lia).
  rewrite (iloc_last df (-5)) by lia. cbn [bind].
  unfold fgt, fle. cbn [flt feq].
  destruct (Qltb b' a' && Qltb c' b') eqn:E1.
  - apply andb_true_iff in E1. destruct E1 as [E1 E2].
    apply Qltb_lt in E1, E2.
    destruct (flt (fz 0) (Fin c')) eqn:E0.
    + rewrite (py_pct_pos _ _ E0). cbn [bind].
      split_ifs; eexists; (split; [reflexivity|]); (split; [reflexivity|]);
        intros [? ?]; exfalso; lra.
    + cbn [bind].
      split_ifs; eexists; (split; [reflexivity|]); (split; [reflexivity|]);
        intros [? ?]; exfalso; lra.
  - assert (N1 : ~ (c < b /\ b < a)%Q).
    { intros [H1 H2]. apply andb_false_iff in E1.
      destruct E1 as [E1|E1]; apply Qltb_ge in E1; lra. }
    destruct (Qltb b' a' && (Qltb b' c' || Qeq_bool b' c')) eqn:E2.
    + eexists; split; [reflexivity|]. split; [intro; contradiction|].
      intros [H1 H2]. apply andb_true_iff in E2. destruct E2 as [E2 _].
      apply Qltb_lt in E2. exfalso; lra.
    + destruct (Qltb a' b' && Qltb b' c') eqn:E3.
      * destruct (flt (fz 0) (Fin a')) eqn:E0.
        -- rewrite (py_pct_pos _ _ E0). cbn [bind].
           split_ifs; eexists; (split; [reflexivity|]);
             (split; [intro; contradiction | reflexivity]).
        -- cbn [bind].
           split_ifs; eexists; (split; [reflexivity|]);
             (split; [intro; contradiction | reflexivity]).
      * assert (N3 : ~ (a < b /\ b < c)%Q).
        { intros [H1 H2]. apply andb_false_iff in E3.
          destruct E3 as [E3|E3]; apply Qltb_ge in E3; lra. }
        split_ifs; eexists; (split; [reflexivity|]);
          (split; intro; contradiction).
Qed.

Lemma analyze_trend_of_means (sqrt : Q -> Q) (score_weights : option (list Z))
    (bars : list Bar) (symbol : string) :
  (20 <= List.length bars)%nat ->
  let m5 := Qmean (last_n 5 (closes bars)) in
  let m10 := Qmean (last_n 10 (closes bars)) in
  let m20 := Qmean (last_n 20 (closes bars)) in
  exists r,
    analyze sqrt (__init__ score_weights) (Some bars) symbol = Ok r
    /\ ((m20 < m10 /\ m10 < m5)%Q -> is_bull_or_strong_bull (trend_status (r_trend r)) = true)
    /\ ((m5 < m10 /\ m10 < m20)%Q -> is_bear_or_strong_bear (trend_status (r_trend r)) = true).
Proof.
  intros Hn m5 m10 m20.
  destruct (analyze_stages sqrt (__init__ score_weights) bars symbol Hn
              (init_weights_length score_weights))
    as (t & b & v & s & m & rs & k & bo & o & sg & Hst & E).
  rewrite E. eexists; split; [reflexivity|].
  unfold stages in Hst; cbv zeta in Hst. destruct Hst as (Ht & _).
  destruct (first_result_mas sqrt bars symbol Hn) as (H5 & H10 & H20).
  assert (Hdf : (5 <= len (frame_of sqrt bars))%nat) by (rewrite len_frame_of; lia).
  destruct (_analyze_trend_ordered (frame_of sqrt bars)
              (first_result (frame_of sqrt bars) symbol) _ _ _ Hdf H5 H10 H20)
    as (t' & Et & Hbull & Hbear).
  rewrite Et in Ht. apply with_trend_inj in Ht. subst t'.
  unfold assemble. cbn [r_trend]. split; assumption.
Qed.

(** X19: when the closes of at least 20 bars, taken in order of date, rise from
    each bar to the next, the means of the 5, 10 and 20 latest closes are in
    strictly descending order and the trend label is BULL or STRONG_BULL. *)
Theorem X19_rising_closes_give_bull_trend (sqrt : Q -> Q)
    (score_weights : option (list Z)) (bars : list Bar) (symbol : string) :
  (20 <= List.length bars)%nat ->
  rising (closes bars) ->
  exists r,
    analyze sqrt (__init__ score_weights) (Some bars) symbol = Ok r
    /\ is_bull_or_strong_bull (trend_status (r_trend r)) = true
    /\ (Qmean (last_n 20 (closes bars)) < Qmean (last_n 10 (closes bars)))%Q
    /\ (Qmean (last_n 10 (closes bars)) < Qmean (last_n 5 (closes bars)))%Q.
Proof.
  intros Hn Hr.
  assert (Hl : List.length (closes bars) = List.length bars).
  { unfold closes. now rewrite length_map, sort_values_date_length. }
  pose proof (rising_mean_last 10 20 (closes bars) Hr ltac:(lia) ltac:(lia)) as H1.
  pose proof (rising_mean_last 5 10 (closes bars) Hr ltac:(lia) ltac:(lia)) as H2.
  destruct (analyze_trend_of_means sqrt score_weights bars symbol Hn)
    as (r & E & Hbull & _).
  exists r. split; [exact E|]. split; [apply Hbull; split; assumption|].
  split; assumption.
Qed.

Lemma X19_rising_closes_give_bull_trend_witness :
  exists r,
    analyze sqrt_floor (__init__ None) (Some rising24) EmptyString = Ok r
    /\ is_bull_or_strong_bull (trend_status (r_trend r)) = true
    /\ (Qmean (last_n 20 (closes rising24)) < Qmean (last_n 10 (closes rising24)))%Q
    /\ (Qmean (last_n 10 (closes rising24)) < Qmean (last_n 5 (closes rising24)))%Q.
Proof.
  apply (X19_rising_closes_give_bull_trend sqrt_floor None rising24 EmptyString).
  - cbn. lia.
  - vm_compute. repeat split.
Defined.

(** X20: when the closes of at least 20 bars, taken in order of date, fall from
    each bar to the next, the means of the 5, 10 and 20 latest closes are in
    strictly ascending order and the trend label is BEAR or STRONG_BEAR. *)
Theorem X20_falling_closes_give_bear_trend (sqrt : Q -> Q)
    (score_weights : option (list Z)) (bars : list Bar) (symbol : string) :
  (20 <= List.length bars)%nat ->
  falling (closes bars) ->
  exists r,
    analyze sqrt (__init__ score_weights) (Some bars) symbol = Ok r
    /\ is_bear_or_strong_bear (trend_status (r_trend r)) = true
    /\ (Qmean (last_n 5 (closes bars)) < Qmean (last_n 10 (closes bars)))%Q
    /\ (Qmean (last_n 10 (closes bars)) < Qmean (last_n 20 (closes bars)))%Q.
Proof.
  intros Hn Hf.
  assert (Hl : List.length (closes bars) = List.length bars).
  { unfold closes. now rewrite length_map, sort_values_date_length. }
  pose proof (falling_mean_last 10 20 (closes bars) Hf ltac:(lia) ltac:(lia)) as H1.
  pose proof (falling_mean_last 5 10 (closes bars) Hf ltac:(lia) ltac:(lia)) as H2.
  destruct (analyze_trend_of_means sqrt score_weights bars symbol Hn)
    as (r & E & _ & Hbear).
  exists r. split; [exact E|]. split; [apply Hbear; split; assumption|].
  split; assumption.
Qed.

Lemma X20_falling_closes_give_bear_trend_witness :
  exists r,
    analyze sqrt_floor (__init__ None) (Some falling24) EmptyString = Ok r
    /\ is_bear_or_strong_bear (trend_status (r_trend r)) = true
    /\ (Qmean (last_n 5 (closes falling24)) < Qmean (last_n 10 (closes falling24)))%Q
    /\ (Qmean (last_n 10 (closes falling24)) < Qmean (last_n 20 (closes falling24)))%Q.
Proof.
  apply (X20_falling_closes_give_bear_trend sqrt_floor None falling24 EmptyString).
  - cbn. lia.
  - vm_compute. repeat split.
Defined.

(** ** Reasons and risks of the strong recommendations *)

Lemma app_not_nil_l {A : Type} (l m : list A) : l <> [] -> l ++ m <> [].
Proof. destruct l; [contradiction | discriminate]. Qed.

Lemma step_pair_fst (e : list text * list text)
    (F : list text -> list text -> list text * list text) :
  (forall r k, e = (r, k) -> fst (F r k) <> []) ->
  fst (let '(r, k) := e in F r k) <> [].
Proof. destruct e as [r k]. intro H. exact (H r k eq_refl). Qed.

Lemma step_pair_snd (e : list text * list text)
    (F : list text -> list text -> list text * list text) :
  (forall r k, e = (r, k) -> snd (F r k) <> []) ->
  snd (let '(r, k) := e in F r k) <> [].
Proof. destruct e as [r k]. intro H. exact (H r k eq_refl). Qed.

(** One section of [_generate_signal] only appends to the two lists. *)
Ltac keep_nonempty E :=
  revert E;
  repeat match goal with
         | |- context [if ?c then _ else _] => destruct c
         | |- context [match ?s with inl _ => _ | inr _ => _ end] => destruct s
         end;
  intro E; injection E as <- <-;
  auto using app_not_nil_l.

Lemma reasons_nonempty_bull (result : TrendAnalysisResult) :
  is_bull_or_strong_bull (trend_status (r_trend result)) = true ->
  fst (reasons_and_risks result) <> [].
Proof.
  intro H. unfold reasons_and_risks.
  apply step_pair_fst; intros r1 k1 E1.
  assert (N1 : r1 <> []).
  { destruct (trend_status (r_trend result)); try discriminate H;
      cbn in E1; injection E1 as <- <-; discriminate. }
  clear E1 H.
  apply step_pair_fst; intros r2 k2 E2.
  assert (N2 : r2 <> []) by keep_nonempty E2. clear E2 N1.
  apply step_pair_fst; intros r3 k3 E3.
  assert (N3 : r3 <> []) by keep_nonempty E3. clear E3 N2.
  apply step_pair_fst; intros r4 k4 E4.
  assert (N4 : r4 <> []) by keep_nonempty E4. clear E4 N3.
  apply step_pair_fst; intros r5 k5 E5.
  assert (N5 : r5 <> []) by keep_nonempty E5. clear E5 N4.
  apply step_pair_fst; intros r6 k6 E6.
  assert (N6 : r6 <> []) by keep_nonempty E6. clear E6 N5.
  cbn [fst]. destruct (member _ _); auto using app_not_nil_l.
Qed.

Lemma risks_nonempty_bear (result : TrendAnalysisResult) :
  is_bear_or_strong_bear (trend_status (r_trend result)) = true ->
  snd (reasons_and_risks result) <> [].
Proof.
  intro H. unfold reasons_and_risks.
  apply step_pair_snd; intros r1 k1 E1.
  assert (N1 : k1 <> []).
  { destruct (trend_status (r_trend result)); try discriminate H;
      cbn in E1; injection E1 as <- <-; discriminate. }
  clear E1 H.
  apply step_pair_snd; intros r2 k2 E2.
  assert (N2 : k2 <> []) by keep_nonempty E2. clear E2 N1.
  apply step_pair_snd; intros r3 k3 E3.
  assert (N3 : k3 <> []) by keep_nonempty E3. clear E3 N2.
  apply step_pair_snd; intros r4 k4 E4.
  assert (N4 : k4 <> []) by keep_nonempty E4. clear E4 N3.
  apply step_pair_snd; intros r5 k5 E5.
  assert (N5 : k5 <> []) by keep_nonempty E5. clear E5 N4.
  apply step_pair_snd; intros r6 k6 E6.
  assert (N6 : k6 <> []) by keep_nonempty E6. clear E6 N5.
  cbn [snd]. exact N6.
Qed.

Lemma generate_signal_texts (self : StockTrendAnalyzer) (result : TrendAnalysisResult) :
  List.length (_weights self) = 8%nat ->
  exists r,
    _generate_signal self result = Ok r
    /\ (buy_signal (r_signal r) = BuySignal.STRONG_BUY -> signal_reasons (r_signal r) <> [])
    /\ (buy_signal (r_signal r) = BuySignal.STRONG_SELL -> risk_factors (r_signal r) <> []).
Proof.
  destruct self as [w]. cbn [_weights]. intro Hl.
  destruct (_generate_signal_eq w result Hl) as (s & _ & E).
  rewrite E. eexists; split; [reflexivity|].
  cbn [r_signal with_signal buy_signal signal_reasons risk_factors].
  rewrite decide_buy_signal_rule.
  pose proof (recommendation_rule_safe (total s) (trend_status (r_trend result))) as H.
  cbv zeta in H. destruct H as (H1 & _ & _ & _ & _ & H6).
  split; intro Hb.
  - apply reasons_nonempty_bull. apply (H1 Hb).
  - apply risks_nonempty_bear. apply (H6 Hb).
Qed.

(** X21: for every frame and weights within the float range, [analyze]
    returns a result in which a STRONG_BUY recommendation comes with at
    least one reason (the bull trend it requires is the first of them), and
    a STRONG_SELL with at least one risk factor (the bear trend it
    requires). *)
Theorem X21_strong_recommendations_are_explained (sqrt : Q -> Q)
    (score_weights : option (list Z)) (df : option (list Bar)) (symbol : string) :
  weights_in_float_range (__init__ score_weights) ->
  exists r,
    analyze sqrt (__init__ score_weights) df symbol = Ok r
    /\ (buy_signal (r_signal r) = BuySignal.STRONG_BUY -> signal_reasons (r_signal r) <> [])
    /\ (buy_signal (r_signal r) = BuySignal.STRONG_SELL -> risk_factors (r_signal r) <> []).
Proof.
  intros _.
  assert (S : match df with
              | None => True
              | Some bars => (List.length bars < 20)%nat
              end
              \/ exists bars, df = Some bars /\ (20 <= List.length bars)%nat).
  { destruct df as [bars|]; [|left; exact I].
    destruct (Nat.lt_ge_cases (List.length bars) 20); [left | right; exists bars]; auto. }
  destruct S as [S | (bars & -> & Hn)].
  - rewrite (analyze_short_frame_eq sqrt _ df symbol S).
    eexists; split; [reflexivity|]. cbn [r_signal with_signal buy_signal].
    split; discriminate.
  - destruct (analyze_stages sqrt (__init__ score_weights) bars symbol Hn
                (init_weights_length score_weights))
      as (t & b & v & s & m & rs & k & bo & o & sg & Hst & E).
    rewrite E. eexists; split; [reflexivity|].
    unfold stages in Hst; cbv zeta in Hst.
    destruct Hst as (_ & _ & _ & _ & _ & _ & _ & _ & Hsig).
    match type of Hsig with
    | _generate_signal _ ?r8 = _ =>
        destruct (generate_signal_texts (__init__ score_weights) r8
                    (init_weights_length score_weights)) as (r & Er & H1 & H2)
    end.
    rewrite Er in Hsig. injection Hsig as ->.
    unfold assemble. cbn [r_signal with_signal] in *. split; assumption.
Qed.

Lemma X21_strong_recommendations_are_explained_witness :
  exists r,
    analyze sqrt_floor (__init__ None) (Some rising20) EmptyString = Ok r
    /\ (buy_signal (r_signal r) = BuySignal.STRONG_BUY -> signal_reasons (r_signal r) <> [])
    /\ (buy_signal (r_signal r) = BuySignal.STRONG_SELL -> risk_factors (r_signal r) <> []).
Proof.
  apply (X21_strong_recommendations_are_explained sqrt_floor None (Some rising20) EmptyString).
  unfold weights_in_float_range. cbn. repeat constructor; vm_compute; discriminate.
Defined.

(** ** On-balance volume *)

Lemma obv_from_comp (p a a' : Q) (l : list Bar) :
  (a == a')%Q -> (obv_from p a l == obv_from p a' l)%Q.
Proof.
  revert p a a'. induction l as [|b l IH]; intros p a a' H; cbn [obv_from]; [exact H|].
  apply IH. destruct (Qltb p (close b)); [now rewrite H|].
  destruct (Qltb (close b) p); [now rewrite H | exact H].
Qed.

Lemma cumsum_from_obv (p a : Q) (l : list Bar) :
  last (Fin a :: cumsum_from (Fin a)
                   (map2 fmul (map fsign (diff_from (Fin p) (col close l)))
                      (col volume l))) NaN
  =f= Fin (obv_from p a l).
Proof.
  revert p a. induction l as [|b l IH]; intros p a.
  - cbn. reflexivity.
  - cbn [col map diff_from map2 combine fst snd cumsum_from obv_from].
    unfold map2 in IH. unfold col in IH.
    cbn [fsub fneg fadd fsign].
    set (s := if Qltb 0 (close b + - p) then fz 1
              else if Qltb (close b + - p) 0 then fz (-1) else fz 0).
    assert (Es : exists q, fmul s (Fin (volume b)) = Fin q
                           /\ (a + q == if Qltb p (close b) then a + volume b
                                        else if Qltb (close b) p then a - volume b
                                        else a)%Q).
    { subst s.
      destruct (Qltb p (close b)) eqn:E1.
      - apply Qltb_lt in E1.
        replace (Qltb 0 (close b + - p)) with true by (symmetry; apply Qltb_lt; lra).
        eexists; split; [reflexivity|]. unfold inject_Z. ring.
      - apply Qltb_ge in E1.
        replace (Qltb 0 (close b + - p)) with false by (symmetry; apply Qltb_ge; lra).
        destruct (Qltb (close b) p) eqn:E2.
        + apply Qltb_lt in E2.
          replace (Qltb (close b + - p) 0) with true by (symmetry; apply Qltb_lt; lra).
          eexists; split; [reflexivity|]. unfold inject_Z. ring.
        + apply Qltb_ge in E2.
          replace (Qltb (close b + - p) 0) with false by (symmetry; apply Qltb_ge; lra).
          eexists; split; [reflexivity|]. unfold inject_Z. ring. }
    destruct Es as (q & Eq & Hq). rewrite Eq. cbn [fadd].
    change (last (Fin a :: Fin (a + q) :: ?x) NaN) with (last (Fin (a + q) :: x) NaN).
    specialize (IH (close b) (a + q)%Q).
    destruct (last _ NaN) as [z| | |]; cbn in IH |- *; try contradiction.
    rewrite IH. apply obv_from_comp. exact Hq.
Qed.

Lemma _calculate_obv_last (bars : list Bar) :
  bars <> [] ->
  last (_calculate_obv bars) NaN =f= Fin (obv_by_docstring bars).
Proof.
  intro Hne. destruct bars as [|b l]; [contradiction|].
  unfold _calculate_obv, obv_by_docstring.
  cbn [col map diff map2 combine fst snd cumsum].
  pose proof (cumsum_from_obv (close b) (inject_Z 0 * volume b) l) as H.
  unfold col, map2 in H. cbn [fmul fz].
  destruct (last _ NaN) as [z| | |]; cbn in H |- *; try contradiction.
  rewrite H. apply obv_from_comp. unfold inject_Z. ring.
Qed.

Lemma _analyze_boll_obv (df : DataFrame) (result : TrendAnalysisResult) :
  (20 <= len df)%nat ->
  exists b o,
    _analyze_boll df result = Ok (with_obv o (with_boll b result))
    /\ obv o = cell (OBV df) (len df - 1).
Proof.
  intros H. unfold _analyze_boll.
  replace (len df <? BOLL_PERIOD)%nat with false
    by (symmetry; apply Nat.ltb_ge; unfold BOLL_PERIOD; lia).
  replace (5 <=? len df)%nat with true by (symmetry; apply Nat.leb_le; lia).
  rewrite (iloc_last df (-1)), (iloc_last df (-6)) by lia. cbn [bind].
  change (len df - Z.to_nat (- -1))%nat with (len df - 1)%nat.
  set (bw := fsub _ _).
  destruct (boll_state _ _ _ _) as [st sg].
  destruct (fgt bw (fz 0)) eqn:E.
  - change (py_truediv bw (fz 2)) with (Ok (fdiv bw (fz 2))). cbn [bind].
    rewrite (py_truediv_half _ _ E). cbn [bind].
    destruct (fne _ _) eqn:E0.
    + rewrite (py_pct_abs _ _ E0). cbn [bind].
      do 2 eexists; split; reflexivity.
    + do 2 eexists; split; reflexivity.
  - cbn [bind]. destruct (fne _ _) eqn:E0.
    + rewrite (py_pct_abs _ _ E0). cbn [bind].
      do 2 eexists; split; reflexivity.
    + do 2 eexists; split; reflexivity.
Qed.

(** X22: on a frame of at least 20 rows the OBV of the result is the on-balance
    volume of the docstring, taken over the bars in order of date: starting
    from 0 at the first bar, each later bar adds its volume when its close
    is above the previous close, subtracts it when below, and changes
    nothing when equal.  The vectorised computation (difference, sign,
    product, running sum) agrees with that recursion. *)
Theorem X22_obv_follows_docstring (sqrt : Q -> Q)
    (score_weights : option (list Z)) (bars : list Bar) (symbol : string) :
  (20 <= List.length bars)%nat ->
  exists r,
    analyze sqrt (__init__ score_weights) (Some bars) symbol = Ok r
    /\ obv (r_obv r) =f= Fin (obv_by_docstring (sort_values_date bars)).
Proof.
  intro Hn.
  destruct (analyze_stages sqrt (__init__ score_weights) bars symbol Hn
              (init_weights_length score_weights))
    as (t & b & v & s & m & rs & k & bo & o & sg & Hst & E).
  rewrite E. eexists; split; [reflexivity|].
  unfold stages in Hst; cbv zeta in Hst.
  destruct Hst as (_ & _ & _ & _ & _ & _ & _ & Hb & _).
  assert (Hdf : (20 <= len (frame_of sqrt bars))%nat) by (rewrite len_frame_of; exact Hn).
  match type of Hb with
  | _analyze_boll _ ?r7 = _ =>
      destruct (_analyze_boll_obv (frame_of sqrt bars) r7 Hdf) as (b' & o' & Eb & Ho)
  end.
  rewrite Eb in Hb. apply with_boll_obv_inj in Hb. destruct Hb as [_ ->].
  unfold assemble. cbn [r_obv]. rewrite Ho.
  assert (Hs : List.length (sort_values_date bars) = List.length bars)
    by apply sort_values_date_length.
  assert (Eo : OBV (frame_of sqrt bars) = _calculate_obv (sort_values_date bars))
    by reflexivity.
  assert (Lo : List.length (_calculate_obv (sort_values_date bars)) = List.length bars).
  { unfold _calculate_obv. rewrite cumsum_length, map2_length.
    - destruct (map fsign (diff (col close (sort_values_date bars)))) eqn:Ed.
      + apply (f_equal (@List.length fval)) in Ed.
        rewrite length_map, diff_length, col_length in Ed. cbn in Ed. lia.
      + apply (f_equal (@List.length fval)) in Ed.
        rewrite length_map, diff_length, col_length in Ed. cbn in Ed |- *. lia.
    - rewrite col_length.
      destruct (map fsign (diff (col close (sort_values_date bars)))) eqn:Ed;
        apply (f_equal (@List.length fval)) in Ed;
        rewrite length_map, diff_length, col_length in Ed; cbn in Ed |- *; lia. }
  rewrite len_frame_of, Eo. unfold cell. rewrite <- Lo.
  rewrite nth_length_pred_last. apply _calculate_obv_last.
  intro E0. rewrite E0 in Hs. cbn in Hs. lia.
Qed.

Lemma X22_obv_follows_docstring_witness :
  exists r,
    analyze sqrt_floor (__init__ None) (Some rising20) EmptyString = Ok r
    /\ obv (r_obv r) =f= Fin (obv_by_docstring (sort_values_date rising20)).
Proof.
  apply (X22_obv_follows_docstring sqrt_floor None rising20 EmptyString).
  cbn. lia.
Defined.

(** ** The volume ratio *)

Lemma tail_slice_6_1 (l : list fval) :
  (6 <= List.length l)%nat -> tail_slice 6 1 l = firstn 5 (last_n 6 l).
Proof.
  intro H. unfold tail_slice, last_n. f_equal. lia.
Qed.

Lemma _analyze_volume_ratio (df : DataFrame) (r : TrendAnalysisResult) :
  (6 <= len df)%nat ->
  let vol := col volume (rows df) in
  let avg := fmean (tail_slice 6 1 vol) in
  exists vi,
    _analyze_volume df r = Ok (with_volume vi r)
    /\ volume_ratio_5d vi
       = if fgt avg (fz 0) then fdiv (cell vol (len df - 1)) avg
         else volume_ratio_5d (r_volume r).
Proof.
  intros H vol avg. unfold _analyze_volume.
  replace (len df <? 5)%nat with false by (symmetry; apply Nat.ltb_ge; lia).
  rewrite (iloc_last df (-1)), (iloc_last df (-2)) by lia. cbn [bind].
  change (len df - Z.to_nat (- -1))%nat with (len df - 1)%nat.
  fold vol. fold avg.
  split_ifs; eexists; split; reflexivity.
Qed.

(** X23: on a frame of at least 20 rows the volume ratio of the result is the
    volume of the latest bar divided by the mean volume of the five bars
    before it (the latest bar is not part of the average); when that mean is
    not positive the ratio keeps its default 0. *)
Theorem X23_volume_ratio_against_five_previous_bars (sqrt : Q -> Q)
    (score_weights : option (list Z)) (bars : list Bar) (symbol : string) :
  (20 <= List.length bars)%nat ->
  let volumes := map volume (sort_values_date bars) in
  let avg := Qmean (five_before_last volumes) in
  exists r,
    analyze sqrt (__init__ score_weights) (Some bars) symbol = Ok r
    /\ volume_ratio_5d (r_volume r)
       =f= if Qltb 0 avg then Fin (last volumes 0%Q / avg) else fz 0.
Proof.
  intros Hn volumes avg.
  destruct (analyze_stages sqrt (__init__ score_weights) bars symbol Hn
              (init_weights_length score_weights))
    as (t & b & v & s & m & rs & k & bo & o & sg & Hst & E).
  rewrite E. eexists; split; [reflexivity|].
  unfold stages in Hst; cbv zeta in Hst.
  destruct Hst as (_ & _ & Hv & _).
  assert (Hdf : len (frame_of sqrt bars) = List.length bars) by apply len_frame_of.
  match type of Hv with
  | _analyze_volume _ ?r2 = _ =>
      destruct (_analyze_volume_ratio (frame_of sqrt bars) r2 ltac:(lia)) as (vi & Ev & Hr)
  end.
  rewrite Ev in Hv. apply with_volume_inj in Hv. subst vi.
  unfold assemble. cbn [r_volume]. rewrite Hr. clear Hr Ev.
  cbn [r_volume with_bias with_trend first_result with_ma new_result volume_ratio_5d].
  rewrite Hdf. unfold frame_of. rewrite rows_calculate.
  assert (Lv : List.length volumes = List.length bars).
  { unfold volumes. now rewrite length_map, sort_values_date_length. }
  assert (Ec : col volume (sort_values_date bars) = map Fin volumes).
  { unfold col, volumes. now rewrite map_map. }
  rewrite Ec.
  rewrite tail_slice_6_1 by (rewrite length_map; lia).
  rewrite last_n_map, firstn_map.
  fold (five_before_last volumes).
  assert (L5 : List.length (five_before_last volumes) = 5%nat).
  { unfold five_before_last. rewrite length_firstn, last_n_length by lia. lia. }
  destruct (fmean_map_Fin (five_before_last volumes)) as (a & Ea & Ha).
  { intro E0. rewrite E0 in L5. discriminate L5. }
  rewrite Ea. fold avg in Ha.
  assert (El : cell (map Fin volumes) (List.length bars - 1) = Fin (last volumes 0%Q)).
  { unfold cell. rewrite (nth_indep _ NaN (Fin 0)) by (rewrite length_map; lia).
    rewrite map_nth. f_equal. rewrite <- Lv. apply nth_length_pred_last. }
  rewrite El. unfold fgt. cbn [flt fz].
  destruct (Qltb 0 avg) eqn:Epos.
  - apply Qltb_lt in Epos.
    replace (Qltb (inject_Z 0) a) with true
      by (symmetry; apply Qltb_lt; unfold inject_Z; rewrite Ha; exact Epos).
    unfold fdiv.
    replace (Qeq_bool a 0) with false
      by (symmetry; apply Qeq_bool_false; rewrite Ha; intro E0; rewrite E0 in Epos;
          exact (Qlt_irrefl 0 Epos)).
    cbn. now rewrite Ha.
  - apply Qltb_ge in Epos.
    replace (Qltb (inject_Z 0) a) with false
      by (symmetry; apply Qltb_ge; unfold inject_Z; rewrite Ha; exact Epos).
    reflexivity.
Qed.

Lemma X23_volume_ratio_against_five_previous_bars_witness :
  let volumes := map volume (sort_values_date rising20) in
  let avg := Qmean (five_before_last volumes) in
  exists r,
    analyze sqrt_floor (__init__ None) (Some rising20) EmptyString = Ok r
    /\ volume_ratio_5d (r_volume r)
       =f= if Qltb 0 avg then Fin (last volumes 0%Q / avg) else fz 0.
Proof.
  apply (X23_volume_ratio_against_five_previous_bars sqrt_floor None rising20 EmptyString).
  cbn. lia.
Defined.

(** ** The enumerations and the exported dictionary *)

Lemma TrendStatus_value_inj (a b : TrendStatus.t) :
  TrendStatus.value a = TrendStatus.value b -> a = b.
Proof. destruct a, b; intro H; try reflexivity; discriminate H. Qed.

Lemma VolumeStatus_value_inj (a b : VolumeStatus.t) :
  VolumeStatus.value a = VolumeStatus.value b -> a = b.
Proof. destruct a, b; intro H; try reflexivity; discriminate H. Qed.

Lemma BuySignal_value_inj (a b : BuySignal.t) :
  BuySignal.value a = BuySignal.value b -> a = b.
Proof. destruct a, b; intro H; try reflexivity; discriminate H. Qed.

Lemma MACDStatus_value_inj (a b : MACDStatus.t) :
  MACDStatus.value a = MACDStatus.value b -> a = b.
Proof. destruct a, b; intro H; try reflexivity; discriminate H. Qed.

Lemma RSIStatus_value_inj (a b : RSIStatus.t) :
  RSIStatus.value a = RSIStatus.value b -> a = b.
Proof. destruct a, b; intro H; try reflexivity; discriminate H. Qed.

Lemma KDJStatus_value_inj (a b : KDJStatus.t) :
  KDJStatus.value a = KDJStatus.value b -> a = b.
Proof. destruct a, b; intro H; try reflexivity; discriminate H. Qed.

Lemma BOLLStatus_value_inj (a b : BOLLStatus.t) :
  BOLLStatus.value a = BOLLStatus.value b -> a = b.
Proof. destruct a, b; intro H; try reflexivity; discriminate H. Qed.

Lemma to_dict_without_levels (r : TrendAnalysisResult) :
  to_dict (without_levels r) = to_dict r.
Proof. reflexivity. Qed.

(** X24: the exported dictionary has 44 keys, no key twice, and holds every field
    of the result except the lists of support and resistance levels: two
    results have the same dictionary exactly when they agree on all other
    fields.  (For the enumerations this rests on the values of the members of
    one enumeration being pairwise different.) *)
Theorem X24_to_dict_exports_all_but_the_levels (r r' : TrendAnalysisResult) :
  List.length (to_dict r) = 44%nat
  /\ NoDup (map fst (to_dict r))
  /\ (to_dict r = to_dict r' <-> without_levels r = without_levels r').
Proof.
  split; [reflexivity|]. split.
  - cbn [to_dict map fst].
    repeat (constructor; [cbn [In]; intuition discriminate|]). constructor.
  - split.
    + intro H. unfold to_dict in H.
      destruct r as [c t m b v s mc rs k bo o sg], r' as [c' t' m' b' v' s' mc' rs' k' bo' o' sg'].
      destruct t, m, b, v, s, mc, rs, k, bo, o, sg, t', m', b', v', s', mc', rs', k', bo', o', sg'.
      cbn in H. injection H. intros. subst.
      repeat match goal with
             | H : TrendStatus.value _ = TrendStatus.value _ |- _ =>
                 apply TrendStatus_value_inj in H
             | H : VolumeStatus.value _ = VolumeStatus.value _ |- _ =>
                 apply VolumeStatus_value_inj in H
             | H : BuySignal.value _ = BuySignal.value _ |- _ =>
                 apply BuySignal_value_inj in H
             | H : MACDStatus.value _ = MACDStatus.value _ |- _ =>
                 apply MACDStatus_value_inj in H
             | H : RSIStatus.value _ = RSIStatus.value _ |- _ =>
                 apply RSIStatus_value_inj in H
             | H : KDJStatus.value _ = KDJStatus.value _ |- _ =>
                 apply KDJStatus_value_inj in H
             | H : BOLLStatus.value _ = BOLLStatus.value _ |- _ =>
                 apply BOLLStatus_value_inj in H
             end.
      subst. reflexivity.
    + intro H. rewrite <- (to_dict_without_levels r), <- (to_dict_without_levels r').
      now rewrite H.
Qed.

(** ** The support levels *)

(** X25: for every frame and weights within the float range, [analyze]
    returns a result in which each support level stored by
    [_analyze_support_resistance] is MA5, MA10 or MA20 of the result, is
    positive and is not above the price. *)
Theorem X25_support_levels_are_averages_below_price (sqrt : Q -> Q)
    (score_weights : option (list Z)) (df : option (list Bar)) (symbol : string) :
  weights_in_float_range (__init__ score_weights) ->
  exists r,
    analyze sqrt (__init__ score_weights) df symbol = Ok r
    /\ Forall (fun x => (x = ma5 (r_ma r) \/ x = ma10 (r_ma r) \/ x = ma20 (r_ma r))
                        /\ fgt x (fz 0) = true
                        /\ fge (current_price (r_ma r)) x = true)
         (support_levels (r_support r)).
Proof.
  intros _.
  assert (S : match df with
              | None => True
              | Some bars => (List.length bars < 20)%nat
              end
              \/ exists bars, df = Some bars /\ (20 <= List.length bars)%nat).
  { destruct df as [bars|]; [|left; exact I].
    destruct (Nat.lt_ge_cases (List.length bars) 20); [left | right; exists bars]; auto. }
  destruct S as [S | (bars & -> & Hn)].
  - rewrite (analyze_short_frame_eq sqrt _ df symbol S).
    eexists; split; [reflexivity | constructor].
  - destruct (analyze_stages sqrt (__init__ score_weights) bars symbol Hn
                (init_weights_length score_weights))
      as (t & b & v & s & m & rs & k & bo & o & sg & Hst & E).
    set (dfr := frame_of sqrt bars) in *.
    rewrite E. eexists; split; [reflexivity|].
    unfold stages in Hst; cbv zeta in Hst.
    destruct Hst as (_ & _ & _ & Hs & _).
    match type of Hs with
    | _analyze_support_resistance _ ?r3 = _ =>
        destruct (support_levels_eq dfr r3) as (s' & Es & Hl & _)
    end.
    rewrite Es in Hs. apply with_support_inj in Hs. subst s'.
    unfold assemble. cbn [r_support r_ma].
    cbn [r_ma with_volume with_bias with_trend] in Hl.
    change (support_levels
              (r_support
                 (with_volume v (with_bias b (with_trend t (first_result dfr symbol))))))
      with (@nil fval) in Hl.
    set (M := r_ma (first_result dfr symbol)) in *. clearbody M.
    rewrite Hl. clear Hl Es. cbn [app].
    apply Forall_app; split; [|apply Forall_app; split].
    + destruct (fgt (ma5 M) (fz 0) && _) eqn:Ec; constructor; [|constructor].
      apply andb_true_iff in Ec. destruct Ec as [E1 E2].
      apply andb_true_iff in E2. destruct E2 as [_ E2].
      split; [left; reflexivity | split; assumption].
    + destruct (_ && negb _) eqn:Ec; constructor; [|constructor].
      apply andb_true_iff in Ec. destruct Ec as [Ec _].
      apply andb_true_iff in Ec. destruct Ec as [E1 E2].
      apply andb_true_iff in E2. destruct E2 as [_ E2].
      split; [right; left; reflexivity | split; assumption].
    + destruct (fgt (ma20 M) (fz 0) && _) eqn:Ec; constructor; [|constructor].
      apply andb_true_iff in Ec. destruct Ec as [E1 E2].
      split; [right; right; reflexivity | split; assumption].
Qed.

Lemma X25_support_levels_are_averages_below_price_witness :
  exists r,
    analyze sqrt_floor (__init__ None) (Some rising20) EmptyString = Ok r
    /\ Forall (fun x => (x = ma5 (r_ma r) \/ x = ma10 (r_ma r) \/ x = ma20 (r_ma r))
                        /\ fgt x (fz 0) = true
                        /\ fge (current_price (r_ma r)) x = true)
         (support_levels (r_support r)).
Proof.
  apply (X25_support_levels_are_averages_below_price sqrt_floor None (Some rising20) EmptyString).
  unfold weights_in_float_range. cbn. repeat constructor; vm_compute; discriminate.
Defined.

(** ** MACD of a rising series *)

Lemma span_alpha_fast_slow :
  (0 < 2 / inject_Z (Z.of_nat MACD_SLOW + 1)
   /\ 2 / inject_Z (Z.of_nat MACD_SLOW + 1) < 2 / inject_Z (Z.of_nat MACD_FAST + 1)
   /\ 2 / inject_Z (Z.of_nat MACD_FAST + 1) <= 1
   /\ 0 < 2 / inject_Z (Z.of_nat MACD_SIGNAL + 1)
   /\ 2 / inject_Z (Z.of_nat MACD_SIGNAL + 1) <= 1)%Q.
Proof. repeat split; try reflexivity; discriminate. Qed.

(** The fast average of a rising series stays above the slow one, and below
    the series. *)
Lemma ewm_fast_above_slow (af a_s : Q) (l : list Q) (p f s : Q) :
  (0 < a_s /\ a_s < af /\ af <= 1)%Q ->
  rising_from p l -> (s <= f)%Q -> (f <= p)%Q ->
  Forall fin_pos
    (map2 fsub (ewm_from (Fin af) (Fin f) (map Fin l))
               (ewm_from (Fin a_s) (Fin s) (map Fin l))).
Proof.
  intros (H0 & H1 & H2). revert p f s.
  induction l as [|x l IH]; intros p f s Hr Hsf Hfp; [constructor|].
  destruct Hr as [Hpx Hr].
  cbn [map ewm_from fsub fneg fadd fmul fz].
  unfold map2. cbn [combine map fst snd fsub fneg fadd].
  set (f' := ((inject_Z 1 + - af) * f + af * x)%Q).
  set (s' := ((inject_Z 1 + - a_s) * s + a_s * x)%Q).
  assert (Hd : (0 < f' + - s')%Q).
  { unfold f', s', inject_Z.
    setoid_replace ((1 + - af) * f + af * x + - ((1 + - a_s) * s + a_s * x))%Q
      with ((1 - af) * (f - s) + (af - a_s) * (x - s))%Q by ring.
    assert (T1 : (0 <= (1 - af) * (f - s))%Q) by (apply Qmult_le_0_compat; lra).
    assert (T2 : (0 < (af - a_s) * (x - s))%Q) by (apply Qmult_lt_0_compat; lra).
    lra. }
  assert (Hfx : (f' <= x)%Q).
  { unfold f', inject_Z.
    assert (T : (0 <= (1 - af) * (x - f))%Q) by (apply Qmult_le_0_compat; lra).
    setoid_replace ((1 + - af) * f + af * x)%Q with (x - (1 - af) * (x - f))%Q by ring.
    lra. }
  constructor; [exact Hd|].
  apply (IH x f' s' Hr); lra.
Qed.

Lemma ewm_from_pos (a : Q) (l : list fval) (d : fval) :
  (0 < a /\ a <= 1)%Q -> fin_nonneg d -> Forall fin_pos l ->
  Forall fin_pos (ewm_from (Fin a) d l).
Proof.
  intros [H0 H1] Hd H. revert d Hd.
  induction H as [|x l Hx Hl IH]; intros d Hd; cbn [ewm_from]; [constructor|].
  destruct d as [d| | |], x as [x| | |]; cbn in Hd, Hx; try contradiction.
  cbn [fsub fneg fadd fmul fz].
  assert (Hy : (0 < (inject_Z 1 + - a) * d + a * x)%Q).
  { unfold inject_Z.
    assert (T1 : (0 <= (1 + - a) * d)%Q) by (apply Qmult_le_0_compat; lra).
    assert (T2 : (0 < a * x)%Q) by (apply Qmult_lt_0_compat; lra).
    lra. }
  constructor; [exact Hy|]. apply IH. cbn. lra.
Qed.

Lemma map2_cons (f : fval -> fval -> fval) (x y : fval) (a b : list fval) :
  map2 f (x :: a) (y :: b) = f x y :: map2 f a b.
Proof. reflexivity. Qed.

Lemma _calculate_macd_rising (bars : list Bar) (i : nat) :
  rising (map close bars) -> (1 <= i < List.length bars)%nat ->
  let '(dif, dea, bar) := _calculate_macd bars in
  fin_pos (cell dif i) /\ fin_pos (cell dea i).
Proof.
  intros Hr Hi. unfold _calculate_macd, span_alpha. cbv zeta.
  unfold col. rewrite <- (map_map close Fin).
  rewrite <- (length_map close bars) in Hi.
  destruct (map close bars) as [|c l]; [cbn in Hi; lia|].
  cbn [rising] in Hr. cbn [List.length] in Hi.
  destruct span_alpha_fast_slow as (A0 & A1 & A2 & A3 & A4).
  pose proof (ewm_fast_above_slow _ _ l c c c (conj A0 (conj A1 A2)) Hr
                (Qle_refl c) (Qle_refl c)) as Hd.
  cbn [map ewm_mean]. rewrite map2_cons. cbn [ewm_mean].
  set (tail := map2 fsub _ _) in *.
  assert (Lt : List.length tail = List.length l).
  { unfold tail. rewrite map2_length; now rewrite !ewm_from_length, ?length_map. }
  split.
  - apply (Forall_tail_cell fin_pos); [exact Hd | lia].
  - apply (Forall_tail_cell fin_pos); [|rewrite ewm_from_length; lia].
    apply ewm_from_pos; [split; assumption | | exact Hd].
    cbn. lra.
Qed.

(** X26: when the closes of at least 26 bars, taken in order of date, rise
    from each bar to the next, DIF and DEA of the result are positive, and
    the MACD label is GOLDEN_CROSS_ZERO, DEATH_CROSS or BULLISH: never
    BEARISH, never a crossing of the zero axis, never the plain golden
    cross. *)
Theorem X26_rising_closes_keep_macd_above_zero (sqrt : Q -> Q)
    (score_weights : option (list Z)) (bars : list Bar) (symbol : string) :
  (26 <= List.length bars)%nat ->
  rising (closes bars) ->
  exists r,
    analyze sqrt (__init__ score_weights) (Some bars) symbol = Ok r
    /\ fin_pos (macd_dif (r_macd r))
    /\ fin_pos (macd_dea (r_macd r))
    /\ (macd_status (r_macd r) = MACDStatus.GOLDEN_CROSS_ZERO
        \/ macd_status (r_macd r) = MACDStatus.DEATH_CROSS
        \/ macd_status (r_macd r) = MACDStatus.BULLISH).
Proof.
  intros Hn Hr.
  destruct (analyze_stages sqrt (__init__ score_weights) bars symbol ltac:(lia)
              (init_weights_length score_weights))
    as (t & b & v & s & m & rs & k & bo & o & sg & Hst & E).
  rewrite E. eexists; split; [reflexivity|].
  unfold stages in Hst; cbv zeta in Hst.
  destruct Hst as (_ & _ & _ & _ & Hm & _).
  assert (Hdf : len (frame_of sqrt bars) = List.length bars) by apply len_frame_of.
  rewrite (_analyze_macd_fields (frame_of sqrt bars) _ ltac:(lia)) in Hm.
  cbv zeta in Hm. apply with_macd_inj in Hm. subst m.
  unfold assemble. cbn [r_macd macd_dif macd_dea macd_status].
  assert (Hs : List.length (sort_values_date bars) = List.length bars)
    by apply sort_values_date_length.
  assert (C : forall i, (1 <= i < List.length bars)%nat ->
                fin_pos (cell (MACD_DIF (frame_of sqrt bars)) i)
                /\ fin_pos (cell (MACD_DEA (frame_of sqrt bars)) i)).
  { intros i Hi.
    pose proof (_calculate_macd_rising (sort_values_date bars) i Hr ltac:(lia)) as H.
    unfold frame_of, calculate.
    destruct (_calculate_mas (sort_values_date bars)) as [[[m5 m10] m20] m60].
    destruct (_calculate_macd (sort_values_date bars)) as [[dif dea] bar].
    destruct (_calculate_rsi (sort_values_date bars)) as [[r6 r12] r24].
    destruct (_calculate_kdj (sort_values_date bars)) as [[kk dd] jj].
    destruct (_calculate_boll sqrt (sort_values_date bars)) as [[mid upper] lower].
    exact H. }
  rewrite Hdf.
  destruct (C (List.length bars - 1)%nat ltac:(lia)) as [Hd He].
  destruct (C (List.length bars - 2)%nat ltac:(lia)) as [Hpd Hpe].
  split; [exact Hd|]. split; [exact He|].
  destruct (cell (MACD_DIF (frame_of sqrt bars)) (List.length bars - 1)) as [d| | |];
    cbn in Hd; try contradiction.
  destruct (cell (MACD_DEA (frame_of sqrt bars)) (List.length bars - 1)) as [e| | |];
    cbn in He; try contradiction.
  destruct (cell (MACD_DIF (frame_of sqrt bars)) (List.length bars - 2)) as [pd| | |];
    cbn in Hpd; try contradiction.
  destruct (cell (MACD_DEA (frame_of sqrt bars)) (List.length bars - 2)) as [pe| | |];
    cbn in Hpe; try contradiction.
  unfold macd_state_above_zero, golden_cross, death_cross, crossing_up, crossing_down,
    fge, fle, fgt.
  cbn [fsub fneg fadd flt feq fz].
  replace (Qltb (inject_Z 0) d) with true
    by (symmetry; apply Qltb_lt; unfold inject_Z; lra).
  replace (Qltb (inject_Z 0) e) with true
    by (symmetry; apply Qltb_lt; unfold inject_Z; lra).
  replace (Qltb pd (inject_Z 0)) with false
    by (symmetry; apply Qltb_ge; unfold inject_Z; lra).
  replace (Qeq_bool pd (inject_Z 0)) with false
    by (symmetry; apply Qeq_bool_false; unfold inject_Z; intro; lra).
  replace (Qltb d (inject_Z 0)) with false
    by (symmetry; apply Qltb_ge; unfold inject_Z; lra).
  cbn [orb andb first_match].
  rewrite !andb_true_r, ?andb_false_r.
  cbn [first_match].
  split_ifs; cbn; auto.
Qed.

Lemma rising26_rising : rising (closes (bars_of_closes 1000 (map Z.of_nat (seq 100 26)))).
Proof. vm_compute. repeat split. Qed.

Lemma X26_rising_closes_keep_macd_above_zero_witness :
  exists r,
    analyze sqrt_floor (__init__ None)
      (Some (bars_of_closes 1000 (map Z.of_nat (seq 100 26)))) EmptyString = Ok r
    /\ fin_pos (macd_dif (r_macd r))
    /\ fin_pos (macd_dea (r_macd r))
    /\ (macd_status (r_macd r) = MACDStatus.GOLDEN_CROSS_ZERO
        \/ macd_status (r_macd r) = MACDStatus.DEATH_CROSS
        \/ macd_status (r_macd r) = MACDStatus.BULLISH).
Proof.
  apply (X26_rising_closes_keep_macd_above_zero sqrt_floor None
           (bars_of_closes 1000 (map Z.of_nat (seq 100 26))) EmptyString).
  - cbn. lia.
  - exact rising26_rising.
Defined.

(** ** The range of the composite score *)

(** X27: for every frame (also a missing or a short one) and every weight
    vector of eight non-negative integers summing to 100, [analyze] returns
    a result whose composite score is within [0, 100]. *)
Theorem X27_score_within_0_100_for_nonnegative_weights (sqrt : Q -> Q) (w : list Z)
    (df : option (list Bar)) (symbol : string) :
  valid_weights w ->
  exists r, analyze sqrt (__init__ (Some w)) df symbol = Ok r
            /\ 0 <= signal_score (r_signal r) <= 100.
Proof. apply analyze_score_bounds. Qed.

Lemma X27_score_within_0_100_for_nonnegative_weights_witness :
  exists r, analyze sqrt_floor (__init__ (Some DEFAULT_WEIGHTS)) (Some rising20)
              EmptyString = Ok r
            /\ 0 <= signal_score (r_signal r) <= 100.
Proof.
  apply X27_score_within_0_100_for_nonnegative_weights.
  split; [reflexivity|]. split; [|reflexivity].
  repeat constructor; discriminate.
Defined.

(** ** The quotients of the aggregation and the float range *)




